(** * Car Scout: the visit-scheduling engine, the new-information classifier
      and the inbound-SMS handler, embedded from [utils.py], [models.py] and
      [server.py]. *)

From Stdlib Require Import ZArith List Bool Lia Ascii.
From stdpp Require Import gmap strings list.
Import ListNotations.

Local Open Scope string_scope.
Local Open Scope Z_scope.

(** ** Dates and times

    Every datetime the scheduling engine compares carries the one [ct_tz]
    object ([gettz('America/Chicago')]); Python compares and subtracts two
    aware datetimes with the same [tzinfo] on their wall-clock fields, and
    [datetime + timedelta] is wall-clock arithmetic too.  A Central-Time
    datetime is therefore the number of microseconds (the resolution of
    [datetime]) on the Central-Time wall clock, counted from midnight of a
    day 0, and a [timedelta] is a number of microseconds. *)

Module Datetime.

Abbreviation datetime := Z (only parsing).
Abbreviation timedelta := Z (only parsing).

Definition seconds (n : Z) : timedelta := n * 1000000.
Definition minutes (n : Z) : timedelta := seconds (n * 60).
Definition hours (n : Z) : timedelta := minutes (n * 60).
Definition days (n : Z) : timedelta := hours (n * 24).

(** [d.date()], as a day number. *)
Definition date (d : datetime) : Z := d / days 1.

(** [d.hour]. *)
Definition hour (d : datetime) : Z := (d mod days 1) / hours 1.

(** [datetime.combine(day, datetime.min.time().replace(hour=h, minute=0))]
    followed by [replace(tzinfo=ct_tz)]. *)
Definition combine (day h : Z) : datetime := days day + hours h.

(** [d.replace(hour=h, minute=0, second=0, microsecond=0)]. *)
Definition replace_hour (d : datetime) (h : Z) : datetime :=
  combine (date d) h.

(** [abs((a - b).total_seconds())], kept in microseconds.  The float that
    [total_seconds()] returns is the correctly rounded quotient by 10^6,
    so it is below [3600.0] exactly when the microsecond count is below
    [seconds 3600]. *)
Definition time_diff (a b : datetime) : timedelta := Z.abs (a - b).

End Datetime.
Import Datetime.

(** ** Documents and collections ([models.py])

    A document is a dictionary from field names to values; a collection is
    the list of its documents in insertion order, each with the [_id] the
    database gave it. *)

Definition oid := N.

Inductive value : Type :=
| VNull
| VBool (b : bool)
| VInt (n : Z)
| VStr (s : string)
| VDate (t : Z)
| VOid (o : oid).

#[global] Instance value_eq_dec : EqDecision value.
Proof. solve_decision. Defined.

Abbreviation document := (gmap string value) (only parsing).
Abbreviation collection := (list (oid * gmap string value)) (only parsing).

Definition value_is_str (s : string) (v : option value) : bool :=
  match v with
  | Some (VStr s') => String.eqb s' s
  | _ => false
  end.

Definition value_is_oid (o : oid) (v : option value) : bool :=
  match v with
  | Some (VOid o') => N.eqb o' o
  | _ => false
  end.

(** Python truthiness of [doc.get(key)]. *)
Definition truthy (v : option value) : bool :=
  match v with
  | None | Some VNull => false
  | Some (VBool b) => b
  | Some (VInt n) => negb (Z.eqb n 0)
  | Some (VStr s) => negb (String.eqb s "")
  | Some (VDate _) | Some (VOid _) => true
  end.

Module Mongo.

(** A query, as the predicate on documents that it stands for. *)
Definition query : Type := oid * gmap string value -> bool.

(** The query [{"_id": id}]. *)
Definition by_id (id : oid) : query :=
  fun d => N.eqb (fst d) id.

(** The query [{key: v}]. *)
Definition by_field (key : string) (v : value) : query :=
  fun d => bool_decide (snd d !! key = Some v).

(** [collection.find(query)]. *)
Definition find (q : query) (c : collection) : collection :=
  List.filter q c.

(** [collection.find_one(query)]: the first match. *)
Definition find_one (q : query) (c : collection)
  : option (oid * gmap string value) :=
  List.find q c.

(** [collection.find_one({"_id": id})]. *)
Definition find_by_id (id : oid) (c : collection)
  : option (oid * gmap string value) :=
  find_one (by_id id) c.

(** [collection.insert_one(data)]; [id] is the fresh [_id]. *)
Definition insert_one (id : oid) (data : gmap string value) (c : collection)
  : collection :=
  c ++ [(id, data)].

(** [collection.update_one(query, {"$set": update})]: the first document
    the query matches takes every key of [update], its other fields and
    the other documents are left as they are. *)
Fixpoint update_one (q : query) (update : gmap string value)
    (c : collection) : collection :=
  match c with
  | [] => []
  | d :: rest =>
      if q d then (fst d, update ∪ snd d) :: rest
      else d :: update_one q update rest
  end.

End Mongo.

(** ** Text

    A message is a [string] whose characters are code points below 256. *)

Module Text.

Definition in_range (lo hi : N) (c : ascii) : bool :=
  let n := N_of_ascii c in (N.leb lo n && N.leb n hi)%bool.

(** [str.lower()] on one character: the letters A-Z and the upper-case
    letters of Latin-1 (all of 192-222 but the multiplication sign). *)
Definition lower_char (c : ascii) : ascii :=
  if in_range 65 90 c
     || (in_range 192 222 c && negb (N.eqb (N_of_ascii c) 215))
  then ascii_of_N (N_of_ascii c + 32) else c.

Fixpoint lower (s : string) : string :=
  match s with
  | EmptyString => EmptyString
  | String c rest => String (lower_char c) (lower rest)
  end.

(** [str.upper()] as far as a comparison with an ASCII word can tell: no
    character above 127 is turned into an ASCII letter. *)
Definition upper_char (c : ascii) : ascii :=
  if in_range 97 122 c then ascii_of_N (N_of_ascii c - 32) else c.

Fixpoint upper (s : string) : string :=
  match s with
  | EmptyString => EmptyString
  | String c rest => String (upper_char c) (upper rest)
  end.

(** [str.isspace()] on one character. *)
Definition is_space (c : ascii) : bool :=
  in_range 9 13 c || in_range 28 32 c
  || N.eqb (N_of_ascii c) 133 || N.eqb (N_of_ascii c) 160.

Fixpoint lstrip (s : string) : string :=
  match s with
  | EmptyString => EmptyString
  | String c rest => if is_space c then lstrip rest else s
  end.

Fixpoint rstrip (s : string) : string :=
  match s with
  | EmptyString => EmptyString
  | String c rest =>
      match rstrip rest with
      | EmptyString => if is_space c then EmptyString
                       else String c EmptyString
      | rest' => String c rest'
      end
  end.

Definition strip (s : string) : string := rstrip (lstrip s).

(** [s.startswith(p)], and what is left of [s] behind [p]. *)
Fixpoint strip_prefix (p s : string) : option string :=
  match p, s with
  | EmptyString, _ => Some s
  | String a p', String b s' =>
      if Ascii.eqb a b then strip_prefix p' s' else None
  | String _ _, EmptyString => None
  end.

(** [sub in s]. *)
Fixpoint contains (sub s : string) : bool :=
  match strip_prefix sub s with
  | Some _ => true
  | None =>
      match s with
      | EmptyString => false
      | String _ rest => contains sub rest
      end
  end.

(** [s.replace(sub, "")] for a non-empty [sub]: the occurrences are
    removed from left to right. *)
Fixpoint remove_all_fuel (fuel : nat) (sub s : string) : string :=
  match fuel with
  | O => s
  | S n =>
      match strip_prefix sub s with
      | Some rest => remove_all_fuel n sub rest
      | None =>
          match s with
          | EmptyString => EmptyString
          | String c rest => String c (remove_all_fuel n sub rest)
          end
      end
  end.

Definition remove_all (sub s : string) : string :=
  remove_all_fuel (S (String.length s)) sub s.

(** [not s]. *)
Definition is_empty (s : string) : bool := String.eqb s "".

End Text.

(** ** Regular expressions

    The patterns of the source use ordinary characters and [.*] only;
    [.] matches every character but the newline. *)

Module Re.

Inductive atom : Type :=
| Chr (c : ascii)
| DotStar.

Fixpoint compile (pattern : string) : list atom :=
  match pattern with
  | EmptyString => []
  | String "." (String "*" rest) => DotStar :: compile rest
  | String c rest => Chr c :: compile rest
  end.

Definition newline : ascii := ascii_of_N 10.

(** A match of the atoms that starts at the head of [s]. *)
Fixpoint match_here (p : list atom) (s : string) : bool :=
  match p with
  | [] => true
  | Chr c :: p' =>
      match s with
      | String d s' => Ascii.eqb c d && match_here p' s'
      | EmptyString => false
      end
  | DotStar :: p' =>
      (fix star (s : string) : bool :=
         match_here p' s
         || match s with
            | String d s' => negb (Ascii.eqb d newline) && star s'
            | EmptyString => false
            end) s
  end.

Fixpoint search_atoms (p : list atom) (s : string) : bool :=
  match_here p s
  || match s with
     | String _ s' => search_atoms p s'
     | EmptyString => false
     end.

(** [re.search(pattern, s)] as a truth value. *)
Definition search (pattern s : string) : bool :=
  search_atoms (compile pattern) s.

Definition is_digit (c : ascii) : bool := Text.in_range 48 57 c.

(** [re.search(r'\d+', s)] as a truth value. *)
Fixpoint search_digits (s : string) : bool :=
  match s with
  | EmptyString => false
  | String c rest => is_digit c || search_digits rest
  end.

End Re.

(** ** Calls to the language model

    A function that may call the model is a tree: it returns, or it sends a
    request and goes on with the reply. *)

Inductive llm_request : Type :=
| AskNewInformation (known_info_section message : string)
| AskAgent (known_info_section transcript : string)
| AskVisitScheduling (message : string)
| AskListing (transcript : string)
| AskProposedTime (latest_message transcript : string).

Inductive llm_reply : Type :=
| LlmRaised
| LlmContent (content : string).

Inductive prog (A : Type) : Type :=
| Ret (a : A)
| Chat (request : llm_request) (k : llm_reply -> prog A).

Arguments Ret {A} a.
Arguments Chat {A} request k.

(** Running a tree against the model: the result and the requests sent. *)
Fixpoint run {A : Type} (model : llm_request -> llm_reply) (p : prog A)
  : A * list llm_request :=
  match p with
  | Ret a => (a, [])
  | Chat request k =>
      let r := run model (k (model request)) in
      (fst r, request :: snd r)
  end.

Inductive py_result (A : Type) : Type :=
| Returned (a : A)
| Raised (exc : string).

Arguments Returned {A} a.
Arguments Raised {A} exc.

(** ** The new-information classifier ([utils.py]) *)

Definition acknowledgment_patterns : list string :=
  [ "sounds good";
    "will get back";
    "get back to you";
    "will update you";
    "update you as soon";
    "will reach out";
    "reach out as soon";
    "will be in touch";
    "be in touch as soon";
    "working to get";
    "gathering.*information";
    "collecting.*information";
    "looking into";
    "will provide";
    "provide.*as soon";
    "thank you for your patience";
    "thank you for checking in";
    "still working";
    "still gathering";
    "still collecting" ].

Definition is_just_acknowledgment (message : string) : bool :=
  let message_lower := Text.lower message in
  existsb (fun pattern => Re.search pattern message_lower)
    acknowledgment_patterns
  && negb (Re.search_digits message)
  && negb (Text.contains "$" message).

(** What rendering [known_data] into [known_fields] yields: the lines, or
    an exception of a format specification. *)
Inductive known_rendering : Type :=
| KnownRaised
| KnownFields (known_fields : list string).

Definition new_line : string := String Re.newline EmptyString.

Definition known_information_section (known_fields : list string) : string :=
  match known_fields with
  | [] => ""
  | _ => new_line +:+ new_line +:+ "Known information:" +:+ new_line
         +:+ String.concat new_line known_fields
  end.

(** [client] is whether [openai_client] is configured. *)
Definition message_contains_new_information (client : bool)
    (message : string) (known_data : known_rendering) : prog bool :=
  if negb client then Ret true
  else if is_just_acknowledgment message then Ret false
  else
    match known_data with
    | KnownRaised => Ret true
    | KnownFields known_fields =>
        Chat (AskNewInformation (known_information_section known_fields)
                message)
          (fun reply =>
             match reply with
             | LlmRaised => Ret true
             | LlmContent content =>
                 Ret (String.eqb (Text.upper (Text.strip content)) "YES")
             end)
    end.

(** ** The negotiation agent and the other model-backed helpers
      ([utils.py]) *)

(** [get_ai_response]: the stripped reply, or the exception it passes on. *)
Definition get_ai_response (client : bool) (conversation_transcript : string)
    (known_data : known_rendering) (is_waiting_for_response : bool)
  : prog (py_result string) :=
  if negb client then Ret (Raised "ValueError")
  else
    match known_data with
    | KnownRaised => Ret (Raised "ValueError")
    | KnownFields known_fields =>
        let known_info_section :=
          match known_fields with
          | [] => ""
          | _ =>
              new_line +:+ new_line
              +:+ "IMPORTANT: You already have the following information (do NOT ask for these again):"
              +:+ new_line +:+ String.concat new_line known_fields
              +:+ new_line +:+ new_line
              +:+ "Only ask for information you don't already have."
          end in
        Chat (AskAgent known_info_section
                (if Text.is_empty conversation_transcript
                 then "(No conversation yet)" else conversation_transcript))
          (fun reply =>
             match reply with
             | LlmRaised => Ret (Raised "Exception")
             | LlmContent content =>
                 let response := Text.strip content in
                 if Text.is_empty response then Ret (Raised "ValueError")
                 else Ret (Returned response)
             end)
    end.

Definition visit_keywords : list string :=
  [ "visit"; "appointment"; "schedule"; "come in"; "come by"; "stop by";
    "when can you"; "what time"; "available"; "availability"; "cancel";
    "reschedule"; "change time"; "change date"; "meet"; "see the car";
    "test drive"; "view"; "inspect" ].

Definition keyword_fallback (message : string) : bool :=
  let message_lower := Text.lower message in
  existsb (fun keyword => Text.contains keyword message_lower) visit_keywords.

Definition check_if_message_about_visit_scheduling (client : bool)
    (message : string) : prog bool :=
  if negb client then Ret (keyword_fallback message)
  else
    Chat (AskVisitScheduling message)
      (fun reply =>
         match reply with
         | LlmRaised => Ret (keyword_fallback message)
         | LlmContent content =>
             Ret (String.eqb (Text.upper (Text.strip content)) "YES")
         end).

(** [extract_car_listing_data]; [listing_of_reply] stands for [json.loads]
    and the conversions of the twelve fields, [None] when they raise. *)
Definition extract_car_listing_data (client : bool)
    (listing_of_reply : string -> option (gmap string value))
    (conversation_transcript : string) : prog (py_result (gmap string value)) :=
  if negb client then Ret (Raised "ValueError")
  else
    Chat (AskListing conversation_transcript)
      (fun reply =>
         match reply with
         | LlmRaised => Ret (Raised "Exception")
         | LlmContent content =>
             let response_text := Text.strip content in
             if Text.is_empty response_text then Ret (Raised "ValueError")
             else
               match listing_of_reply response_text with
               | Some extracted_data => Ret (Returned extracted_data)
               | None => Ret (Raised "Exception")
               end
         end).

(** [build_conversation_transcript]: the messages of the thread in the
    order of their timestamps, one line each. *)
Definition timestamp_key (msg : oid * gmap string value) : Z :=
  match snd msg !! "timestamp" with
  | Some (VDate t) => t
  | _ => 0
  end.

Fixpoint insert_message (msg : oid * gmap string value) (l : collection)
  : collection :=
  match l with
  | [] => [msg]
  | m :: rest =>
      if timestamp_key msg <=? timestamp_key m then msg :: l
      else m :: insert_message msg rest
  end.

Fixpoint sort_messages (l : collection) : collection :=
  match l with
  | [] => []
  | msg :: rest => insert_message msg (sort_messages rest)
  end.

Definition transcript_line (py_str : value -> string)
    (msg : oid * gmap string value) : option string :=
  match snd msg !! "direction", snd msg !! "body" with
  | Some direction, Some body =>
      Some ((if value_is_str "inbound" (Some direction)
             then "Dealer" else "You")
            +:+ ": "
            +:+ match body with VStr b => b | other => py_str other end)
  | _, _ => None
  end.

Fixpoint transcript_lines (py_str : value -> string) (l : collection)
  : option (list string) :=
  match l with
  | [] => Some []
  | msg :: rest =>
      match transcript_line py_str msg, transcript_lines py_str rest with
      | Some line, Some lines => Some (line :: lines)
      | _, _ => None
      end
  end.

Definition build_conversation_transcript (py_str : value -> string)
    (thread_id : oid) (messages : collection) : py_result string :=
  let found :=
    Mongo.find (Mongo.by_field "threadId" (VOid thread_id)) messages in
  match transcript_lines py_str (sort_messages found) with
  | Some lines => Returned (String.concat new_line lines)
  | None => Raised "KeyError"
  end.

(** ** The state the handler works on ([server.py]) *)

Module SMSWebhook.
Record t : Type := {
  fromNumber : string;
  toNumber : option string;
  message : string;
  replyId : option string;
  timestamp : option string;
  tags : option (gmap string value)
}.
End SMSWebhook.

(** What leaves the process or changes its task table. *)
Inductive effect : Type :=
| ModelCall (request : llm_request)
| SmsSend (to body : string)
| TaskCancelled (thread_id : oid)
| TaskCreated (thread_id : oid) (ai_response : string).

Record world : Type := {
  threads : list (oid * gmap string value);
  messages : list (oid * gmap string value);
  car_listings : list (oid * gmap string value);
  visits : list (oid * gmap string value);
  pending_responses : gmap oid string;
  effects : list effect
}.

Definition set_threads (c : collection) (w : world) : world :=
  {| threads := c; messages := messages w; car_listings := car_listings w;
     visits := visits w; pending_responses := pending_responses w;
     effects := effects w |}.

Definition set_messages (c : collection) (w : world) : world :=
  {| threads := threads w; messages := c; car_listings := car_listings w;
     visits := visits w; pending_responses := pending_responses w;
     effects := effects w |}.

Definition set_car_listings (c : collection) (w : world) : world :=
  {| threads := threads w; messages := messages w; car_listings := c;
     visits := visits w; pending_responses := pending_responses w;
     effects := effects w |}.

Definition set_visits (c : collection) (w : world) : world :=
  {| threads := threads w; messages := messages w;
     car_listings := car_listings w; visits := c;
     pending_responses := pending_responses w; effects := effects w |}.

Definition set_pending_responses (p : gmap oid string) (w : world) : world :=
  {| threads := threads w; messages := messages w;
     car_listings := car_listings w; visits := visits w;
     pending_responses := p; effects := effects w |}.

Definition add_effects (es : list effect) (w : world) : world :=
  {| threads := threads w; messages := messages w;
     car_listings := car_listings w; visits := visits w;
     pending_responses := pending_responses w; effects := effects w ++ es |}.

Record config : Type := {
  openai_client : bool; (* OPENAI_API_KEY is set *)
  mta_api_key : bool    (* MTA_API_KEY is set *)
}.

Definition MTA_PHONE_NUMBER : string := "+18776647380".

Inductive response : Type :=
| Response (success : bool) (text : string)
| HTTPError (status_code : Z).

(** ** Visits ([utils.py]) *)

(** The dictionaries [get_visit_availability] returns. *)
Record visit_info : Type := {
  visitId : oid;
  scheduledTime : Z;
  dealerPhoneNumber : option value;
  status : value
}.

Record sched_result : Type := {
  message : string;
  visit_scheduled : bool
}.

(** What the model call, [json.loads] and the parsing of the proposed
    datetime (lines 1059-1094) yield. *)
Inductive extraction_outcome : Type :=
| ExtractionRaised
    (* the call or json.loads raised: the outer except *)
| Extracted (dealer_date dealer_time : bool) (proposed_time : option Z).
    (* truthiness of the two fields; the proposed time normalised to
       ct_tz, None when parsing it raised *)

(** The readings of the outside world one run of the engine takes. *)
Record sched_env : Type := {
  now_ct : Z;             (* datetime.now(ct_tz), line 1008 *)
  now_in_search : Z -> Z; (* datetime.now(ct_tz), line 1161, at each offset *)
  created_at : Z;         (* datetime.now() in create_visit *)
  updated_at : Z;
  extraction : extraction_outcome;
  car_listing_id : option oid; (* CarListing.find_one, line 1077 *)
  new_visit_id : oid           (* the _id insert_one assigns *)
}.

(** The outside world during one run of the handler. *)
Record webhook_env : Type := {
  model : llm_request -> llm_reply;
  sms_delivers : string -> string -> bool; (* send_sms returns *)
  timestamp : Z;         (* webhook.timestamp parsed, or datetime.now() *)
  message_timestamp : Z;
  clock : Z;             (* datetime.now() of the later writes *)
  new_thread_id : oid;
  new_message_id : oid;
  reply_message_id : oid;
  new_listing_id : oid;
  listing_of_reply : string -> option (gmap string value);
  sched : sched_env
}.

Section Engine.

(** The database driver stores a datetime as an instant, and the engine
    reads a stored [scheduledTime] back through [isoformat],
    [fromisoformat] and [replace(tzinfo=ct_tz)] or [astimezone(ct_tz)]. *)
Variable to_bson : Z -> Z.
Variable from_bson : Z -> Z.

(** [t.strftime('%A, %B %d at %I:%M %p')]. *)
Variable strftime : Z -> string.

(** [str(v)], as an f-string renders a value. *)
Variable py_str : value -> string.

(** The query of [get_visit_availability]. *)
Definition availability_query (start_date end_date : Z) : Mongo.query :=
  fun v =>
  match snd v !! "scheduledTime" with
  | Some (VDate t) =>
      Z.leb (to_bson start_date) t && Z.leb t (to_bson end_date)
  | _ => false
  end
  && negb (value_is_str "cancelled" (snd v !! "status")).

Definition visit_entry (v : oid * gmap string value) : option visit_info :=
  match snd v !! "scheduledTime" with
  | Some (VDate t) =>
      Some {| visitId := fst v;
              scheduledTime := t;
              dealerPhoneNumber := snd v !! "dealerPhoneNumber";
              status := default (VStr "scheduled") (snd v !! "status") |}
  | _ => None (* the query returns no such document *)
  end.

Definition get_visit_availability (start_date end_date : Z)
    (visits : collection) : list visit_info :=
  omap visit_entry
    (Mongo.find (availability_query start_date end_date) visits).

Definition visit_data (thread_id : oid) (scheduled_time : Z)
    (dealer_phone_number : string) (car_listing : option oid)
    (notes : option string) (created updated : Z) : gmap string value :=
  let base : gmap string value :=
    {[ "threadId" := VOid thread_id;
       "scheduledTime" := VDate (to_bson scheduled_time);
       "dealerPhoneNumber" := VStr dealer_phone_number;
       "status" := VStr "scheduled";
       "createdAt" := VDate created;
       "updatedAt" := VDate updated ]} in
  let with_listing :=
    match car_listing with
    | Some c => <["carListingId" := VOid c]> base
    | None => base
    end in
  match notes with
  | Some n => if String.eqb n "" then with_listing
              else <["notes" := VStr n]> with_listing
  | None => with_listing
  end.

Definition create_visit (env : sched_env) (thread_id : oid)
    (scheduled_time : Z) (dealer_phone_number : string)
    (car_listing : option oid) (notes : option string)
    (visits : collection) : collection :=
  Mongo.insert_one (new_visit_id env)
    (visit_data thread_id scheduled_time dealer_phone_number car_listing
       notes (created_at env) (updated_at env))
    visits.

(** The time the engine compares against, lines 1106-1110. *)
Definition visit_time (visit : visit_info) : Z :=
  from_bson (scheduledTime visit).

(** The test of lines 1112-1113 on one pair of times. *)
Definition conflicts (t1 t2 : Z) : bool :=
  time_diff t1 t2 <? seconds 3600.

(** The loop over [existing_visits] with its [break]; the same loop is
    written out in [process_visit_scheduling], [find_next_available_time]
    and twice in [propose_available_time]. *)
Fixpoint has_conflict (t : Z) (existing_visits : list visit_info) : bool :=
  match existing_visits with
  | [] => false
  | visit :: rest =>
      if conflicts t (visit_time visit) then true
      else has_conflict t rest
  end.

(** [time_slots.sort(key=...)]: Python's sort is stable, and so is this
    insertion sort (an element goes in front of the first element whose
    key is not smaller). *)
Fixpoint insert_by_key (key : Z -> Z) (x : Z) (l : list Z) : list Z :=
  match l with
  | [] => [x]
  | y :: rest =>
      if key x <=? key y then x :: l else y :: insert_by_key key x rest
  end.

Fixpoint sort_by_key (key : Z -> Z) (l : list Z) : list Z :=
  match l with
  | [] => []
  | x :: rest => insert_by_key key x (sort_by_key key rest)
  end.

(** The body of the [for offset_minutes in ...] loop: the candidate when
    it is appended to [time_slots], [None] when it is skipped. *)
Definition alternative_slot (env : sched_env) (proposed_time : Z)
    (existing_visits : list visit_info) (end_date : Z)
    (offset_minutes : Z) : option Z :=
  let candidate_time := proposed_time + minutes offset_minutes in
  if (candidate_time <? now_in_search env offset_minutes)
     || (candidate_time >? end_date)
  then None
  else if has_conflict candidate_time existing_visits then None
  else Some candidate_time.

Definition offsets : list Z := [-30; 30; -60; 60; -90; 90].

Definition find_next_available_time (env : sched_env) (proposed_time : Z)
    (existing_visits : list visit_info) (end_date : Z) : option Z :=
  let time_slots :=
    omap (alternative_slot env proposed_time existing_visits end_date)
      offsets in
  match sort_by_key (fun t => time_diff t proposed_time) time_slots with
  | [] => None
  | t :: _ => Some t
  end.

Definition preferred_hours : list Z := [10; 14; 16].

(** [range(9, 18)]. *)
Definition any_hours : list Z := seqZ 9 9.

(** The body of the [for hour in ...] loops of [propose_available_time]:
    the candidate when it is free, [None] when the loop goes on. *)
Definition try_slot (now end_date : Z) (existing_visits : list visit_info)
    (current_date hour : Z) : option Z :=
  let candidate_time := combine current_date hour in
  if (candidate_time <? now) || (candidate_time >? end_date) then None
  else if has_conflict candidate_time existing_visits then None
  else Some candidate_time.

Fixpoint scan_hours (now end_date : Z) (existing_visits : list visit_info)
    (current_date : Z) (hour_list : list Z) : option Z :=
  match hour_list with
  | [] => None
  | hour :: rest =>
      match try_slot now end_date existing_visits current_date hour with
      | Some candidate_time => Some candidate_time
      | None => scan_hours now end_date existing_visits current_date rest
      end
  end.

(** [while current_date <= end_date_only: ...; current_date += 1 day],
    by recursion on the number of days left. *)
Fixpoint scan_days (now end_date : Z) (existing_visits : list visit_info)
    (hour_list : list Z) (days_left : nat) (current_date : Z) : option Z :=
  match days_left with
  | O => None
  | S n =>
      match scan_hours now end_date existing_visits current_date hour_list
      with
      | Some candidate_time => Some candidate_time
      | None =>
          scan_days now end_date existing_visits hour_list n
            (current_date + 1)
      end
  end.

Definition start_date (now : Z) : Z :=
  if hour now <? 10 then replace_hour now 10 else now + days 1.

Definition scan (now end_date : Z) (existing_visits : list visit_info)
    (hour_list : list Z) : option Z :=
  let current_date := date (start_date now) in
  let end_date_only := date end_date in
  scan_days now end_date existing_visits hour_list
    (Z.to_nat (end_date_only - current_date + 1)) current_date.

Definition come_by_message (t : Z) : string :=
  "I'll come by at " +:+ strftime t +:+ " Central Time - thank you.".

Definition how_about_message (t : Z) : string :=
  "How about " +:+ strftime t +:+ " Central Time? I've scheduled it for then.".

Definition booked_up_message : string :=
  "I'm pretty booked up over the next couple days. What times work best for you?".

Definition not_available_message (t : Z) : string :=
  "I'm not available at that exact time, but how about " +:+ strftime t
  +:+ " Central Time? I've scheduled it for then.".

Definition perfect_message (t : Z) : string :=
  "Perfect! I've scheduled a visit for " +:+ strftime t
  +:+ " Central Time. Looking forward to seeing you then!".

Definition ready_message : string :=
  "I'm ready to schedule a visit. What date and time works for you?".

Definition propose_available_time (env : sched_env) (now end_date : Z)
    (existing_visits : list visit_info) (thread_id : oid)
    (dealer_phone_number : string) (car_listing : option oid)
    (visits : collection) : sched_result * collection :=
  match scan now end_date existing_visits preferred_hours with
  | Some candidate_time =>
      ({| message := come_by_message candidate_time;
          visit_scheduled := true |},
       create_visit env thread_id candidate_time dealer_phone_number
         car_listing None visits)
  | None =>
      match scan now end_date existing_visits any_hours with
      | Some candidate_time =>
          ({| message := how_about_message candidate_time;
              visit_scheduled := true |},
           create_visit env thread_id candidate_time dealer_phone_number
             car_listing None visits)
      | None =>
          ({| message := booked_up_message; visit_scheduled := false |},
           visits)
      end
  end.

(** [client] is whether [openai_client] is configured. *)
Definition process_visit_scheduling (client : bool) (env : sched_env)
    (thread_id : oid) (dealer_phone_number : string) (visits : collection)
  : option sched_result * collection :=
  if negb client then (None, visits)
  else
    let end_date := now_ct env + days 2 in
    let existing_visits :=
      get_visit_availability (now_ct env) end_date visits in
    let propose :=
      let r := propose_available_time env (now_ct env) end_date
                 existing_visits thread_id dealer_phone_number
                 (car_listing_id env) visits in
      (Some (fst r), snd r) in
    match extraction env with
    | ExtractionRaised =>
        (Some {| message := ready_message; visit_scheduled := false |},
         visits)
    | Extracted dealer_date dealer_time parsed =>
        if dealer_date && dealer_time then
          match parsed with
          | None => propose
          | Some proposed_time =>
              if proposed_time <? now_ct env then propose
              else if has_conflict proposed_time existing_visits then
                match find_next_available_time env proposed_time
                        existing_visits end_date with
                | Some alternative_time =>
                    (Some {| message :=
                               not_available_message alternative_time;
                             visit_scheduled := true |},
                     create_visit env thread_id alternative_time
                       dealer_phone_number (car_listing_id env) None visits)
                | None => propose
                end
              else
                (Some {| message := perfect_message proposed_time;
                         visit_scheduled := true |},
                 create_visit env thread_id proposed_time
                   dealer_phone_number (car_listing_id env) None visits)
          end
        else propose
    end.

(** The names bound at module level in [utils.py]: its imports, its
    constants and its functions.  A name a function uses and does not
    bind itself is looked up here when the function runs. *)
Definition utils_globals : list string :=
  [ "re"; "os"; "json"; "asyncio"; "datetime"; "timedelta"; "List";
    "Optional"; "Dict"; "Any"; "OpenAI"; "requests"; "BeautifulSoup";
    "load_dotenv"; "date_parser"; "gettz"; "async_playwright";
    "PLAYWRIGHT_AVAILABLE"; "openai_client"; "MTA_API_BASE_URL";
    "MTA_API_KEY"; "MTA_PHONE_NUMBER"; "MTA_LONGCODE_ID";
    "MTA_AUTO_REPLY_TEMPLATE_ID"; "detect_and_extract_url";
    "scrape_and_extract_car_data"; "_normalize_carfax_value";
    "build_conversation_transcript"; "extract_car_listing_data";
    "dealer_says_will_get_back"; "message_contains_new_information";
    "get_ai_response"; "send_sms";
    "check_if_message_about_visit_scheduling"; "get_visit_availability";
    "create_visit"; "modify_visit"; "delete_visit";
    "get_scheduling_agent_response"; "process_visit_scheduling";
    "find_next_available_time"; "propose_available_time" ].

Definition bound (name : string) (globals : list string) : bool :=
  existsb (String.eqb name) globals.

(** The dictionary [modify_visit] builds before it calls [update_one]. *)
Definition update_data (now : Z) (scheduled_time : option Z)
    (notes : option string) (new_status : option string)
  : gmap string value :=
  let d0 : gmap string value := {[ "updatedAt" := VDate now ]} in
  let d1 :=
    match scheduled_time with
    | Some t => <["scheduledTime" := VDate (to_bson t)]> d0
    | None => d0
    end in
  let d2 :=
    match notes with
    | Some n => <["notes" := VStr n]> d1
    | None => d1
    end in
  match new_status with
  | Some st => if Text.is_empty st then d2 else <["status" := VStr st]> d2
  | None => d2
  end.

(** [modify_visit] imports [Visit] only; [ObjectId] is a global of the
    module when the call of [update_one] is evaluated.  The result is the
    truth of [modified_count > 0]: whether a document was changed. *)
Definition modify_visit (globals : list string) (now : Z) (visit_id : oid)
    (scheduled_time : option Z) (notes : option string)
    (new_status : option string) (visits : collection)
  : py_result bool * collection :=
  let update := update_data now scheduled_time notes new_status in
  if negb (bound "ObjectId" globals) then (Raised "NameError", visits)
  else
    let visits' := Mongo.update_one (Mongo.by_id visit_id) update visits in
    (Returned (negb (bool_decide (visits' = visits))), visits').

(** ** The inbound-SMS handler ([server.py]) *)

(** [thread.get("unreadCount", 0) + 1]; [None] when the addition raises. *)
Definition next_unread (thread : gmap string value) : option Z :=
  match thread !! "unreadCount" with
  | None => Some 1
  | Some (VInt n) => Some (n + 1)
  | Some (VBool b) => Some (if b then 2 else 1)
  | Some _ => None
  end.

(** [webhook.replyId or (webhook.tags.get("messageId") if webhook.tags
    else None)]. *)
Definition external_message_id (webhook : SMSWebhook.t) : value :=
  match SMSWebhook.replyId webhook with
  | Some r =>
      if negb (Text.is_empty r) then VStr r
      else
        match SMSWebhook.tags webhook with
        | Some tags => default VNull (tags !! "messageId")
        | None => VNull
        end
  | None =>
      match SMSWebhook.tags webhook with
      | Some tags => default VNull (tags !! "messageId")
      | None => VNull
      end
  end.

Definition inbound_message (env : webhook_env) (thread_id : oid)
    (sender_phone recipient_phone message_body : string)
    (webhook : SMSWebhook.t) : gmap string value :=
  {[ "threadId" := VOid thread_id;
     "from" := VStr sender_phone;
     "to" := VStr recipient_phone;
     "body" := VStr message_body;
     "direction" := VStr "inbound";
     "timestamp" := VDate (message_timestamp env);
     "externalMessageId" := external_message_id webhook ]}.

Definition outbound_message (env : webhook_env) (thread_id : oid)
    (sender_phone body : string) : gmap string value :=
  {[ "threadId" := VOid thread_id;
     "from" := VStr MTA_PHONE_NUMBER;
     "to" := VStr sender_phone;
     "body" := VStr body;
     "direction" := VStr "outbound";
     "timestamp" := VDate (clock env) ]}.

(** Lines 192-228: the thread of the sender, updated or created, read
    back by its id; [None] when an exception is raised on the way. *)
Definition find_or_create_thread (env : webhook_env)
    (sender_phone message_body : string) (w : world)
  : option ((oid * gmap string value) * world) :=
  match Mongo.find_one (Mongo.by_field "phoneNumber" (VStr sender_phone))
          (threads w) with
  | None =>
      let thread_data : gmap string value :=
        {[ "phoneNumber" := VStr sender_phone;
           "lastMessage" := VStr message_body;
           "lastMessageTime" := VDate (timestamp env);
           "unreadCount" := VInt 1;
           "conversationComplete" := VBool false;
           "waitingForDealerResponse" := VBool false ]} in
      let w1 :=
        set_threads
          (Mongo.insert_one (new_thread_id env) thread_data (threads w)) w in
      match Mongo.find_by_id (new_thread_id env) (threads w1) with
      | Some thread => Some (thread, w1)
      | None => None
      end
  | Some thread =>
      match next_unread (snd thread) with
      | None => None
      | Some unread =>
          let update : gmap string value :=
            {[ "lastMessage" := VStr message_body;
               "lastMessageTime" := VDate (timestamp env);
               "unreadCount" := VInt unread ]} in
          let w1 :=
            set_threads
              (Mongo.update_one (Mongo.by_id (fst thread)) update
                 (threads w)) w in
          match Mongo.find_by_id (fst thread) (threads w1) with
          | Some thread' => Some (thread', w1)
          | None => None
          end
      end
  end.

(** [send_sms]: whether it returns; the gateway is called only when the
    key is configured. *)
Definition send_sms (cfg : config) (env : webhook_env) (to body : string)
    (w : world) : bool * world :=
  if negb (mta_api_key cfg) then (false, w)
  else (sms_delivers env to body, add_effects [SmsSend to body] w).

Definition model_calls (requests : list llm_request) (w : world) : world :=
  add_effects (map ModelCall requests) w.

(** The [try] blocks that send a message, store it and update the thread
    (lines 293-317); the store and the update are skipped when the send
    raises. *)
Definition send_and_record (cfg : config) (env : webhook_env)
    (thread_id : oid) (sender_phone body : string)
    (thread_update : option (gmap string value)) (w : world) : world :=
  let (sent, w1) := send_sms cfg env sender_phone body w in
  if sent then
    let w2 :=
      set_messages
        (Mongo.insert_one (reply_message_id env)
           (outbound_message env thread_id sender_phone body)
           (messages w1)) w1 in
    match thread_update with
    | Some update =>
        set_threads
          (Mongo.update_one (Mongo.by_id thread_id) update (threads w2)) w2
    | None => w2
    end
  else w1.

(** [process_visit_scheduling] as the handler calls it: one model call
    when the client is configured, and the visits collection updated. *)
Definition call_scheduling (cfg : config) (env : webhook_env)
    (transcript : string) (thread_id : oid)
    (sender_phone message_body : string) (w : world)
  : option sched_result * world :=
  let r := process_visit_scheduling (openai_client cfg) (sched env)
             thread_id sender_phone (visits w) in
  let w1 :=
    if openai_client cfg
    then model_calls [AskProposedTime message_body transcript] w
    else w in
  (fst r, set_visits (snd r) w1).

(** Lines 341-365, the same in both scheduling branches. *)
Definition confirm_visit (cfg : config) (env : webhook_env)
    (thread_id : oid) (sender_phone ai_response : string) (w : world)
  : world :=
  let w1 := send_and_record cfg env thread_id sender_phone ai_response
              None w in
  set_threads
    (Mongo.update_one (Mongo.by_id thread_id)
       {[ "conversationComplete" := VBool true;
          "lastMessage" := VStr ai_response;
          "lastMessageTime" := VDate (clock env) ]}
       (threads w1)) w1.

Definition by_thread (thread_id : oid) : Mongo.query :=
  Mongo.by_field "threadId" (VOid thread_id).

(** Lines 368-389. *)
Definition save_listing (cfg : config) (env : webhook_env)
    (thread_id : oid) (sender_phone transcript : string) (w : world)
  : world :=
  let (extracted, requests) :=
    run (model env)
      (extract_car_listing_data (openai_client cfg) (listing_of_reply env)
         transcript) in
  let w1 := model_calls requests w in
  match extracted with
  | Raised _ => w1
  | Returned extracted_data =>
      match Mongo.find_one (by_thread thread_id) (car_listings w1) with
      | Some _ =>
          set_car_listings
            (Mongo.update_one (by_thread thread_id)
               (<["conversationComplete" := VBool true]> extracted_data)
               (car_listings w1)) w1
      | None =>
          set_car_listings
            (Mongo.insert_one (new_listing_id env)
               (<["extractedAt" := VDate (clock env)]>
                  (<["conversationComplete" := VBool true]>
                     (extracted_data
                      ∪ {[ "threadId" := VOid thread_id;
                           "phoneNumber" := VStr sender_phone ]})))
               (car_listings w1)) w1
      end
  end.

(** Lines 455-466. *)
Definition update_listing (cfg : config) (env : webhook_env)
    (thread_id : oid) (car_listing : gmap string value)
    (transcript : string) (w : world) : world :=
  if truthy (car_listing !! "conversationComplete") then w
  else
    let (extracted, requests) :=
      run (model env)
        (extract_car_listing_data (openai_client cfg)
           (listing_of_reply env) transcript) in
    let w1 := model_calls requests w in
    match extracted with
    | Raised _ => w1
    | Returned extracted_data =>
        set_car_listings
          (Mongo.update_one (by_thread thread_id)
             (<["conversationComplete" := VBool true]> extracted_data)
             (car_listings w1)) w1
    end.

Definition ok (text : string) : response := Response true text.

(** Lines 254-538: what the handler does with a message of a thread that
    is not complete. *)
Definition respond (cfg : config) (env : webhook_env)
    (thread : oid * gmap string value)
    (sender_phone message_body : string) (w : world) : response * world :=
  let thread_id := fst thread in
  let waiting := truthy (snd thread !! "waitingForDealerResponse") in
  let (has_new_info, requests) :=
    if waiting
    then run (model env)
           (message_contains_new_information (openai_client cfg)
              message_body (KnownFields []))
    else (true, []) in
  let w := model_calls requests w in
  if negb has_new_info then
    (ok "Waiting for dealer response, no new information in message", w)
  else
    let w :=
      if waiting
      then set_threads
             (Mongo.update_one (Mongo.by_id thread_id)
                {[ "waitingForDealerResponse" := VBool false ]}
                (threads w)) w
      else w in
    let w :=
      match pending_responses w !! thread_id with
      | Some _ =>
          add_effects [TaskCancelled thread_id]
            (set_pending_responses (delete thread_id (pending_responses w))
               w)
      | None => w
      end in
    match build_conversation_transcript py_str thread_id (messages w) with
    | Raised _ => (ok "Message processed", w)
    | Returned transcript =>
        let (reply, requests) :=
          run (model env)
            (get_ai_response (openai_client cfg) transcript
               (KnownFields []) waiting) in
        let w := model_calls requests w in
        match reply with
        | Raised _ => (ok "Message processed", w)
        | Returned ai_response =>
            if Text.contains "# WAITING #" ai_response then
              let stripped :=
                Text.strip (Text.remove_all "# WAITING #" ai_response) in
              let thank_you_message :=
                if Text.is_empty stripped then "Thank you" else stripped in
              (ok "Entered waiting state, no further responses until dealer provides new info",
               send_and_record cfg env thread_id sender_phone
                 thank_you_message
                 (Some {[ "waitingForDealerResponse" := VBool true;
                          "lastMessage" := VStr thank_you_message;
                          "lastMessageTime" := VDate (clock env) ]}) w)
            else if Text.contains "#SCHEDULE#" ai_response then
              let (scheduling_result, w) :=
                call_scheduling cfg env transcript thread_id sender_phone
                  message_body w in
              match scheduling_result with
              | Some r =>
                  if visit_scheduled r then
                    let w := confirm_visit cfg env thread_id sender_phone
                               (message r) w in
                    (ok "Visit scheduled, conversation complete",
                     save_listing cfg env thread_id sender_phone
                       transcript w)
                  else (ok "Message processed", w)
              | None => (ok "Message processed", w)
              end
            else
              let (about_visit, requests) :=
                run (model env)
                  (check_if_message_about_visit_scheduling
                     (openai_client cfg) message_body) in
              let w := model_calls requests w in
              if about_visit then
                match Mongo.find_one (by_thread thread_id)
                        (car_listings w) with
                | Some car_listing =>
                    if truthy (snd car_listing !! "make")
                       && truthy (snd car_listing !! "model")
                       && truthy (snd car_listing !! "year")
                    then
                      let (scheduling_result, w) :=
                        call_scheduling cfg env transcript thread_id
                          sender_phone message_body w in
                      match scheduling_result with
                      | Some r =>
                          if visit_scheduled r then
                            let w := confirm_visit cfg env thread_id
                                       sender_phone (message r) w in
                            (ok "Visit scheduled, conversation complete",
                             update_listing cfg env thread_id
                               (snd car_listing) transcript w)
                          else (ok "Message processed", w)
                      | None => (ok "Message processed", w)
                      end
                    else (ok "Message processed", w)
                | None => (ok "Message processed", w)
                end
              else
                (ok "Message processed",
                 add_effects [TaskCreated thread_id ai_response]
                   (set_pending_responses
                      (<[thread_id := ai_response]> (pending_responses w))
                      w))
        end
    end.

Definition opt_in_pattern : string :=
  "Thanks for opting in to receive messages from us!".

(** [sms_webhook]; an exception that reaches the outer [except] becomes
    the error response 500. *)
Definition sms_webhook (cfg : config) (env : webhook_env)
    (webhook : SMSWebhook.t) (w : world) : response * world :=
  let sender_phone := SMSWebhook.fromNumber webhook in
  let recipient_phone :=
    match SMSWebhook.toNumber webhook with
    | Some t => if Text.is_empty t then "unknown" else t
    | None => "unknown"
    end in
  let message_body := SMSWebhook.message webhook in
  if Text.is_empty sender_phone || Text.is_empty message_body then
    (HTTPError 500, w)
  else if Re.search (Text.lower opt_in_pattern) (Text.lower message_body)
  then (ok "Opt-in message ignored", w)
  else
    match find_or_create_thread env sender_phone message_body w with
    | None => (HTTPError 500, w)
    | Some (thread, w1) =>
        let w2 :=
          set_messages
            (Mongo.insert_one (new_message_id env)
               (inbound_message env (fst thread) sender_phone
                  recipient_phone message_body webhook)
               (messages w1)) w1 in
        if truthy (snd thread !! "conversationComplete") then
          (ok "Conversation complete, no response sent", w2)
        else respond cfg env thread sender_phone message_body w2
    end.

(** ** Vocabulary of the statements *)

(** A time the engine may book: inside the window as the loops test it,
    and at least an hour from every visit of the context. *)
Definition free_slot (now end_date : Z) (existing_visits : list visit_info)
    (c : Z) : Prop :=
  now <= c <= end_date /\ has_conflict c existing_visits = false.

(** The first day the fallback scans: today when the hour is before 10,
    tomorrow otherwise. *)
Definition first_scan_day (now : Z) : Z :=
  if hour now <? 10 then date now else date now + 1.

(** A slot of the scan: one of the hours, on a day from the first scanned
    day to the day the window ends. *)
Definition scanned_slot (now end_date : Z) (hour_list : list Z) (c : Z)
  : Prop :=
  exists day h,
    first_scan_day now <= day <= date end_date /\ In h hour_list
    /\ c = combine day h.

(** The earliest free slot of the scan. *)
Definition first_free (now end_date : Z) (existing_visits : list visit_info)
    (hour_list : list Z) (c : Z) : Prop :=
  scanned_slot now end_date hour_list c
  /\ free_slot now end_date existing_visits c
  /\ forall c', scanned_slot now end_date hour_list c' ->
                free_slot now end_date existing_visits c' -> c <= c'.

(** The specification's start of the scan: tomorrow, or today at 10:00
    when the hour is before 10. *)
Definition spec_scan_start (now : Z) : Z :=
  if hour now <? 10 then combine (date now) 10
  else combine (date now + 1) 0.

(** The specification's availability context: the visits of the thread
    only. *)
Definition spec_availability_context (thread_id : oid)
    (start_date end_date : Z) (visits : collection) : list visit_info :=
  omap visit_entry
    (Mongo.find
       (fun v => availability_query start_date end_date v
                 && value_is_oid thread_id (snd v !! "threadId"))
       visits).

(** An alternative the search may return: not before the clock reading
    taken for it, not after the window, and free of conflicts. *)
Definition qualifies (env : sched_env) (proposed_time end_date : Z)
    (existing_visits : list visit_info) (offset_minutes : Z) : Prop :=
  now_in_search env offset_minutes <= proposed_time + minutes offset_minutes
    <= end_date
  /\ has_conflict (proposed_time + minutes offset_minutes) existing_visits
     = false.

(** The document [create_visit] inserts for a booking at [t]. *)
Definition booked_visit (env : sched_env) (thread_id : oid) (t : Z)
    (dealer_phone_number : string) : oid * gmap string value :=
  (new_visit_id env,
   visit_data thread_id t dealer_phone_number (car_listing_id env) None
     (created_at env) (updated_at env)).

(** The hours of a scan follow the clock: each is an hour of the day, and
    later entries of the list are later hours. *)
Definition ascending_hours (hour_list : list Z) : Prop :=
  (forall h, In h hour_list -> 0 <= h < 24)
  /\ forall before h after h',
       hour_list = (before ++ h :: after)%list -> In h' after -> h < h'.

(** ** Sample data *)

(** A driver and a formatter to run the engine with: stored times are the
    wall-clock times themselves. *)
Definition same_time (t : Z) : Z := t.
Definition sample_strftime (t : Z) : string := "the agreed time".
Definition sample_str (v : value) : string :=
  match v with VStr s => s | _ => "" end.

Definition sample_visit (thread_id : oid) (t : Z) : gmap string value :=
  {[ "threadId" := VOid thread_id;
     "scheduledTime" := VDate t;
     "dealerPhoneNumber" := VStr "+15550107";
     "status" := VStr "scheduled" ]}.

(** Thread 7 has visits at 10:00, 14:00 and 16:00 on days 100 and 101. *)
Definition busy_visits : collection :=
  [ (1%N, sample_visit 7%N (combine 100 10));
    (2%N, sample_visit 7%N (combine 100 14));
    (3%N, sample_visit 7%N (combine 100 16));
    (4%N, sample_visit 7%N (combine 101 10));
    (5%N, sample_visit 7%N (combine 101 14));
    (6%N, sample_visit 7%N (combine 101 16)) ].

(** A run for thread 8 at 8:00 on day 100. *)
Definition sample_env (outcome : extraction_outcome) : sched_env :=
  {| now_ct := combine 100 8;
     now_in_search := fun _ => combine 100 8 + seconds 2;
     created_at := combine 100 8 + seconds 3;
     updated_at := combine 100 8 + seconds 3;
     extraction := outcome;
     car_listing_id := None;
     new_visit_id := 9%N |}.

Definition complete_thread : oid * gmap string value :=
  (1%N,
   {[ "phoneNumber" := VStr "+15550100";
      "lastMessage" := VStr "See you then";
      "lastMessageTime" := VDate (combine 99 15);
      "unreadCount" := VInt 0;
      "conversationComplete" := VBool true;
      "waitingForDealerResponse" := VBool false ]}).

Definition open_thread : oid * gmap string value :=
  (2%N,
   {[ "phoneNumber" := VStr "+15550101";
      "lastMessage" := VStr "Hello";
      "lastMessageTime" := VDate (combine 99 16);
      "unreadCount" := VInt 0;
      "conversationComplete" := VBool false;
      "waitingForDealerResponse" := VBool false ]}).

Definition sample_world : world :=
  {| threads := [complete_thread; open_thread];
     messages := [];
     car_listings := [];
     visits := busy_visits;
     pending_responses := ∅;
     effects := [] |}.

Definition sample_webhook (sender body : string) : SMSWebhook.t :=
  {| SMSWebhook.fromNumber := sender;
     SMSWebhook.toNumber := Some MTA_PHONE_NUMBER;
     SMSWebhook.message := body;
     SMSWebhook.replyId := None;
     SMSWebhook.timestamp := None;
     SMSWebhook.tags := None |}.

(** A model that always answers with the same question. *)
Definition sample_webhook_env : webhook_env :=
  {| model := fun _ => LlmContent "How many miles are on it?";
     sms_delivers := fun _ _ => true;
     timestamp := combine 100 8;
     message_timestamp := combine 100 8;
     clock := combine 100 8 + seconds 1;
     new_thread_id := 20%N;
     new_message_id := 21%N;
     reply_message_id := 22%N;
     new_listing_id := 23%N;
     listing_of_reply := fun _ => None;
     sched := sample_env ExtractionRaised |}.

Definition sample_config : config :=
  {| openai_client := true; mta_api_key := true |}.

(** The driver as [app.py] takes it to be ("Naive datetime - assume UTC and
    convert to CT"): a time is stored as its UTC instant, five hours ahead
    of Central Daylight Time, and comes back without a zone; the engine
    then labels what comes back Central Time ([replace(tzinfo=ct_tz)]). *)
Definition utc_to_bson (t : Z) : Z := t + hours 5.
Definition utc_from_bson (t : Z) : Z := t.

(** A second run, five minutes after the run of [sample_env]. *)
Definition later_env (outcome : extraction_outcome) : sched_env :=
  {| now_ct := combine 100 8 + minutes 5;
     now_in_search := fun _ => combine 100 8 + minutes 5 + seconds 2;
     created_at := combine 100 8 + minutes 5 + seconds 3;
     updated_at := combine 100 8 + minutes 5 + seconds 3;
     extraction := outcome;
     car_listing_id := None;
     new_visit_id := 10%N |}.

(** ** The gateway with its retries ([utils.py], [send_sms]) *)

(** What one [requests.post] with [raise_for_status] comes to. *)
Inductive post_outcome : Type :=
| PostOk (json : string)
| PostNetworkError   (* ConnectionError or Timeout *)
| PostRequestError   (* another RequestException, an HTTP status among them *)
| PostOtherError.    (* an exception that is no RequestException *)

Inductive sms_event : Type :=
| Posted (attempt : Z)
| Slept (milliseconds : Z).

(** [min(1000 * (2 ** (attempt - 1)), 5000)]. *)
Definition backoff_delay (attempt : Z) : Z :=
  Z.min (1000 * 2 ^ (attempt - 1)) 5000.

(** [for attempt in range(1, retries + 1)], by recursion on the number of
    attempts left; the loop that ends without a return gives [None]. *)
Fixpoint send_loop (post : Z -> post_outcome) (retries : Z)
    (attempts_left : nat) (attempt : Z)
  : py_result (option string) * list sms_event :=
  match attempts_left with
  | O => (Returned None, [])
  | S n =>
      match post attempt with
      | PostOk json => (Returned (Some json), [Posted attempt])
      | PostNetworkError =>
          if attempt <? retries then
            let r := send_loop post retries n (attempt + 1) in
            (fst r, Posted attempt :: Slept (backoff_delay attempt) :: snd r)
          else (Raised "RequestException", [Posted attempt])
      | PostRequestError => (Raised "RequestException", [Posted attempt])
      | PostOtherError => (Raised "Exception", [Posted attempt])
      end
  end.

(** [send_sms(to, message, retries)]: [key] is whether [MTA_API_KEY] is
    set, [post] what the request of each attempt comes to. *)
Definition send_sms_attempts (key : bool) (post : Z -> post_outcome)
    (retries : Z) : py_result (option string) * list sms_event :=
  if negb key then (Raised "ValueError", [])
  else send_loop post retries (Z.to_nat retries) 1.

Definition posted (events : list sms_event) : list Z :=
  omap (fun e => match e with Posted a => Some a | Slept _ => None end) events.

Definition slept (events : list sms_event) : list Z :=
  omap (fun e => match e with Slept ms => Some ms | Posted _ => None end)
    events.

(** ** Detection of a promise to get back ([utils.py]) *)

Definition get_back_patterns : list string :=
  [ "will get back";
    "get back to you";
    "will update you";
    "update you as soon";
    "will reach out";
    "reach out as soon";
    "will be in touch";
    "be in touch as soon";
    "working to get";
    "gathering.*information";
    "collecting.*information";
    "looking into";
    "will provide";
    "provide.*as soon" ].

Definition dealer_says_will_get_back (message : string) : bool :=
  let message_lower := Text.lower message in
  existsb (fun pattern => Re.search pattern message_lower) get_back_patterns.

(** ** Normalisation of the carfax value ([utils.py]) *)

Definition _normalize_carfax_value (v : value) : option string :=
  match v with
  | VNull => None
  | VBool b => Some (if b then "yes" else "no")
  | VStr s =>
      let lower := Text.lower s in
      if existsb (String.eqb lower) ["yes"; "no"; "unsure"; "check_carfax"]
      then Some lower else None
  | _ => None
  end.

(** ** Display of a phone number ([app.py]) *)

(** [re.sub(r'\D', '', phone)]. *)
Fixpoint digits_of (s : string) : string :=
  match s with
  | EmptyString => EmptyString
  | String c rest =>
      if Re.is_digit c then String c (digits_of rest) else digits_of rest
  end.

(** [s[i:j]]. *)
Definition slice (i j : nat) (s : string) : string :=
  String.substring i (j - i) s.

(** [s[i:]]. *)
Definition slice_from (i : nat) (s : string) : string :=
  String.substring i (String.length s - i) s.

Definition format_phone_number (phone : string) : string :=
  let cleaned := digits_of phone in
  if Nat.eqb (String.length cleaned) 11
     && match cleaned with String c _ => Ascii.eqb c "1" | _ => false end
  then "+1 (" +:+ slice 1 4 cleaned +:+ ") " +:+ slice 4 7 cleaned +:+ "-"
       +:+ slice_from 7 cleaned
  else if Nat.eqb (String.length cleaned) 10
  then "(" +:+ slice 0 3 cleaned +:+ ") " +:+ slice 3 6 cleaned +:+ "-"
       +:+ slice_from 6 cleaned
  else phone.

(** ** The next weekend ([helper_scripts/create_sample_visits.py]) *)

(** [d.weekday()], Monday being 0; [weekday_of_day_0] is the weekday of the
    day the wall clock counts from. *)
Definition weekday (weekday_of_day_0 : Z) (d : Z) : Z :=
  (date d + weekday_of_day_0) mod 7.

Definition get_next_saturday_sunday (weekday_of_day_0 : Z) (today : Z)
  : Z * Z :=
  let days_until_saturday := (5 - weekday weekday_of_day_0 today) mod 7 in
  let days_until_saturday :=
    if days_until_saturday =? 0 then 7 else days_until_saturday in
  let saturday := today + days days_until_saturday in
  let sunday := saturday + days 1 in
  (saturday, sunday).

(** ** Removal of a thread with its data
      ([helper_scripts/delete_thread_data.py]) *)

(** [collection.delete_many(query)]. *)
Definition delete_many (q : Mongo.query) (c : collection) : collection :=
  List.filter (fun d => negb (q d)) c.

(** [collection.delete_one(query)]: the first match goes. *)
Fixpoint delete_one (q : Mongo.query) (c : collection) : collection :=
  match c with
  | [] => []
  | d :: rest => if q d then rest else d :: delete_one q rest
  end.

(** [delete_thread_data(phone_number)].  The line that prints
    [thread.get('lastMessage', 'N/A')[:50]] raises when the field holds
    something that is no string. *)
Definition delete_thread_data (phone_number : string) (w : world)
  : py_result bool * world :=
  match Mongo.find_one (Mongo.by_field "phoneNumber" (VStr phone_number))
          (threads w) with
  | None => (Returned false, w)
  | Some thread =>
      let thread_id := fst thread in
      match snd thread !! "lastMessage" with
      | Some (VStr _) | None =>
          let message_count :=
            length (Mongo.find (by_thread thread_id) (messages w)) in
          let w1 :=
            if Nat.ltb 0 message_count
            then set_messages (delete_many (by_thread thread_id) (messages w))
                   w
            else w in
          let w2 :=
            match Mongo.find_one (by_thread thread_id) (car_listings w1) with
            | Some car_listing =>
                set_car_listings
                  (delete_one (Mongo.by_id (fst car_listing))
                     (car_listings w1)) w1
            | None => w1
            end in
          let visit_count :=
            length (Mongo.find (by_thread thread_id) (visits w2)) in
          let w3 :=
            if Nat.ltb 0 visit_count
            then set_visits (delete_many (by_thread thread_id) (visits w2)) w2
            else w2 in
          let w4 :=
            set_threads (delete_one (Mongo.by_id thread_id) (threads w3)) w3 in
          (Returned (existsb (Mongo.by_id thread_id) (threads w3)), w4)
      | Some _ => (Raised "TypeError", w)
      end
  end.

(** ** The delayed reply ([server.py], [send_delayed_response])

    The body of the task after its sleep. *)
Definition send_delayed_response (cfg : config) (env : webhook_env)
    (thread_id : oid) (sender_phone ai_response : string) (w : world)
  : world :=
  match pending_responses w !! thread_id with
  | None => w
  | Some _ =>
      let (sent, w1) := send_sms cfg env sender_phone ai_response w in
      if sent then
        let w2 :=
          set_messages
            (Mongo.insert_one (reply_message_id env)
               (outbound_message env thread_id sender_phone ai_response)
               (messages w1)) w1 in
        let w3 :=
          set_threads
            (Mongo.update_one (Mongo.by_id thread_id)
               {[ "lastMessage" := VStr ai_response;
                  "lastMessageTime" := VDate (clock env) ]}
               (threads w2)) w2 in
        set_pending_responses (delete thread_id (pending_responses w3)) w3
      else
        set_pending_responses (delete thread_id (pending_responses w1)) w1
  end.

(** ** Serialisation of a document ([server.py]) *)

(** The Python values a document is made of. *)
#[local] Unset Elimination Schemes.
Inductive pyval : Type :=
| PNone
| PBool (b : bool)
| PNum (n : Z)
| PStr (s : string)
| PDate (t : Z)
| POid (o : oid)
| PDict (items : list (string * pyval))
| PList (elements : list pyval).
#[local] Set Elimination Schemes.

(** [serialize_document(doc)]; [str_of_oid] is [str] on an ObjectId and
    [isoformat] is [datetime.isoformat]. *)
Fixpoint serialize_document (str_of_oid : oid -> string)
    (isoformat : Z -> string) (doc : pyval) : pyval :=
  match doc with
  | PDict items =>
      PDict
        (map (fun item : string * pyval =>
                match item with
                | (key, v) =>
                    (key,
                     match v with
                     | POid o => PStr (str_of_oid o)
                     | PDate t => PStr (isoformat t)
                     | PDict _ => serialize_document str_of_oid isoformat v
                     | PList elements =>
                         PList (map (serialize_document str_of_oid isoformat)
                                  elements)
                     | _ => v
                     end)
                end)
           items)
  | _ => doc
  end.

(** What [serialize_document] puts in the place of the value of a field. *)
Definition serialize_field (str_of_oid : oid -> string)
    (isoformat : Z -> string) (v : pyval) : pyval :=
  match v with
  | POid o => PStr (str_of_oid o)
  | PDate t => PStr (isoformat t)
  | PDict _ => serialize_document str_of_oid isoformat v
  | PList elements =>
      PList (map (serialize_document str_of_oid isoformat) elements)
  | _ => v
  end.

(** No dictionary in [v] has an ObjectId or a datetime as the value of a
    field; the dictionaries are those reached through fields and through the
    elements of lists that are fields. *)
Fixpoint fields_serialized (v : pyval) : bool :=
  match v with
  | PDict items =>
      forallb (fun item : string * pyval =>
                 match item with
                 | (_, POid _) | (_, PDate _) => false
                 | (_, PDict _ as d) => fields_serialized d
                 | (_, PList elements) =>
                     forallb (fun e => match e with
                                       | PDict _ => fields_serialized e
                                       | _ => true
                                       end) elements
                 | _ => true
                 end) items
  | _ => true
  end.

(** The effects that reach the dealer, now or later. *)
Definition outgoing (es : list effect) : nat :=
  length (List.filter (fun e => match e with
                                | SmsSend _ _ | TaskCreated _ _ => true
                                | _ => false
                                end) es).

(** From [w] to [w'] the messages, the visits, the effects and the ids of
    the threads are only added to, by at most [m] messages, [v] visits and
    [o] outgoing effects. *)
Definition grows (w w' : world) (m v o : nat) : Prop :=
  (exists ms, messages w' = (messages w ++ ms)%list /\ (length ms <= m)%nat)
  /\ (exists vs, visits w' = (visits w ++ vs)%list /\ (length vs <= v)%nat)
  /\ (exists es, effects w' = (effects w ++ es)%list
                 /\ (outgoing es <= o)%nat)
  /\ exists ts, map fst (threads w') = (map fst (threads w) ++ ts)%list.

(** No thread has a true [key] in [w'] that it did not have in [w]. *)
Definition flag_not_raised (key : string) (w w' : world) : Prop :=
  forall id doc',
    In (id, doc') (threads w') -> truthy (doc' !! key) = true ->
    exists doc, In (id, doc) (threads w) /\ truthy (doc !! key) = true.

(** The fields of a thread that the answer to a message writes, and those
    that the handler writes once the thread is there. *)
Definition respond_fields : list string :=
  [ "lastMessage"; "lastMessageTime"; "waitingForDealerResponse";
    "conversationComplete" ].

Definition handler_fields : list string := "unreadCount" :: respond_fields.

(** Every thread of [w] is a thread of [w'], and its fields other than
    [changed] are as they were. *)
Definition thread_fields_kept (changed : list string) (w w' : world)
  : Prop :=
  forall id doc,
    In (id, doc) (threads w) ->
    exists doc',
      In (id, doc') (threads w')
      /\ forall key, ~ In key changed -> doc' !! key = doc !! key.

(** A stretch of the handler: what it may add, whether it may mark a
    conversation complete, and the fields of the threads it leaves. *)
Definition advances (changed : list string) (m v o : nat) (raise : bool)
    (w w' : world) : Prop :=
  grows w w' m v o
  /\ (raise = false -> flag_not_raised "conversationComplete" w w')
  /\ thread_fields_kept changed w w'.

(** [delete_visit] imports [Visit] only, as [modify_visit] does; the
    result is the truth of [deleted_count > 0]. *)
Definition delete_visit (globals : list string) (visit_id : oid)
    (visits : collection) : py_result bool * collection :=
  if negb (bound "ObjectId" globals) then (Raised "NameError", visits)
  else
    (Returned (existsb (Mongo.by_id visit_id) visits),
     delete_one (Mongo.by_id visit_id) visits).

(** A thread that waits for the dealer, with two messages and a visit of
    its own, beside the threads of the sample. *)
Definition waiting_thread : oid * gmap string value :=
  (3%N,
   {[ "phoneNumber" := VStr "+15550102";
      "lastMessage" := VStr "Thank you";
      "lastMessageTime" := VDate (combine 99 17);
      "unreadCount" := VInt 0;
      "conversationComplete" := VBool false;
      "waitingForDealerResponse" := VBool true ]}).

Definition sample_message (thread_id : oid) (direction body : string)
    (t : Z) : gmap string value :=
  {[ "threadId" := VOid thread_id;
     "body" := VStr body;
     "direction" := VStr direction;
     "timestamp" := VDate t ]}.

Definition waiting_world : world :=
  {| threads := [complete_thread; open_thread; waiting_thread];
     messages :=
       [ (30%N, sample_message 3%N "inbound" "Is it still for sale?"
                  (combine 99 16));
         (31%N, sample_message 2%N "inbound" "Hello" (combine 99 16));
         (32%N, sample_message 3%N "outbound" "Thank you" (combine 99 17)) ];
     car_listings := [];
     visits := ((40%N, sample_visit 3%N (combine 102 10)) :: busy_visits);
     pending_responses := ∅;
     effects := [] |}.

(** The messages of [l] follow the clock: none has a timestamp after that
    of a later one. *)
Fixpoint in_time_order (l : collection) : Prop :=
  match l with
  | [] => True
  | msg :: rest =>
      (forall later, In later rest ->
                     timestamp_key msg <= timestamp_key later)
      /\ in_time_order rest
  end.

(** Vocabulary for the patterns: a pattern without a dot, and its
    characters as atoms. *)

Definition plain (p : string) : Prop :=
  ~ In "."%char (String.list_ascii_of_string p).

Fixpoint chars (p : string) : list Re.atom :=
  match p with
  | EmptyString => []
  | String c rest => Re.Chr c :: chars rest
  end.

(** ** The conflict test *)

Lemma conflicts_spec (t1 t2 : Z) :
  conflicts t1 t2 = true <-> Z.abs (t1 - t2) < seconds 3600.
Proof. unfold conflicts, time_diff. apply Z.ltb_lt. Qed.

Lemma conflicts_false (t1 t2 : Z) :
  conflicts t1 t2 = false <-> seconds 3600 <= Z.abs (t1 - t2).
Proof. unfold conflicts, time_diff. apply Z.ltb_ge. Qed.

Lemma has_conflict_true (t : Z) (existing_visits : list visit_info) :
  has_conflict t existing_visits = true
  <-> exists v, In v existing_visits /\ conflicts t (visit_time v) = true.
Proof.
  induction existing_visits as [|visit rest IH]; simpl.
  - split; [discriminate | intros (v & [] & _)].
  - destruct (conflicts t (visit_time visit)) eqn:Hc.
    + split; [intros _; exists visit; auto | reflexivity].
    + rewrite IH. split.
      * intros (v & Hin & Hv). exists v. auto.
      * intros (v & [<- | Hin] & Hv); [congruence | exists v; auto].
Qed.

Lemma has_conflict_false (t : Z) (existing_visits : list visit_info) :
  has_conflict t existing_visits = false
  <-> forall v, In v existing_visits ->
                seconds 3600 <= Z.abs (t - visit_time v).
Proof.
  split.
  - intros Hno v Hin. apply conflicts_false.
    destruct (conflicts t (visit_time v)) eqn:Hc; [|reflexivity].
    assert (has_conflict t existing_visits = true) as Hyes
      by (apply has_conflict_true; exists v; auto).
    congruence.
  - intros Hall. destruct (has_conflict t existing_visits) eqn:Hc;
      [|reflexivity].
    apply has_conflict_true in Hc as (v & Hin & Hv).
    apply conflicts_spec in Hv. specialize (Hall v Hin). lia.
Qed.

(** C1: the test of the three paths holds exactly when the two times are
    less than 3600 seconds apart; it is symmetric, and two times exactly
    3600 seconds apart do not conflict. *)
Theorem conflict_iff_less_than_an_hour :
  (forall t1 t2 : Z,
      conflicts t1 t2 = true <-> Z.abs (t1 - t2) < 3600 * 1000000)
  /\ (forall t1 t2 : Z, conflicts t1 t2 = conflicts t2 t1)
  /\ (forall t : Z,
         conflicts t (t + 3600 * 1000000) = false
         /\ conflicts (t + 3600 * 1000000) t = false)
  /\ (forall (t : Z) (existing_visits : list visit_info),
         has_conflict t existing_visits = true
         <-> exists v, In v existing_visits
                       /\ Z.abs (t - visit_time v) < 3600 * 1000000).
Proof.
  split; [|split; [|split]].
  - intros t1 t2. apply conflicts_spec.
  - intros t1 t2. unfold conflicts, time_diff.
    replace (t2 - t1) with (- (t1 - t2)) by lia. now rewrite Z.abs_opp.
  - intros t. split; apply conflicts_false; unfold seconds; lia.
  - intros t existing_visits. rewrite has_conflict_true.
    split; intros (v & Hin & Hv); exists v; split; auto;
      now apply conflicts_spec.
Qed.

(** ** Days and hours *)

Lemma combine_eq (day h : Z) :
  combine day h = day * 86400000000 + h * 3600000000.
Proof. unfold combine, days, hours, minutes, seconds. lia. Qed.

Lemma date_combine (day h : Z) : 0 <= h < 24 -> date (combine day h) = day.
Proof.
  intros Hh. unfold date. rewrite combine_eq.
  change (days 1) with 86400000000.
  symmetry. apply Z.div_unique with (r := h * 3600000000); lia.
Qed.

Lemma date_start_date (now : Z) : date (start_date now) = first_scan_day now.
Proof.
  unfold start_date, first_scan_day, replace_hour.
  destruct (hour now <? 10).
  - apply date_combine. lia.
  - unfold date. change (days 1) with 86400000000.
    replace (now + 86400000000) with (now + 1 * 86400000000) by lia.
    rewrite Z.div_add by lia. reflexivity.
Qed.

Lemma combine_le (d1 h1 d2 h2 : Z) :
  0 <= h1 < 24 -> 0 <= h2 < 24 -> d1 < d2 -> combine d1 h1 <= combine d2 h2.
Proof. intros. rewrite !combine_eq. lia. Qed.

(** ** The scan of the proposal fallback *)

Lemma try_slot_Some (now end_date : Z) (vs : list visit_info)
    (day h c : Z) :
  try_slot now end_date vs day h = Some c
  <-> c = combine day h /\ free_slot now end_date vs c.
Proof.
  unfold try_slot, free_slot.
  destruct (combine day h <? now) eqn:H1;
    destruct (combine day h >? end_date) eqn:H2; simpl;
    destruct (has_conflict (combine day h) vs) eqn:H3;
    try apply Z.ltb_lt in H1; try apply Z.ltb_ge in H1;
    try (apply Z.gtb_lt in H2); try (rewrite Z.gtb_ltb in H2;
                                      apply Z.ltb_ge in H2);
    split; try discriminate;
    try (intros [-> [Hw Hc]]; try lia; congruence).
  intros [= <-]. repeat split; auto; lia.
Qed.

Lemma try_slot_None (now end_date : Z) (vs : list visit_info) (day h : Z) :
  try_slot now end_date vs day h = None
  <-> ~ free_slot now end_date vs (combine day h).
Proof.
  destruct (try_slot now end_date vs day h) as [c|] eqn:Ht.
  - apply try_slot_Some in Ht as [-> Hfree].
    split; [discriminate | tauto].
  - split; [|reflexivity]. intros _ Hfree.
    assert (try_slot now end_date vs day h = Some (combine day h)) as Hs
      by (apply try_slot_Some; auto).
    congruence.
Qed.

Lemma scan_hours_Some (now end_date : Z) (vs : list visit_info)
    (day : Z) (hour_list : list Z) (c : Z) :
  scan_hours now end_date vs day hour_list = Some c ->
  exists before h after,
    hour_list = (before ++ h :: after)%list
    /\ try_slot now end_date vs day h = Some c
    /\ forall h', In h' before -> try_slot now end_date vs day h' = None.
Proof.
  induction hour_list as [|h0 rest IH]; simpl; [discriminate|].
  destruct (try_slot now end_date vs day h0) as [c0|] eqn:Ht.
  - intros [= <-]. exists [], h0, rest. repeat split; auto.
    intros h' [].
  - intros Hs. destruct (IH Hs) as (before & h & after & -> & Hh & Hb).
    exists (h0 :: before), h, after. repeat split; auto.
    intros h' [<- | Hin]; auto.
Qed.

Lemma scan_hours_None (now end_date : Z) (vs : list visit_info)
    (day : Z) (hour_list : list Z) :
  scan_hours now end_date vs day hour_list = None
  <-> forall h, In h hour_list -> try_slot now end_date vs day h = None.
Proof.
  induction hour_list as [|h0 rest IH]; simpl.
  - split; [intros _ h [] | reflexivity].
  - destruct (try_slot now end_date vs day h0) as [c0|] eqn:Ht.
    + split; [discriminate|]. intros Hall.
      specialize (Hall h0 (or_introl eq_refl)). congruence.
    + rewrite IH. split.
      * intros Hall h [<- | Hin]; auto.
      * intros Hall h Hin. apply Hall. now right.
Qed.

Lemma scan_days_Some (now end_date : Z) (vs : list visit_info)
    (hour_list : list Z) (n : nat) (day c : Z) :
  scan_days now end_date vs hour_list n day = Some c ->
  exists k,
    0 <= k < Z.of_nat n
    /\ scan_hours now end_date vs (day + k) hour_list = Some c
    /\ forall j, 0 <= j < k ->
                 scan_hours now end_date vs (day + j) hour_list = None.
Proof.
  revert day. induction n as [|n IH]; intros day; simpl; [discriminate|].
  destruct (scan_hours now end_date vs day hour_list) as [c0|] eqn:Hh.
  - intros [= <-]. exists 0. rewrite Z.add_0_r.
    repeat split; auto; lia.
  - intros Hs. destruct (IH _ Hs) as (k & Hk & Hfound & Hnone).
    exists (k + 1). repeat split; try lia.
    + now replace (day + (k + 1)) with (day + 1 + k) by lia.
    + intros j Hj. destruct (Z.eq_dec j 0) as [-> | Hne].
      * now rewrite Z.add_0_r.
      * replace (day + j) with (day + 1 + (j - 1)) by lia.
        apply Hnone. lia.
Qed.

Lemma scan_days_None (now end_date : Z) (vs : list visit_info)
    (hour_list : list Z) (n : nat) (day : Z) :
  scan_days now end_date vs hour_list n day = None
  <-> forall k, 0 <= k < Z.of_nat n ->
                scan_hours now end_date vs (day + k) hour_list = None.
Proof.
  revert day. induction n as [|n IH]; intros day; simpl.
  - split; [intros _ k Hk; lia | reflexivity].
  - destruct (scan_hours now end_date vs day hour_list) as [c0|] eqn:Hh.
    + split; [discriminate|]. intros Hall.
      specialize (Hall 0). rewrite Z.add_0_r in Hall.
      rewrite Hall in Hh by lia. discriminate.
    + rewrite IH. split.
      * intros Hall k Hk. destruct (Z.eq_dec k 0) as [-> | Hne].
        -- now rewrite Z.add_0_r.
        -- replace (day + k) with (day + 1 + (k - 1)) by lia.
           apply Hall. lia.
      * intros Hall k Hk.
        replace (day + 1 + k) with (day + (k + 1)) by lia.
        apply Hall. lia.
Qed.

Lemma scan_None (now end_date : Z) (vs : list visit_info)
    (hour_list : list Z) :
  scan now end_date vs hour_list = None
  <-> forall c, scanned_slot now end_date hour_list c ->
                ~ free_slot now end_date vs c.
Proof.
  unfold scan. rewrite date_start_date, scan_days_None. split.
  - intros Hall c (day & h & Hday & Hin & ->).
    apply try_slot_None.
    specialize (Hall (day - first_scan_day now)).
    replace (first_scan_day now + (day - first_scan_day now)) with day
      in Hall by lia.
    eapply scan_hours_None; [apply Hall; lia | exact Hin].
  - intros Hall k Hk. apply scan_hours_None. intros h Hin.
    apply try_slot_None. apply Hall.
    exists (first_scan_day now + k), h. repeat split; auto; lia.
Qed.

Lemma scan_Some (now end_date : Z) (vs : list visit_info)
    (hour_list : list Z) (c : Z) :
  ascending_hours hour_list ->
  scan now end_date vs hour_list = Some c ->
  first_free now end_date vs hour_list c.
Proof.
  intros [Hrange Hasc]. unfold scan. rewrite date_start_date.
  intros Hs. apply scan_days_Some in Hs as (k & Hk & Hfound & Hnone).
  apply scan_hours_Some in Hfound
    as (before & h & after & Hlist & Hh & Hbefore).
  apply try_slot_Some in Hh as [-> Hfree].
  assert (In h hour_list) as Hin by (rewrite Hlist; apply in_elt).
  repeat split; try apply Hfree.
  - exists (first_scan_day now + k), h. repeat split; auto; lia.
  - intros c' (day' & h' & Hday' & Hin' & ->) Hfree'.
    destruct (Z.lt_trichotomy day' (first_scan_day now + k))
      as [Hlt | [-> | Hgt]].
    + exfalso. specialize (Hnone (day' - first_scan_day now)).
      replace (first_scan_day now + (day' - first_scan_day now)) with day'
        in Hnone by lia.
      assert (try_slot now end_date vs day' h' = None) as Hn
        by (eapply scan_hours_None; [apply Hnone; lia | exact Hin']).
      apply try_slot_None in Hn. tauto.
    + rewrite Hlist in Hin'. apply in_app_or in Hin' as [Hb | [-> | Ha]].
      * exfalso. apply Hbefore in Hb. apply try_slot_None in Hb. tauto.
      * lia.
      * specialize (Hasc before h after h' Hlist Ha).
        rewrite !combine_eq. lia.
    + apply combine_le; auto.
Qed.

Lemma preferred_hours_ascending : ascending_hours preferred_hours.
Proof.
  split.
  - intros h Hin. simpl in Hin. lia.
  - intros before h after h' Hlist Hin.
    unfold preferred_hours in Hlist.
    do 4 (destruct before as [|? before];
          [simpl in Hlist; inversion Hlist; subst; simpl in Hin; lia|]).
    simpl in Hlist. inversion Hlist.
Qed.

Lemma any_hours_ascending : ascending_hours any_hours.
Proof.
  split.
  - intros h Hin. vm_compute in Hin. lia.
  - intros before h after h' Hlist Hin.
    change any_hours with [9; 10; 11; 12; 13; 14; 15; 16; 17] in Hlist.
    do 10 (destruct before as [|? before];
           [simpl in Hlist; inversion Hlist; subst; simpl in Hin; lia|]).
    simpl in Hlist. inversion Hlist.
Qed.

(** What the fallback leaves behind: nothing new, or one visit at a free
    slot of the scan. *)
Lemma propose_available_time_books (env : sched_env) (now end_date : Z)
    (vs : list visit_info) (thread_id : oid) (dealer : string)
    (car_listing : option oid) (visits : collection) :
  let out := propose_available_time env now end_date vs thread_id dealer
               car_listing visits in
  (visit_scheduled (fst out) = false /\ snd out = visits)
  \/ exists c,
      free_slot now end_date vs c
      /\ visit_scheduled (fst out) = true
      /\ snd out = create_visit env thread_id c dealer car_listing None
                     visits.
Proof.
  unfold propose_available_time.
  destruct (scan now end_date vs preferred_hours) as [c|] eqn:Hp;
    [|destruct (scan now end_date vs any_hours) as [c|] eqn:Ha]; simpl.
  - right. exists c. split; [|auto].
    apply (scan_Some _ _ _ _ _ preferred_hours_ascending Hp).
  - right. exists c. split; [|auto].
    apply (scan_Some _ _ _ _ _ any_hours_ascending Ha).
  - left. auto.
Qed.

(** C3, as amended: the fallback books the earliest free slot of the
    preferred hours 10, 14 and 16 over the scanned days (from tomorrow,
    or from today when the hour is before 10, to the day the window
    ends); when none of those is free, the earliest free slot of the
    hours 9 to 17 over the same days; and only when none of these is free
    either it answers with the request for a time, books nothing and
    leaves the visits as they are. *)
Theorem fallback_books_earliest_free_slot (env : sched_env)
    (now end_date : Z) (existing_visits : list visit_info)
    (thread_id : oid) (dealer_phone_number : string)
    (car_listing : option oid) (visits : collection) :
  let out := propose_available_time env now end_date existing_visits
               thread_id dealer_phone_number car_listing visits in
  (exists c,
      first_free now end_date existing_visits preferred_hours c
      /\ out = ({| message := come_by_message c; visit_scheduled := true |},
                create_visit env thread_id c dealer_phone_number
                  car_listing None visits))
  \/ ((forall c, scanned_slot now end_date preferred_hours c ->
                 ~ free_slot now end_date existing_visits c)
      /\ exists c,
          first_free now end_date existing_visits any_hours c
          /\ out = ({| message := how_about_message c;
                       visit_scheduled := true |},
                    create_visit env thread_id c dealer_phone_number
                      car_listing None visits))
  \/ ((forall c, scanned_slot now end_date any_hours c ->
                 ~ free_slot now end_date existing_visits c)
      /\ out = ({| message := booked_up_message; visit_scheduled := false |},
                visits)).
Proof.
  unfold propose_available_time.
  destruct (scan now end_date existing_visits preferred_hours) as [c|] eqn:Hp.
  - left. exists c. split; [|reflexivity].
    apply scan_Some; [apply preferred_hours_ascending | exact Hp].
  - right. pose proof (proj1 (scan_None _ _ _ _) Hp) as Hnone.
    destruct (scan now end_date existing_visits any_hours) as [c|] eqn:Ha.
    + left. split; [exact Hnone|]. exists c. split; [|reflexivity].
      apply scan_Some; [apply any_hours_ascending | exact Ha].
    + right. split; [exact (proj1 (scan_None _ _ _ _) Ha) | reflexivity].
Qed.

(** ** The search for an alternative *)

Lemma insert_by_key_In (key : Z -> Z) (x y : Z) (l : list Z) :
  In y (insert_by_key key x l) <-> y = x \/ In y l.
Proof.
  induction l as [|z rest IH]; simpl.
  - intuition.
  - destruct (key x <=? key z); simpl; [intuition|].
    rewrite IH. intuition.
Qed.

Lemma sort_by_key_In (key : Z -> Z) (y : Z) (l : list Z) :
  In y (sort_by_key key l) <-> In y l.
Proof.
  induction l as [|x rest IH]; simpl; [reflexivity|].
  rewrite insert_by_key_In, IH. intuition.
Qed.

Lemma sort_by_key_head (key : Z -> Z) (l : list Z) (t : Z) (tail : list Z) :
  sort_by_key key l = t :: tail ->
  In t l /\ forall y, In y l -> key t <= key y.
Proof.
  revert t tail. induction l as [|x rest IH]; intros t tail; simpl;
    [discriminate|].
  destruct (sort_by_key key rest) as [|t' tail'] eqn:Hs; simpl.
  - intros [= <- <-]. split; [auto|].
    intros y [<- | Hin]; [lia|].
    apply (sort_by_key_In key) in Hin. rewrite Hs in Hin. destruct Hin.
  - destruct (IH t' tail' eq_refl) as [Hin' Hmin].
    destruct (key x <=? key t') eqn:Hle.
    + apply Z.leb_le in Hle. intros [= <- <-]. split; [auto|].
      intros y [<- | Hin]; [lia|]. specialize (Hmin y Hin). lia.
    + apply Z.leb_gt in Hle. intros [= <- <-]. split; [auto|].
      intros y [<- | Hin]; [lia | auto].
Qed.

Lemma alternative_slot_Some (env : sched_env) (p end_date : Z)
    (vs : list visit_info) (off c : Z) :
  alternative_slot env p vs end_date off = Some c
  <-> c = p + minutes off /\ qualifies env p end_date vs off.
Proof.
  unfold alternative_slot, qualifies.
  destruct (p + minutes off <? now_in_search env off) eqn:H1;
    destruct (p + minutes off >? end_date) eqn:H2; simpl;
    destruct (has_conflict (p + minutes off) vs) eqn:H3;
    try apply Z.ltb_lt in H1; try apply Z.ltb_ge in H1;
    try (apply Z.gtb_lt in H2); try (rewrite Z.gtb_ltb in H2;
                                      apply Z.ltb_ge in H2);
    split; try discriminate;
    try (intros [-> [Hw Hc]]; try lia; congruence).
  intros [= <-]. repeat split; auto; lia.
Qed.

Lemma In_omap {A B : Type} (f : A -> option B) (l : list A) (y : B) :
  In y (omap f l) <-> exists x, In x l /\ f x = Some y.
Proof.
  rewrite <- list_elem_of_In, list_elem_of_omap.
  split; intros (x & Hin & Hx); exists x; split; auto;
    now apply list_elem_of_In.
Qed.

Lemma find_next_available_time_Some (env : sched_env) (p end_date : Z)
    (vs : list visit_info) (t : Z) :
  find_next_available_time env p vs end_date = Some t ->
  exists off,
    In off offsets /\ t = p + minutes off
    /\ qualifies env p end_date vs off
    /\ forall off', In off' offsets -> qualifies env p end_date vs off' ->
                    time_diff t p <= time_diff (p + minutes off') p.
Proof.
  unfold find_next_available_time.
  destruct (sort_by_key (fun t0 => time_diff t0 p)
              (omap (alternative_slot env p vs end_date) offsets))
    as [|t0 tail] eqn:Hs; [discriminate|].
  intros [= <-]. apply sort_by_key_head in Hs as [Hin Hmin].
  apply In_omap in Hin as (off & Hoff & Hslot).
  apply alternative_slot_Some in Hslot as [-> Hq].
  exists off. repeat split; auto; try apply Hq.
  intros off' Hoff' Hq'. apply Hmin. apply In_omap.
  exists off'. split; [auto|]. now apply alternative_slot_Some.
Qed.

Lemma find_next_available_time_None (env : sched_env) (p end_date : Z)
    (vs : list visit_info) :
  find_next_available_time env p vs end_date = None
  <-> forall off, In off offsets -> ~ qualifies env p end_date vs off.
Proof.
  unfold find_next_available_time.
  destruct (sort_by_key (fun t0 => time_diff t0 p)
              (omap (alternative_slot env p vs end_date) offsets))
    as [|t0 tail] eqn:Hs.
  - split; [|reflexivity]. intros _ off Hoff Hq.
    assert (In (p + minutes off)
              (sort_by_key (fun t0 => time_diff t0 p)
                 (omap (alternative_slot env p vs end_date) offsets)))
      as Hin.
    { apply sort_by_key_In, In_omap. exists off. split; [auto|].
      now apply alternative_slot_Some. }
    rewrite Hs in Hin. destruct Hin.
  - split; [discriminate|]. intros Hall. exfalso.
    assert (In t0 (t0 :: tail)) as Hin by (left; reflexivity).
    rewrite <- Hs in Hin. apply sort_by_key_In, In_omap in Hin
      as (off & Hoff & Hslot).
    apply alternative_slot_Some in Hslot as [_ Hq].
    exact (Hall off Hoff Hq).
Qed.

(** C4: when the proposed time conflicts, the candidates are the proposed
    time shifted by -30, 30, -60, 60, -90 and 90 minutes; those before the
    clock or after the end of the window are skipped; a candidate free of
    conflicts that is nearest to the proposed time is booked; and when no
    candidate qualifies the result is that of the proposal fallback. *)
Theorem conflict_books_nearest_alternative (env : sched_env)
    (thread_id : oid) (dealer_phone_number : string) (visits : collection)
    (proposed_time : Z) :
  extraction env = Extracted true true (Some proposed_time) ->
  now_ct env <= proposed_time ->
  has_conflict proposed_time
    (get_visit_availability (now_ct env) (now_ct env + days 2) visits)
  = true ->
  let end_date := now_ct env + days 2 in
  let existing_visits :=
    get_visit_availability (now_ct env) end_date visits in
  let out := process_visit_scheduling true env thread_id
               dealer_phone_number visits in
  let fallback := propose_available_time env (now_ct env) end_date
                    existing_visits thread_id dealer_phone_number
                    (car_listing_id env) visits in
  (exists off,
      In off [-30; 30; -60; 60; -90; 90]
      /\ qualifies env proposed_time end_date existing_visits off
      /\ (forall off',
             In off' [-30; 30; -60; 60; -90; 90] ->
             qualifies env proposed_time end_date existing_visits off' ->
             Z.abs (proposed_time + minutes off - proposed_time)
             <= Z.abs (proposed_time + minutes off' - proposed_time))
      /\ out = (Some {| message :=
                          not_available_message
                            (proposed_time + minutes off);
                        visit_scheduled := true |},
                (visits ++ [booked_visit env thread_id
                              (proposed_time + minutes off)
                              dealer_phone_number])%list))
  \/ ((forall off,
          In off [-30; 30; -60; 60; -90; 90] ->
          ~ qualifies env proposed_time end_date existing_visits off)
      /\ out = (Some (fst fallback), snd fallback)).
Proof.
  intros Hex Hnow Hconf end_date existing_visits out fallback.
  subst out fallback existing_visits end_date.
  unfold process_visit_scheduling. simpl negb. cbv iota.
  rewrite Hex. simpl andb. cbv iota.
  assert ((proposed_time <? now_ct env) = false) as ->
      by (apply Z.ltb_ge; lia).
  rewrite Hconf.
  destruct (find_next_available_time env proposed_time
              (get_visit_availability (now_ct env) (now_ct env + days 2)
                 visits)
              (now_ct env + days 2)) as [t|] eqn:Hf.
  - left. apply find_next_available_time_Some in Hf
      as (off & Hoff & -> & Hq & Hmin).
    exists off. repeat split; auto; apply Hq.
  - right. split; [|reflexivity].
    exact (proj1 (find_next_available_time_None _ _ _ _) Hf).
Qed.

(** ** The engine as a whole *)

Lemma booked_visit_fields (env : sched_env) (thread_id : oid) (t : Z)
    (dealer : string) :
  snd (booked_visit env thread_id t dealer) !! "status"
  = Some (VStr "scheduled")
  /\ snd (booked_visit env thread_id t dealer) !! "scheduledTime"
     = Some (VDate (to_bson t))
  /\ snd (booked_visit env thread_id t dealer) !! "threadId"
     = Some (VOid thread_id).
Proof.
  unfold booked_visit, visit_data. simpl.
  destruct (car_listing_id env); repeat split; by simplify_map_eq.
Qed.

(** By the engine's own reading of the stored times: a run leaves the
    visits as they are, or adds one visit; that visit has the status
    "scheduled", and the time it was booked for is at least 3600 seconds
    from what the engine reads as the time of every visit of the
    availability context of the run.  This holds on the three paths: the
    proposed time, an alternative, and the proposal fallback.  What is
    stored for the new visit is [to_bson] of its time, and what the engine
    reads of a stored visit is [from_bson] of its field: the statement is
    about the stored fields themselves only with a driver that gives back
    what it was given. *)
Theorem created_visit_is_an_hour_from_the_context (client : bool)
    (env : sched_env) (thread_id : oid) (dealer_phone_number : string)
    (visits : collection) :
  let out := process_visit_scheduling client env thread_id
               dealer_phone_number visits in
  let existing_visits :=
    get_visit_availability (now_ct env) (now_ct env + days 2) visits in
  (snd out = visits
   /\ forall r, fst out = Some r -> visit_scheduled r = false)
  \/ exists t r,
      snd out
      = (visits ++ [booked_visit env thread_id t dealer_phone_number])%list
      /\ fst out = Some r /\ visit_scheduled r = true
      /\ snd (booked_visit env thread_id t dealer_phone_number) !! "status"
         = Some (VStr "scheduled")
      /\ snd (booked_visit env thread_id t dealer_phone_number)
           !! "scheduledTime" = Some (VDate (to_bson t))
      /\ forall v, In v existing_visits ->
                   3600 * 1000000 <= Z.abs (t - visit_time v).
Proof.
  intros out existing_visits. subst out.
  assert (forall t r,
             has_conflict t existing_visits = false ->
             visit_scheduled r = true ->
             exists t' r',
               create_visit env thread_id t dealer_phone_number
                 (car_listing_id env) None visits
               = (visits
                    ++ [booked_visit env thread_id t' dealer_phone_number])%list
               /\ Some r = Some r' /\ visit_scheduled r' = true
               /\ snd (booked_visit env thread_id t' dealer_phone_number)
                    !! "status" = Some (VStr "scheduled")
               /\ snd (booked_visit env thread_id t' dealer_phone_number)
                    !! "scheduledTime" = Some (VDate (to_bson t'))
               /\ forall v, In v existing_visits ->
                            3600 * 1000000 <= Z.abs (t' - visit_time v))
    as Hbook.
  { intros t r Hfree Hr. exists t, r.
    destruct (booked_visit_fields env thread_id t dealer_phone_number)
      as (Hs & Ht & _).
    repeat split; auto.
    intros v Hin.
    exact (proj1 (has_conflict_false t existing_visits) Hfree v Hin). }
  assert (let r := propose_available_time env (now_ct env)
                     (now_ct env + days 2) existing_visits thread_id
                     dealer_phone_number (car_listing_id env) visits in
          (snd r = visits
           /\ forall r', Some (fst r) = Some r' ->
                         visit_scheduled r' = false)
          \/ exists t r',
              snd r
              = (visits
                   ++ [booked_visit env thread_id t dealer_phone_number])%list
              /\ Some (fst r) = Some r' /\ visit_scheduled r' = true
              /\ snd (booked_visit env thread_id t dealer_phone_number)
                   !! "status" = Some (VStr "scheduled")
              /\ snd (booked_visit env thread_id t dealer_phone_number)
                   !! "scheduledTime" = Some (VDate (to_bson t))
              /\ forall v, In v existing_visits ->
                           3600 * 1000000 <= Z.abs (t - visit_time v))
    as Hfallback.
  { intros r. subst r.
    destruct (propose_available_time_books env (now_ct env)
                (now_ct env + days 2) existing_visits thread_id
                dealer_phone_number (car_listing_id env) visits)
      as [[Hr Hv] | (c & [_ Hfree] & Hr & Hv)].
    - left. split; [exact Hv|]. intros r' [= <-]. exact Hr.
    - right. rewrite Hv. apply Hbook; auto. }
  unfold process_visit_scheduling. fold existing_visits.
  destruct client; simpl negb; cbv iota.
  2: { left. split; [reflexivity | intros r; discriminate]. }
  destruct (extraction env) as [|dealer_date dealer_time parsed].
  { left. split; [reflexivity|]. now intros r [= <-]. }
  destruct (dealer_date && dealer_time); [|exact Hfallback].
  destruct parsed as [proposed_time|]; [|exact Hfallback].
  destruct (proposed_time <? now_ct env); [exact Hfallback|].
  destruct (has_conflict proposed_time existing_visits) eqn:Hconf.
  - destruct (find_next_available_time env proposed_time existing_visits
                (now_ct env + days 2)) as [alt|] eqn:Hf;
      [|exact Hfallback].
    apply find_next_available_time_Some in Hf
      as (off & _ & -> & [_ Hfree] & _).
    right. simpl. apply Hbook; auto.
  - right. simpl. apply Hbook; auto.
Qed.

(** C5: a proposed time before the current time is not booked; the result
    is that of the proposal fallback, which books nothing or a time that
    is not before the current time, so later than the proposed one. *)
Theorem past_proposal_falls_back (env : sched_env) (thread_id : oid)
    (dealer_phone_number : string) (visits : collection)
    (dealer_date dealer_time : bool) (proposed_time : Z) :
  extraction env = Extracted dealer_date dealer_time (Some proposed_time) ->
  proposed_time < now_ct env ->
  let end_date := now_ct env + days 2 in
  let out := process_visit_scheduling true env thread_id
               dealer_phone_number visits in
  let fallback :=
    propose_available_time env (now_ct env) end_date
      (get_visit_availability (now_ct env) end_date visits) thread_id
      dealer_phone_number (car_listing_id env) visits in
  out = (Some (fst fallback), snd fallback)
  /\ (snd out = visits
      \/ exists c,
          proposed_time < c
          /\ snd out
             = (visits
                  ++ [booked_visit env thread_id c dealer_phone_number])%list).
Proof.
  intros Hex Hpast end_date out fallback.
  assert (out = (Some (fst fallback), snd fallback)) as Hout.
  { subst out fallback end_date. unfold process_visit_scheduling.
    simpl negb. cbv iota. rewrite Hex.
    destruct (dealer_date && dealer_time); [|reflexivity].
    assert ((proposed_time <? now_ct env) = true) as ->
        by (apply Z.ltb_lt; lia).
    reflexivity. }
  split; [exact Hout|]. rewrite Hout. simpl. subst fallback.
  destruct (propose_available_time_books env (now_ct env) end_date
              (get_visit_availability (now_ct env) end_date visits)
              thread_id dealer_phone_number (car_listing_id env) visits)
    as [[_ Hv] | (c & [Hw _] & _ & Hv)].
  - left. exact Hv.
  - right. exists c. split; [lia | exact Hv].
Qed.

(** ** The availability context *)

Lemma In_find (q : Mongo.query) (c : collection)
    (d : oid * gmap string value) :
  In d (Mongo.find q c) <-> In d c /\ q d = true.
Proof. unfold Mongo.find. apply filter_In. Qed.

(** C2, as amended: the availability context of a run consists of the
    visits of every thread whose status is not "cancelled" and whose
    scheduled time lies in the window from now to now plus two days; the
    thread of a visit plays no part. *)
Theorem availability_context_is_all_threads (env : sched_env)
    (visits : collection) (info : visit_info) :
  In info
    (get_visit_availability (now_ct env) (now_ct env + days 2) visits)
  <-> exists id doc t,
      In (id, doc) visits
      /\ doc !! "scheduledTime" = Some (VDate t)
      /\ to_bson (now_ct env) <= t <= to_bson (now_ct env + days 2)
      /\ doc !! "status" <> Some (VStr "cancelled")
      /\ info = {| visitId := id;
                   scheduledTime := t;
                   dealerPhoneNumber := doc !! "dealerPhoneNumber";
                   status := default (VStr "scheduled") (doc !! "status") |}.
Proof.
  unfold get_visit_availability. rewrite In_omap. split.
  - intros ([id doc] & Hin & Hentry). apply In_find in Hin as [Hin Hq].
    unfold availability_query, visit_entry in *. simpl in *.
    destruct (doc !! "scheduledTime") as [[| | | |t|]|] eqn:Hst;
      try discriminate.
    apply andb_prop in Hq as [Hw Hs]. apply andb_prop in Hw as [H1 H2].
    apply Z.leb_le in H1, H2. injection Hentry as <-.
    exists id, doc, t. repeat split; auto.
    intros Hc. rewrite Hc in Hs. simpl in Hs. discriminate.
  - intros (id & doc & t & Hin & Hst & [H1 H2] & Hs & ->).
    exists (id, doc). split.
    + apply In_find. split; [exact Hin|].
      unfold availability_query. simpl. rewrite Hst.
      apply andb_true_intro. split.
      * apply andb_true_intro. split; now apply Z.leb_le.
      * apply negb_true_iff. unfold value_is_str.
        destruct (doc !! "status") as [[| | |s| |]|]; auto.
        apply String.eqb_neq. congruence.
    + unfold visit_entry. simpl. now rewrite Hst.
Qed.

(** ** What [Re.search] finds *)
Lemma append_nil_l (s : string) : "" +:+ s = s.
Proof. reflexivity. Qed.

Lemma append_cons (c : ascii) (a b : string) :
  String c a +:+ b = String c (a +:+ b).
Proof. reflexivity. Qed.


Lemma compile_plain_char (c : ascii) (rest : string) :
  c <> "."%char -> Re.compile (String c rest) = Re.Chr c :: Re.compile rest.
Proof.
  intros Hc.
  destruct c as [[] [] [] [] [] [] [] []]; try reflexivity.
  now contradiction Hc.
Qed.

Lemma compile_plain (p : string) : plain p -> Re.compile p = chars p.
Proof.
  unfold plain. induction p as [|c rest IH]; [reflexivity|].
  intros Hp. simpl in Hp.
  rewrite compile_plain_char by (intros ->; apply Hp; now left).
  simpl. f_equal. apply IH. intros Hin. apply Hp. now right.
Qed.

Lemma compile_dotstar (a b : string) :
  plain a -> plain b ->
  Re.compile (a +:+ ".*" +:+ b) = (chars a ++ Re.DotStar :: chars b)%list.
Proof.
  unfold plain. intros Ha Hb. induction a as [|c rest IH].
  - rewrite append_nil_l. simpl. f_equal. now apply compile_plain.
  - simpl in Ha. rewrite append_cons.
    rewrite compile_plain_char by (intros ->; apply Ha; now left).
    simpl. f_equal. apply IH. intros Hin. apply Ha. now right.
Qed.

Lemma match_here_chars (p : string) (q : list Re.atom) (s : string) :
  Re.match_here (chars p ++ q) s = true
  <-> exists rest, s = p +:+ rest /\ Re.match_here q rest = true.
Proof.
  revert s. induction p as [|c p' IH]; intros s.
  - simpl. split; [intros H; exists s; auto | intros (rest & -> & H); auto].
  - destruct s as [|d s']; cbn [chars app Re.match_here].
    + split; [discriminate|]. intros (rest & Hs & _).
      rewrite append_cons in Hs. discriminate.
    + rewrite andb_true_iff, Ascii.eqb_eq, IH. split.
      * intros (-> & rest & -> & H). exists rest. auto.
      * intros (rest & Hs & H). rewrite append_cons in Hs.
        injection Hs as -> ->. split; [reflexivity|].
        exists rest. auto.
Qed.

Lemma match_here_dotstar_step (q : list Re.atom) (s : string) :
  Re.match_here (Re.DotStar :: q) s
  = Re.match_here q s
    || match s with
       | String d s' =>
           negb (Ascii.eqb d Re.newline) && Re.match_here (Re.DotStar :: q) s'
       | EmptyString => false
       end.
Proof. destruct s; reflexivity. Qed.

Lemma match_here_dotstar (q : list Re.atom) (s : string) :
  Re.match_here (Re.DotStar :: q) s = true
  <-> exists mid rest,
      s = mid +:+ rest
      /\ ~ In Re.newline (String.list_ascii_of_string mid)
      /\ Re.match_here q rest = true.
Proof.
  induction s as [|d s' IH]; rewrite match_here_dotstar_step.
  - rewrite orb_false_r. split.
    + intros H. exists "", "". simpl. auto.
    + intros (mid & rest & Hs & _ & H).
      destruct mid; [rewrite append_nil_l in Hs; now subst|].
      rewrite append_cons in Hs. discriminate.
  - rewrite orb_true_iff, andb_true_iff, negb_true_iff, IH. split.
    + intros [H | (Hd & mid & rest & -> & Hmid & H)].
      * exists "", (String d s'). simpl. auto.
      * exists (String d mid), rest. repeat split; auto.
        simpl. intros [E | Hin]; [|auto].
        apply Ascii.eqb_neq in Hd. congruence.
    + intros (mid & rest & Hs & Hmid & H).
      destruct mid as [|m mid'].
      * rewrite append_nil_l in Hs. subst rest. now left.
      * rewrite append_cons in Hs. injection Hs as -> ->. right. split.
        -- apply Ascii.eqb_neq. intros ->. apply Hmid. now left.
        -- exists mid', rest. repeat split; auto.
           intros Hin. apply Hmid. now right.
Qed.

Lemma search_atoms_spec (p : list Re.atom) (s : string) :
  Re.search_atoms p s = true
  <-> exists before rest, s = before +:+ rest /\ Re.match_here p rest = true.
Proof.
  induction s as [|d s' IH]; cbn [Re.search_atoms].
  - rewrite orb_false_r. split.
    + intros H. exists "", "". auto.
    + intros (before & rest & Hs & H).
      destruct before; [rewrite append_nil_l in Hs; now subst|].
      rewrite append_cons in Hs. discriminate.
  - rewrite orb_true_iff, IH. split.
    + intros [H | (before & rest & -> & H)].
      * exists "", (String d s'). auto.
      * exists (String d before), rest. auto.
    + intros (before & rest & Hs & H). destruct before as [|b before'].
      * rewrite append_nil_l in Hs. subst rest. now left.
      * rewrite append_cons in Hs. injection Hs as -> ->. right.
        exists before', rest. auto.
Qed.

(** A pattern without a dot is found where it occurs as a substring. *)
Lemma search_plain (p s : string) :
  plain p ->
  Re.search p s = true <-> exists before after, s = before +:+ p +:+ after.
Proof.
  intros Hp. unfold Re.search. rewrite compile_plain by exact Hp.
  rewrite search_atoms_spec. split.
  - intros (before & rest & -> & H).
    rewrite <- (app_nil_r (chars p)) in H.
    apply match_here_chars in H as (after & -> & _). eauto.
  - intros (before & after & ->). exists before, (p +:+ after).
    split; [reflexivity|]. rewrite <- (app_nil_r (chars p)).
    apply match_here_chars. exists after. auto.
Qed.

(** A pattern [a.*b] is found where [a] is followed on the same line by
    [b]. *)
Lemma search_dotstar (a b s : string) :
  plain a -> plain b ->
  Re.search (a +:+ ".*" +:+ b) s = true
  <-> exists before mid after,
      s = before +:+ a +:+ mid +:+ b +:+ after
      /\ ~ In Re.newline (String.list_ascii_of_string mid).
Proof.
  intros Ha Hb. unfold Re.search. rewrite compile_dotstar by assumption.
  rewrite search_atoms_spec. split.
  - intros (before & rest & -> & H).
    apply match_here_chars in H as (rest1 & -> & H).
    apply match_here_dotstar in H as (mid & rest2 & -> & Hmid & H).
    rewrite <- (app_nil_r (chars b)) in H.
    apply match_here_chars in H as (after & -> & _).
    exists before, mid, after. auto.
  - intros (before & mid & after & -> & Hmid).
    exists before, (a +:+ mid +:+ b +:+ after). split; [reflexivity|].
    apply match_here_chars. exists (mid +:+ b +:+ after).
    split; [reflexivity|]. apply match_here_dotstar.
    exists mid, (b +:+ after). repeat split; auto.
    rewrite <- (app_nil_r (chars b)). apply match_here_chars.
    exists after. auto.
Qed.

Example search_examples :
  Re.search "gathering.*information" "still gathering all the information"
  = true
  /\ Re.search "sounds good" "ok, sounds good to me" = true
  /\ Re.search "provide.*as soon"
       ("we will provide it" +:+ new_line +:+ "as soon as we can") = false.
Proof. vm_compute. repeat split; reflexivity. Qed.

(** ** The new-information classifier *)

Lemma is_digit_spec (c : ascii) :
  Re.is_digit c = true <-> In c (String.list_ascii_of_string "0123456789").
Proof.
  destruct c as [[] [] [] [] [] [] [] []]; vm_compute;
    split; intros H; try discriminate; try reflexivity;
    try (intuition discriminate); tauto.
Qed.

Lemma search_digits_spec (s : string) :
  Re.search_digits s = true
  <-> exists c, In c (String.list_ascii_of_string s) /\ Re.is_digit c = true.
Proof.
  induction s as [|c rest IH]; simpl.
  - split; [discriminate | intros (c & [] & _)].
  - rewrite orb_true_iff, IH. split.
    + intros [Hc | (d & Hin & Hd)]; [exists c | exists d]; auto.
    + intros (d & [<- | Hin] & Hd); [left | right; exists d]; auto.
Qed.

Lemma contains_dollar_spec (s : string) :
  Text.contains "$" s = true <-> In "$"%char (String.list_ascii_of_string s).
Proof.
  induction s as [|c rest IH].
  - simpl. split; [discriminate | intros []].
  - assert (Text.contains "$" (String c rest)
            = Ascii.eqb "$" c || Text.contains "$" rest) as ->
      by (cbn [Text.contains Text.strip_prefix];
          destruct (Ascii.eqb "$" c); reflexivity).
    rewrite orb_true_iff, IH, Ascii.eqb_eq. simpl. intuition.
Qed.

Lemma is_just_acknowledgment_spec (message : string) :
  is_just_acknowledgment message = true
  <-> (exists pattern,
          In pattern acknowledgment_patterns
          /\ Re.search pattern (Text.lower message) = true)
      /\ (forall c, In c (String.list_ascii_of_string message) ->
                    ~ In c (String.list_ascii_of_string "0123456789"))
      /\ ~ In "$"%char (String.list_ascii_of_string message).
Proof.
  unfold is_just_acknowledgment.
  rewrite !andb_true_iff, !negb_true_iff, existsb_exists.
  rewrite <- contains_dollar_spec, not_true_iff_false.
  assert (Re.search_digits message = false
          <-> forall c, In c (String.list_ascii_of_string message) ->
                        ~ In c (String.list_ascii_of_string "0123456789")) as Hd.
  { rewrite <- not_true_iff_false, search_digits_spec. split.
    - intros Hno c Hin Hc. apply Hno. exists c. split; auto.
      now apply is_digit_spec.
    - intros Hall (c & Hin & Hc). apply (Hall c Hin).
      now apply is_digit_spec. }
  rewrite Hd. tauto.
Qed.

(** C6, as amended: when the client of the language model is configured,
    the classifier returns False without a call of the model exactly when
    the lower-cased message matches one of the acknowledgment patterns
    and the message has no digit and no dollar sign; for every other
    message whose known facts render, the model is called.  When the
    client is not configured the classifier returns True for every
    message, whatever is known, and without a call of the model. *)
Theorem fast_path_iff_plain_acknowledgment (message : string) :
  let plain_acknowledgment :=
    (exists pattern,
        In pattern acknowledgment_patterns
        /\ Re.search pattern (Text.lower message) = true)
    /\ (forall c, In c (String.list_ascii_of_string message) ->
                  ~ In c (String.list_ascii_of_string "0123456789"))
    /\ ~ In "$"%char (String.list_ascii_of_string message) in
  (forall known_data,
      message_contains_new_information true message known_data = Ret false
      <-> plain_acknowledgment)
  /\ (forall known_fields,
         ~ plain_acknowledgment ->
         exists k,
           message_contains_new_information true message
             (KnownFields known_fields)
           = Chat (AskNewInformation
                     (known_information_section known_fields) message) k)
  /\ (forall known_data,
         message_contains_new_information false message known_data
         = Ret true).
Proof.
  intros plain. subst plain. split; [|split].
  - intros known_data. rewrite <- is_just_acknowledgment_spec.
    unfold message_contains_new_information. simpl negb. cbv iota.
    destruct (is_just_acknowledgment message).
    + split; reflexivity.
    + destruct known_data; split; discriminate.
  - intros known_fields Hno.
    rewrite <- is_just_acknowledgment_spec in Hno.
    unfold message_contains_new_information. simpl negb. cbv iota.
    destruct (is_just_acknowledgment message); [congruence|].
    eexists. reflexivity.
  - intros known_data. reflexivity.
Qed.

(** C7: when a call of the model that the classifier makes raises, the
    classifier returns True. *)
Theorem model_failure_means_new_information (client : bool)
    (message : string) (known_data : known_rendering)
    (model : llm_request -> llm_reply) (request : llm_request) :
  In request
    (snd (run model
            (message_contains_new_information client message known_data))) ->
  model request = LlmRaised ->
  fst (run model
         (message_contains_new_information client message known_data))
  = true.
Proof.
  unfold message_contains_new_information.
  destruct client; simpl negb; cbv iota; [|simpl; intros []].
  destruct (is_just_acknowledgment message); [simpl; intros []|].
  destruct known_data as [|known_fields]; [simpl; intros []|].
  simpl.
  destruct (model (AskNewInformation
                     (known_information_section known_fields) message))
    eqn:Hreply; simpl; intros [<- | []] Hfail; [reflexivity | congruence].
Qed.

(** ** [modify_visit] *)

(** C9: [modify_visit] raises NameError whatever it is given, since
    [ObjectId] is not a global of [utils.py]; the visits are left as they
    are, and [updatedAt] is not refreshed. *)
Theorem modify_visit_raises_name_error (now : Z) (visit_id : oid)
    (scheduled_time : option Z) (notes new_status : option string)
    (visits : collection) :
  modify_visit utils_globals now visit_id scheduled_time notes new_status
    visits
  = (Raised "NameError", visits).
Proof. reflexivity. Qed.

Lemma update_data_updatedAt (now : Z) (scheduled_time : option Z)
    (notes new_status : option string) :
  update_data now scheduled_time notes new_status !! "updatedAt"
  = Some (VDate now).
Proof.
  unfold update_data.
  destruct scheduled_time, notes, new_status as [st|];
    try destruct (Text.is_empty st); by simplify_map_eq.
Qed.

Lemma update_data_other (now : Z) (scheduled_time : option Z)
    (notes new_status : option string) (key : string) :
  key <> "updatedAt" ->
  (key = "scheduledTime" -> scheduled_time = None) ->
  (key = "notes" -> notes = None) ->
  (key = "status" -> new_status = None \/ new_status = Some "") ->
  update_data now scheduled_time notes new_status !! key = None.
Proof.
  intros Hu Ht Hn Hs. unfold update_data.
  destruct scheduled_time as [t|];
    [assert (key <> "scheduledTime") by (intros ->; now specialize (Ht eq_refl))|];
    (destruct notes as [n|];
     [assert (key <> "notes") by (intros ->; now specialize (Hn eq_refl))|]);
    (destruct new_status as [st|];
     [destruct (Text.is_empty st) eqn:He;
      [|assert (key <> "status")
          by (intros ->; destruct (Hs eq_refl) as [|[= ->]];
              [discriminate | discriminate])]|]);
    by simplify_map_eq.
Qed.

Lemma update_one_In (q : Mongo.query) (update : gmap string value)
    (c : collection) (id : oid) (doc' : gmap string value) :
  In (id, doc') (Mongo.update_one q update c) ->
  In (id, doc') c \/ exists doc, In (id, doc) c /\ doc' = update ∪ doc.
Proof.
  induction c as [|[id0 doc0] rest IH]; simpl; [intros []|].
  destruct (q (id0, doc0)); simpl.
  - intros [[= <- <-] | Hin]; [right; exists doc0 | left]; auto.
  - intros [Heq | Hin]; [left; auto|].
    destruct (IH Hin) as [Hold | (doc & Hd & ->)]; [left; auto|].
    right. exists doc. auto.
Qed.

(** With [ObjectId] bound, [modify_visit] would change the given fields
    and [updatedAt] of the visit and nothing else. *)
Lemma modify_visit_frame (globals : list string) (now : Z) (visit_id : oid)
    (scheduled_time : option Z) (notes new_status : option string)
    (visits : collection) (id : oid) (doc' : gmap string value)
    (key : string) :
  bound "ObjectId" globals = true ->
  In (id, doc')
    (snd (modify_visit globals now visit_id scheduled_time notes
            new_status visits)) ->
  key <> "updatedAt" ->
  (key = "scheduledTime" -> scheduled_time = None) ->
  (key = "notes" -> notes = None) ->
  (key = "status" -> new_status = None \/ new_status = Some "") ->
  exists doc, In (id, doc) visits /\ doc' !! key = doc !! key.
Proof.
  intros Hb Hin Hu Ht Hn Hs. unfold modify_visit in Hin.
  rewrite Hb in Hin. simpl in Hin.
  apply update_one_In in Hin as [Hold | (doc & Hd & ->)].
  - exists doc'. auto.
  - exists doc. split; [auto|].
    rewrite lookup_union_r; [reflexivity|].
    now apply update_data_other.
Qed.

(** ** The handler and a thread that is complete *)

Lemma find_one_Some (q : Mongo.query) (c : collection)
    (d : oid * gmap string value) :
  Mongo.find_one q c = Some d -> In d c /\ q d = true.
Proof. unfold Mongo.find_one. apply find_some. Qed.

Lemma find_by_id_update_one (update : gmap string value) (c : collection)
    (d : oid * gmap string value) :
  List.NoDup (map fst c) -> In d c ->
  Mongo.find_by_id (fst d)
    (Mongo.update_one (Mongo.by_id (fst d)) update c)
  = Some (fst d, update ∪ snd d).
Proof.
  unfold Mongo.find_by_id, Mongo.find_one, Mongo.by_id.
  induction c as [|d0 rest IH]; simpl; [intros _ []|].
  intros Hnd Hin. apply NoDup_cons_iff in Hnd as [Hfresh Hnd].
  destruct (N.eqb (fst d0) (fst d)) eqn:Heq.
  - apply N.eqb_eq in Heq. simpl. rewrite Heq, N.eqb_refl.
    destruct Hin as [-> | Hin]; [reflexivity|].
    exfalso. apply Hfresh. rewrite Heq. now apply in_map.
  - simpl. rewrite Heq. apply IH; [exact Hnd|].
    destruct Hin as [-> | Hin]; [|exact Hin].
    rewrite N.eqb_refl in Heq. discriminate.
Qed.

Lemma unique_by_id (c : collection) (id : oid)
    (doc1 doc2 : gmap string value) :
  List.NoDup (map fst c) -> In (id, doc1) c -> In (id, doc2) c ->
  doc1 = doc2.
Proof.
  induction c as [|d0 rest IH]; simpl; [intros _ []|].
  intros Hnd H1 H2. apply NoDup_cons_iff in Hnd as [Hfresh Hnd].
  destruct H1 as [-> | H1], H2 as [E | H2].
  - congruence.
  - exfalso. apply Hfresh. now apply (in_map fst) in H2.
  - exfalso. apply Hfresh. rewrite E. now apply (in_map fst) in H1.
  - now apply IH.
Qed.

Lemma update_one_keeps (q : Mongo.query) (update : gmap string value)
    (c : collection) (key : string) (id : oid)
    (doc' : gmap string value) :
  update !! key = None ->
  In (id, doc') (Mongo.update_one q update c) ->
  exists doc, In (id, doc) c /\ doc' !! key = doc !! key.
Proof.
  intros Hkey Hin. apply update_one_In in Hin as [Hold | (doc & Hd & ->)].
  - exists doc'. auto.
  - exists doc. split; [exact Hd|]. now rewrite lookup_union_r.
Qed.

(** C8: a message for a thread whose [conversationComplete] is true is
    stored, the thread takes the new last message and unread count, and
    the handler answers with success and does nothing else: no call of
    the model (classifier, agent or scheduling), no SMS, no task, no
    change of the visits, the car listings or the pending responses, and
    no change of the waiting or complete flag of any thread. *)
Theorem complete_thread_gets_no_response (cfg : config)
    (env : webhook_env) (webhook : SMSWebhook.t) (w : world)
    (thread : oid * gmap string value) :
  List.NoDup (map fst (threads w)) ->
  SMSWebhook.fromNumber webhook <> "" ->
  SMSWebhook.message webhook <> "" ->
  Re.search (Text.lower opt_in_pattern)
    (Text.lower (SMSWebhook.message webhook)) = false ->
  Mongo.find_one
    (Mongo.by_field "phoneNumber" (VStr (SMSWebhook.fromNumber webhook)))
    (threads w) = Some thread ->
  truthy (snd thread !! "conversationComplete") = true ->
  next_unread (snd thread) <> None ->
  let out := sms_webhook cfg env webhook w in
  fst out = Response true "Conversation complete, no response sent"
  /\ effects (snd out) = effects w
  /\ visits (snd out) = visits w
  /\ car_listings (snd out) = car_listings w
  /\ pending_responses (snd out) = pending_responses w
  /\ (exists stored,
         messages (snd out)
         = (messages w ++ [(new_message_id env, stored)])%list
         /\ stored !! "body" = Some (VStr (SMSWebhook.message webhook))
         /\ stored !! "direction" = Some (VStr "inbound")
         /\ stored !! "threadId" = Some (VOid (fst thread)))
  /\ forall id doc',
       In (id, doc') (threads (snd out)) ->
       exists doc,
         In (id, doc) (threads w)
         /\ doc' !! "conversationComplete" = doc !! "conversationComplete"
         /\ doc' !! "waitingForDealerResponse"
            = doc !! "waitingForDealerResponse".
Proof.
  intros Hnd Hsender Hbody Hopt Hfind Hcomplete Hunread out. subst out.
  apply find_one_Some in Hfind as Hthread. destruct Hthread as [Hin _].
  unfold sms_webhook.
  assert (Text.is_empty (SMSWebhook.fromNumber webhook) = false) as ->
      by (now apply String.eqb_neq).
  assert (Text.is_empty (SMSWebhook.message webhook) = false) as ->
      by (now apply String.eqb_neq).
  simpl orb. cbv iota. rewrite Hopt.
  unfold find_or_create_thread. rewrite Hfind.
  destruct (next_unread (snd thread)) as [unread|]; [|congruence].
  cbn [threads set_threads].
  rewrite (find_by_id_update_one _ _ _ Hnd Hin).
  cbn [fst snd].
  rewrite lookup_union_r by (by simplify_map_eq).
  rewrite Hcomplete.
  cbn [fst snd effects visits car_listings pending_responses messages
         threads set_messages set_threads].
  repeat split.
  - eexists. split; [reflexivity|].
    unfold inbound_message. repeat split; by simplify_map_eq.
  - intros id doc' Hin'.
    assert (forall key,
               key = "conversationComplete"
               \/ key = "waitingForDealerResponse" ->
               exists doc,
                 In (id, doc) (threads w) /\ doc' !! key = doc !! key)
      as Hkeep.
    { intros key Hkey. eapply update_one_keeps; [|exact Hin'].
      destruct Hkey as [-> | ->]; by simplify_map_eq. }
    destruct (Hkeep "conversationComplete") as (doc & Hd & Hc);
      [now left|].
    destruct (Hkeep "waitingForDealerResponse") as (doc2 & Hd2 & Hw);
      [now right|].
    exists doc. repeat split; auto.
    now rewrite (unique_by_id _ _ _ _ Hnd Hd Hd2).
Qed.

(** ** The gateway with its retries *)

Lemma map_seq_shift (f g : nat -> Z) (m : nat) :
  (forall i, f i = g (S i)) -> map f (seq 0 m) = map g (seq 1 m).
Proof.
  intros Hfg. rewrite <- seq_shift, map_map. apply map_ext. exact Hfg.
Qed.

Lemma send_loop_spec (post : Z -> post_outcome) (retries : Z) (n : nat)
    (attempt : Z) :
  Z.of_nat n = Z.max 0 (retries - attempt + 1) ->
  exists k : nat,
    (k <= n)%nat /\ ((0 < n)%nat -> (0 < k)%nat)
    /\ posted (snd (send_loop post retries n attempt))
       = map (fun i => attempt + Z.of_nat i) (seq 0 k)
    /\ slept (snd (send_loop post retries n attempt))
       = map (fun i => backoff_delay (attempt + Z.of_nat i)) (seq 0 (k - 1))
    /\ (forall i, (S i < k)%nat ->
                  post (attempt + Z.of_nat i) = PostNetworkError)
    /\ match fst (send_loop post retries n attempt) with
       | Returned (Some json) =>
           post (attempt + Z.of_nat (k - 1)) = PostOk json
       | Returned None => n = 0%nat
       | Raised _ =>
           (forall json, post (attempt + Z.of_nat (k - 1)) <> PostOk json)
           /\ (post (attempt + Z.of_nat (k - 1)) = PostNetworkError ->
               retries <= attempt + Z.of_nat (k - 1))
       end.
Proof.
  revert attempt. induction n as [|n IH]; intros attempt Hn; simpl.
  - exists 0%nat. repeat split; auto; intros; lia.
  - destruct (post attempt) eqn:Hpost.
    + exists 1%nat. simpl. rewrite Z.add_0_r.
      repeat split; auto; try lia; try (intros; lia).
    + destruct (attempt <? retries) eqn:Hlt.
      * apply Z.ltb_lt in Hlt.
        destruct (IH (attempt + 1) ltac:(lia))
          as (k & Hk & Hpos & Hposted & Hslept & Hnet & Hres).
        assert (0 < k)%nat as Hk0 by (apply Hpos; lia).
        exists (S k). simpl. rewrite Hposted, Hslept, Z.add_0_r.
        split; [lia|]. split; [lia|]. split.
        { f_equal. apply map_seq_shift. intros i. lia. }
        split.
        { rewrite Nat.sub_0_r. destruct k as [|k']; [lia|].
          simpl. rewrite Nat.sub_0_r, Z.add_0_r. f_equal.
          apply map_seq_shift. intros i. f_equal. lia. }
        split.
        { intros [|i] Hi.
          - now rewrite Z.add_0_r.
          - replace (attempt + Z.of_nat (S i)) with (attempt + 1 + Z.of_nat i)
              by lia. apply Hnet. lia. }
        replace (attempt + Z.of_nat (k - 0))
          with (attempt + 1 + Z.of_nat (k - 1)) by lia.
        destruct (fst (send_loop post retries n (attempt + 1)))
          as [[json|]|exc]; auto. lia.
      * apply Z.ltb_ge in Hlt. exists 1%nat. simpl. rewrite Z.add_0_r.
        repeat split; auto; try lia; try congruence; try (intros; lia).
    + exists 1%nat. simpl. rewrite Z.add_0_r.
      repeat split; auto; try lia; try congruence; try (intros; lia).
    + exists 1%nat. simpl. rewrite Z.add_0_r.
      repeat split; auto; try lia; try congruence; try (intros; lia).
Qed.

Lemma backoff_delay_bounds (attempt : Z) :
  1 <= attempt -> 1000 <= backoff_delay attempt <= 5000.
Proof.
  intros Ha. unfold backoff_delay.
  assert (0 < 2 ^ (attempt - 1)) by (apply Z.pow_pos_nonneg; lia).
  lia.
Qed.

(** X1: [send_sms] posts the attempts 1, 2, ... in order and at most
    [retries] of them; every attempt but the last one made failed with a
    network error, so nothing is posted after a success or after another
    failure; without the key nothing is posted at all. *)
Theorem send_sms_posts_until_settled (key : bool) (post : Z -> post_outcome)
    (retries : Z) :
  let out := send_sms_attempts key post retries in
  exists k : nat,
    Z.of_nat k <= Z.max 0 retries
    /\ (key = false -> k = 0%nat)
    /\ posted (snd out) = map (fun i => 1 + Z.of_nat i) (seq 0 k)
    /\ forall i, (S i < k)%nat -> post (1 + Z.of_nat i) = PostNetworkError.
Proof.
  unfold send_sms_attempts. destruct key; simpl.
  - destruct (send_loop_spec post retries (Z.to_nat retries) 1 ltac:(lia))
      as (k & Hk & _ & Hposted & _ & Hnet & _).
    exists k. repeat split; auto; [lia | discriminate].
  - exists 0%nat. repeat split; auto; intros; lia.
Qed.

(** X2: with the key set, [send_sms] returns the reply of the provider
    exactly when some attempt within [retries] succeeds and every attempt
    before it failed with a network error. *)
Theorem send_sms_returns_iff_an_attempt_succeeds (post : Z -> post_outcome)
    (retries : Z) (json : string) :
  fst (send_sms_attempts true post retries) = Returned (Some json)
  <-> exists a,
      1 <= a <= retries /\ post a = PostOk json
      /\ forall b, 1 <= b < a -> post b = PostNetworkError.
Proof.
  unfold send_sms_attempts. simpl.
  destruct (send_loop_spec post retries (Z.to_nat retries) 1 ltac:(lia))
    as (k & Hk & Hpos & _ & _ & Hnet & Hres).
  split.
  - intros Hret. rewrite Hret in Hres.
    assert (0 < k)%nat as Hk0.
    { apply Hpos. destruct (Z.to_nat retries); [|lia].
      simpl in Hret. discriminate. }
    exists (1 + Z.of_nat (k - 1)). repeat split; auto; try lia.
    intros b Hb. replace b with (1 + Z.of_nat (Z.to_nat (b - 1))) by lia.
    apply Hnet. lia.
  - intros (a & Ha & Hok & Hbefore).
    assert (forall b, 1 <= b < 1 + Z.of_nat (k - 1) ->
                      post b = PostNetworkError) as Hnet'.
    { intros b Hb. replace b with (1 + Z.of_nat (Z.to_nat (b - 1))) by lia.
      apply Hnet. lia. }
    destruct (fst (send_loop post retries (Z.to_nat retries) 1))
      as [[json'|]|exc] eqn:Hfst.
    + destruct (Z.lt_trichotomy (1 + Z.of_nat (k - 1)) a)
        as [Hlt | [Heq | Hgt]].
      * rewrite Hbefore in Hres by lia. discriminate.
      * rewrite Heq, Hok in Hres. congruence.
      * rewrite Hnet' in Hok by lia. discriminate.
    + lia.
    + exfalso. destruct Hres as [Hno Hlast].
      destruct (Z.lt_trichotomy (1 + Z.of_nat (k - 1)) a)
        as [Hlt | [Heq | Hgt]].
      * assert (post (1 + Z.of_nat (k - 1)) = PostNetworkError) as Hn
          by (apply Hbefore; lia).
        specialize (Hlast Hn). lia.
      * rewrite Heq in Hno. exact (Hno json Hok).
      * rewrite Hnet' in Hok by lia. discriminate.
Qed.

(** X3: [send_sms] sleeps once after every attempt but the last one made,
    for the delay of that attempt; every delay is between one and five
    seconds, and with three retries the sleeps add up to three seconds at
    most. *)
Theorem send_sms_backoff (key : bool) (post : Z -> post_outcome)
    (retries : Z) :
  let out := send_sms_attempts key post retries in
  slept (snd out) = map backoff_delay (removelast (posted (snd out)))
  /\ (forall ms, In ms (slept (snd out)) -> 1000 <= ms <= 5000)
  /\ (retries = 3 -> fold_right Z.add 0 (slept (snd out)) <= 3000).
Proof.
  unfold send_sms_attempts. destruct key; simpl.
  2: { repeat split; auto; try lia; intros ms []. }
  destruct (send_loop_spec post retries (Z.to_nat retries) 1 ltac:(lia))
    as (k & Hk & _ & Hposted & Hslept & _ & _).
  rewrite Hposted, Hslept.
  assert (forall m, removelast (map (fun i => 1 + Z.of_nat i) (seq 0 m))
                    = map (fun i => 1 + Z.of_nat i) (seq 0 (m - 1))) as Hrl.
  { intros m. destruct m as [|m]; [reflexivity|].
    rewrite seq_S, map_app. simpl. rewrite removelast_last.
    now rewrite Nat.sub_0_r. }
  split; [|split].
  - rewrite Hrl, map_map. reflexivity.
  - intros ms Hin. apply in_map_iff in Hin as (i & <- & _).
    apply backoff_delay_bounds. lia.
  - intros ->. change (Z.to_nat 3) with 3%nat in Hk.
    destruct k as [|[|[|[|k]]]]; try lia; vm_compute; discriminate.
Qed.

(** ** Display of a phone number *)

Lemma digits_of_app (a b : string) :
  digits_of (a +:+ b) = digits_of a +:+ digits_of b.
Proof.
  induction a as [|c a IH]; [reflexivity|].
  rewrite append_cons. cbn [digits_of].
  destruct (Re.is_digit c); [rewrite append_cons|]; now rewrite IH.
Qed.

Lemma digits_of_digits (s : string) : digits_of (digits_of s) = digits_of s.
Proof.
  induction s as [|c s IH]; [reflexivity|]. cbn [digits_of].
  destruct (Re.is_digit c) eqn:Hc; [|exact IH].
  cbn [digits_of]. now rewrite Hc, IH.
Qed.

Lemma substring_all (s : string) : String.substring 0 (String.length s) s = s.
Proof. induction s as [|c s IH]; simpl; congruence. Qed.

Lemma substring_split (n m : nat) (s : string) :
  String.substring 0 n s +:+ String.substring n m s
  = String.substring 0 (n + m) s.
Proof.
  revert s. induction n as [|n IH]; intros s.
  - destruct s; destruct m; reflexivity.
  - destruct s as [|c s]; [reflexivity|].
    cbn [String.substring Nat.add]. rewrite append_cons. f_equal. apply IH.
Qed.

(** The pieces that [format_phone_number] cuts from [cleaned] make it up
    again. *)
Lemma slices_cover (a b : nat) (s : string) :
  (a <= b)%nat -> (b <= String.length s)%nat ->
  slice 0 a s +:+ slice a b s +:+ slice_from b s = s.
Proof.
  intros Hab Hb. unfold slice, slice_from.
  rewrite Nat.sub_0_r.
  assert (forall x y z : string, x +:+ y +:+ z = (x +:+ y) +:+ z) as Hassoc.
  { intros x y z. induction x as [|c x IH]; [reflexivity|].
    rewrite !append_cons. now rewrite IH. }
  rewrite Hassoc, substring_split.
  replace (a + (b - a))%nat with b by lia.
  rewrite substring_split.
  replace (b + (String.length s - b))%nat with (String.length s) by lia.
  apply substring_all.
Qed.

Lemma digits_of_length_le (s : string) :
  (String.length (digits_of s) <= String.length s)%nat.
Proof.
  induction s as [|c s IH]; simpl; [lia|].
  destruct (Re.is_digit c); simpl; lia.
Qed.

Lemma digits_of_format_phone_number (phone : string) :
  digits_of (format_phone_number phone) = digits_of phone.
Proof.
  unfold format_phone_number.
  set (cleaned := digits_of phone).
  assert (digits_of cleaned = cleaned) as Hclean
      by apply digits_of_digits.
  assert (forall a b, (a <= b)%nat -> (b <= String.length cleaned)%nat ->
            digits_of (slice 0 a cleaned) +:+ digits_of (slice a b cleaned)
            +:+ digits_of (slice_from b cleaned) = cleaned) as Hcover.
  { intros a b Hab Hb. rewrite <- !digits_of_app, slices_cover by assumption.
    exact Hclean. }
  destruct (Nat.eqb (String.length cleaned) 11
            && match cleaned with
               | String c _ => Ascii.eqb c "1"
               | EmptyString => false
               end) eqn:H11.
  - apply andb_prop in H11 as [Hlen Hone]. apply Nat.eqb_eq in Hlen.
    destruct cleaned as [|c rest] eqn:Hc; [discriminate|].
    apply Ascii.eqb_eq in Hone. subst c.
    rewrite !digits_of_app.
    change (digits_of "+1 (") with "1".
    change (digits_of ") ") with "". change (digits_of "-") with "".
    rewrite !append_nil_l.
    (* the first piece, [cleaned[0:1]], is the 1 *)
    specialize (Hcover 4%nat 7%nat ltac:(lia) ltac:(simpl in *; lia)).
    assert (slice 0 4 (String "1" rest)
            = "1" +:+ slice 1 4 (String "1" rest)) as Hfirst.
    { unfold slice. destruct rest as [|r1 rest]; reflexivity. }
    rewrite Hfirst, digits_of_app in Hcover.
    exact Hcover.
  - destruct (Nat.eqb (String.length cleaned) 10) eqn:H10; [|reflexivity].
    apply Nat.eqb_eq in H10.
    rewrite !digits_of_app.
    change (digits_of "(") with "".
    change (digits_of ") ") with "". change (digits_of "-") with "".
    rewrite !append_nil_l.
    apply Hcover; lia.
Qed.

(** X4: [format_phone_number] changes the punctuation only: the digits of
    its result are the digits of the number it was given, in the same
    order, and formatting a formatted number changes nothing. *)
Theorem format_phone_number_keeps_the_digits (phone : string) :
  digits_of (format_phone_number phone) = digits_of phone
  /\ format_phone_number (format_phone_number phone)
     = format_phone_number phone.
Proof.
  pose proof (digits_of_format_phone_number phone) as Hdigits.
  split; [exact Hdigits|].
  unfold format_phone_number at 1. rewrite Hdigits.
  unfold format_phone_number.
  destruct (Nat.eqb (String.length (digits_of phone)) 11
            && match digits_of phone with
               | String c _ => Ascii.eqb c "1"
               | EmptyString => false
               end); [reflexivity|].
  destruct (Nat.eqb (String.length (digits_of phone)) 10); reflexivity.
Qed.

Example format_phone_number_examples :
  format_phone_number "+15133126863" = "+1 (513) 312-6863"
  /\ format_phone_number "513.312.6863" = "(513) 312-6863"
  /\ format_phone_number "312-6863" = "312-6863"
  /\ format_phone_number "25133126863" = "25133126863".
Proof. vm_compute. repeat split; reflexivity. Qed.

(** ** Normalisation of the carfax value *)

Lemma lower_char_idempotent (c : ascii) :
  Text.lower_char (Text.lower_char c) = Text.lower_char c.
Proof. destruct c as [[] [] [] [] [] [] [] []]; reflexivity. Qed.

Lemma lower_idempotent (s : string) :
  Text.lower (Text.lower s) = Text.lower s.
Proof.
  induction s as [|c s IH]; [reflexivity|].
  simpl. now rewrite lower_char_idempotent, IH.
Qed.

(** X5: [_normalize_carfax_value] gives nothing or one of "yes", "no",
    "unsure" and "check_carfax"; what it gives it leaves as it is when
    given it again, and the case of the letters of a string plays no
    part. *)
Theorem normalize_carfax_value_is_canonical (v : value) :
  match _normalize_carfax_value v with
  | Some r =>
      In r ["yes"; "no"; "unsure"; "check_carfax"]
      /\ _normalize_carfax_value (VStr r) = Some r
  | None => True
  end
  /\ forall s,
      _normalize_carfax_value (VStr (Text.lower s))
      = _normalize_carfax_value (VStr s).
Proof.
  assert (forall r, In r ["yes"; "no"; "unsure"; "check_carfax"] ->
                    _normalize_carfax_value (VStr r) = Some r) as Hfix.
  { intros r [<- | [<- | [<- | [<- | []]]]]; reflexivity. }
  split.
  - destruct v as [| b | n | s | t | o];
      cbv beta iota zeta delta [_normalize_carfax_value]; auto.
    + destruct b; (split; [simpl; tauto | reflexivity]).
    + destruct (existsb (String.eqb (Text.lower s))
                  ["yes"; "no"; "unsure"; "check_carfax"]) eqn:Hin; [|exact I].
      apply existsb_exists in Hin as (r & Hr & Heq).
      apply String.eqb_eq in Heq. rewrite Heq.
      split; [exact Hr | exact (Hfix r Hr)].
  - intros s. cbv beta iota zeta delta [_normalize_carfax_value].
    now rewrite lower_idempotent.
Qed.

(** ** A promise to get back and the classifier *)

Lemma get_back_patterns_are_acknowledgments (pattern : string) :
  In pattern get_back_patterns -> In pattern acknowledgment_patterns.
Proof.
  unfold get_back_patterns, acknowledgment_patterns. simpl. intuition.
Qed.

(** X6: a message in which [dealer_says_will_get_back] finds a promise to
    get back, and which has no digit and no dollar sign, is classified as
    holding no new information without a call of the model. *)
Theorem promise_to_get_back_is_no_new_information (message : string)
    (known_data : known_rendering) :
  dealer_says_will_get_back message = true ->
  (forall c, In c (String.list_ascii_of_string message) ->
             ~ In c (String.list_ascii_of_string "0123456789")) ->
  ~ In "$"%char (String.list_ascii_of_string message) ->
  message_contains_new_information true message known_data = Ret false.
Proof.
  intros Hback Hdigits Hdollar.
  assert (is_just_acknowledgment message = true) as Hack.
  { apply is_just_acknowledgment_spec. repeat split; auto.
    unfold dealer_says_will_get_back in Hback.
    apply existsb_exists in Hback as (pattern & Hin & Hfound).
    exists pattern. split; [|exact Hfound].
    now apply get_back_patterns_are_acknowledgments. }
  unfold message_contains_new_information. simpl negb. cbv iota.
  now rewrite Hack.
Qed.

(** ** The next weekend *)

Lemma date_add_days (d n : Z) : date (d + days n) = date d + n.
Proof.
  unfold date. change (days 1) with 86400000000.
  replace (d + days n) with (d + n * 86400000000)
    by (unfold days, hours, minutes, seconds; lia).
  apply Z.div_add. lia.
Qed.

Lemma days_until_saturday_spec (w : Z) :
  0 <= w < 7 ->
  let d := if (5 - w) mod 7 =? 0 then 7 else (5 - w) mod 7 in
  1 <= d <= 7 /\ (w + d) mod 7 = 5 /\ (w = 5 -> d = 7).
Proof.
  intros Hw.
  assert (w = 0 \/ w = 1 \/ w = 2 \/ w = 3 \/ w = 4 \/ w = 5 \/ w = 6)
    as Hcases by lia.
  destruct Hcases as [-> | [-> | [-> | [-> | [-> | [-> | ->]]]]]];
    vm_compute; repeat split; intros; congruence.
Qed.

(** X7: [get_next_saturday_sunday] gives a Saturday after today, seven days
    on at most (a week on when today is a Saturday), at the time of day of
    today, and the Sunday one day after it. *)
Theorem next_saturday_is_a_saturday (weekday_of_day_0 today : Z) :
  let saturday := fst (get_next_saturday_sunday weekday_of_day_0 today) in
  let sunday := snd (get_next_saturday_sunday weekday_of_day_0 today) in
  weekday weekday_of_day_0 saturday = 5
  /\ weekday weekday_of_day_0 sunday = 6
  /\ today + days 1 <= saturday <= today + days 7
  /\ sunday = saturday + days 1
  /\ saturday mod days 1 = today mod days 1
  /\ (weekday weekday_of_day_0 today = 5 -> saturday = today + days 7).
Proof.
  unfold get_next_saturday_sunday, weekday. simpl fst. simpl snd.
  set (w := (date today + weekday_of_day_0) mod 7).
  assert (0 <= w < 7) as Hw by (apply Z.mod_pos_bound; lia).
  set (d := if (5 - w) mod 7 =? 0 then 7 else (5 - w) mod 7).
  destruct (days_until_saturday_spec w Hw) as (Hd & Hsat & Hsame).
  fold d in Hd, Hsat, Hsame.
  assert (forall n, days n = n * 86400000000) as Hdays
      by (intros n; unfold days, hours, minutes, seconds; lia).
  assert (((date today + weekday_of_day_0) + d) mod 7 = 5) as Hsat'.
  { rewrite <- (Zplus_mod_idemp_l (date today + weekday_of_day_0) d 7).
    exact Hsat. }
  repeat split.
  - rewrite date_add_days.
    replace (date today + d + weekday_of_day_0)
      with ((date today + weekday_of_day_0) + d) by lia.
    exact Hsat'.
  - rewrite !date_add_days.
    replace (date today + d + 1 + weekday_of_day_0)
      with (((date today + weekday_of_day_0) + d) + 1) by lia.
    rewrite <- (Zplus_mod_idemp_l ((date today + weekday_of_day_0) + d) 1 7).
    rewrite Hsat'. reflexivity.
  - rewrite !Hdays. lia.
  - rewrite !Hdays. lia.
  - rewrite !Hdays. apply Z_mod_plus_full.
  - intros H5. now rewrite (Hsame H5).
Qed.

(** ** Serialisation of a document *)

Lemma pyval_induction (P : pyval -> Prop) :
  P PNone -> (forall b, P (PBool b)) -> (forall n, P (PNum n)) ->
  (forall s, P (PStr s)) -> (forall t, P (PDate t)) -> (forall o, P (POid o)) ->
  (forall items, Forall (fun item => P (snd item)) items -> P (PDict items)) ->
  (forall elements, Forall P elements -> P (PList elements)) ->
  forall v, P v.
Proof.
  intros HNone HBool HNum HStr HDate HOid HDict HList.
  fix IH 1. intros [| b | n | s | t | o | items | elements].
  - exact HNone.
  - apply HBool.
  - apply HNum.
  - apply HStr.
  - apply HDate.
  - apply HOid.
  - apply HDict. induction items as [|[key v] items IHitems];
      constructor; [apply IH | exact IHitems].
  - apply HList. induction elements as [|e elements IHelements];
      constructor; [apply IH | exact IHelements].
Qed.

Section Serialize.

Variable str_of_oid : oid -> string.
Variable isoformat : Z -> string.

Local Abbreviation ser := (serialize_document str_of_oid isoformat).
Local Abbreviation field := (serialize_field str_of_oid isoformat).

Lemma serialize_dict (items : list (string * pyval)) :
  ser (PDict items)
  = PDict (map (fun item => (fst item, field (snd item))) items).
Proof.
  simpl. f_equal. apply map_ext. now intros [key v].
Qed.

Lemma serialize_twice (v : pyval) :
  ser (ser v) = ser v /\ field (field v) = field v.
Proof.
  induction v as [| b | n | s | t | o | items IH | elements IH]
    using pyval_induction; try (split; reflexivity).
  - assert (ser (ser (PDict items)) = ser (PDict items)) as Hdict.
    { rewrite !serialize_dict, map_map. f_equal.
      apply List.map_ext_Forall.
      eapply List.Forall_impl; [|exact IH].
      intros [key v] [_ Hv]. simpl in *. now rewrite Hv. }
    split; exact Hdict.
  - split; [reflexivity|].
    unfold serialize_field. rewrite map_map. f_equal.
    apply List.map_ext_Forall.
    eapply List.Forall_impl; [|exact IH].
    intros e [He _]. exact He.
Qed.

Lemma serialize_fields_serialized (v : pyval) :
  fields_serialized (ser v) = true
  /\ match field v with
     | POid _ | PDate _ => False
     | PDict _ as d => fields_serialized d = true
     | PList elements =>
         forallb (fun e => match e with
                           | PDict _ => fields_serialized e
                           | _ => true
                           end) elements = true
     | _ => True
     end.
Proof.
  induction v as [| b | n | s | t | o | items IH | elements IH]
    using pyval_induction; try (split; [reflexivity | exact I]).
  - assert (fields_serialized (ser (PDict items)) = true) as Hdict.
    { rewrite serialize_dict. simpl. apply forallb_forall.
      intros item Hin. apply in_map_iff in Hin as [[key v] [<- Hin]].
      pose proof (proj1 (List.Forall_forall _ _) IH _ Hin) as [_ Hv].
      simpl in *. destruct (field v); try exact Hv; try reflexivity;
        contradiction. }
    split; [exact Hdict|]. exact Hdict.
  - split; [reflexivity|].
    unfold serialize_field. apply forallb_forall.
    intros e Hin. apply in_map_iff in Hin as [e0 [<- Hin]].
    pose proof (proj1 (List.Forall_forall _ _) IH _ Hin) as [He _].
    destruct (ser e0) eqn:E; try reflexivity.
    exact He.
Qed.

Lemma serialize_list_without_dict (elements : list pyval) :
  (forall e, In e elements ->
     match e with PDict _ => False | _ => True end) ->
  field (PList elements) = PList elements.
Proof.
  intros H. unfold serialize_field. f_equal.
  rewrite <- (map_id elements) at 2.
  apply map_ext_in. intros e Hin. specialize (H e Hin).
  destruct e; try reflexivity. contradiction.
Qed.

End Serialize.

(** X8: whatever the document, [serialize_document] returns one in which no
    dictionary reached through fields (and through the elements of a list
    that is a field) has an ObjectId or a datetime as the value of a field,
    and serialising the result again changes nothing. *)
Theorem serialize_document_is_a_normal_form (str_of_oid : oid -> string)
    (isoformat : Z -> string) (doc : pyval) :
  fields_serialized (serialize_document str_of_oid isoformat doc) = true
  /\ serialize_document str_of_oid isoformat
       (serialize_document str_of_oid isoformat doc)
     = serialize_document str_of_oid isoformat doc.
Proof.
  split.
  - apply serialize_fields_serialized.
  - apply serialize_twice.
Qed.

(** X9: the elements of a list are passed to [serialize_document] itself,
    which converts the fields of a dictionary only: a list that is the
    value of a field and has no dictionary among its elements is returned
    as it is, ObjectIds and datetimes included. *)
Theorem list_elements_are_not_serialized (str_of_oid : oid -> string)
    (isoformat : Z -> string) (key : string) (elements : list pyval) :
  (forall e, In e elements -> match e with PDict _ => False | _ => True end) ->
  serialize_document str_of_oid isoformat (PDict [(key, PList elements)])
  = PDict [(key, PList elements)].
Proof.
  intros H. rewrite serialize_dict.
  cbn [map fst snd]. now rewrite serialize_list_without_dict.
Qed.

(** ** Removal of a thread with its data *)

Lemma delete_many_when_found (q : Mongo.query) (c : collection) :
  (if Nat.ltb 0 (length (Mongo.find q c)) then delete_many q c else c)
  = delete_many q c.
Proof.
  destruct (Nat.ltb 0 (length (Mongo.find q c))) eqn:E; [reflexivity|].
  apply Nat.ltb_ge in E. unfold Mongo.find, delete_many in *.
  induction c as [|d c IH]; [reflexivity|].
  simpl in *. destruct (q d); simpl in *; [lia|].
  f_equal. apply IH. exact E.
Qed.

Lemma delete_messages_when_found (q : Mongo.query) (w : world) :
  (if Nat.ltb 0 (length (Mongo.find q (messages w)))
   then set_messages (delete_many q (messages w)) w else w)
  = set_messages (delete_many q (messages w)) w.
Proof.
  rewrite <- (delete_many_when_found q (messages w)).
  destruct (Nat.ltb 0 (length (Mongo.find q (messages w))));
    [reflexivity | now destruct w].
Qed.

Lemma delete_visits_when_found (q : Mongo.query) (w : world) :
  (if Nat.ltb 0 (length (Mongo.find q (visits w)))
   then set_visits (delete_many q (visits w)) w else w)
  = set_visits (delete_many q (visits w)) w.
Proof.
  rewrite <- (delete_many_when_found q (visits w)).
  destruct (Nat.ltb 0 (length (Mongo.find q (visits w))));
    [reflexivity | now destruct w].
Qed.

Lemma delete_one_In (q : Mongo.query) (c : collection)
    (d : oid * gmap string value) :
  In d (delete_one q c) -> In d c.
Proof.
  induction c as [|d0 c IH]; simpl; [auto|].
  destruct (q d0); simpl; intuition.
Qed.

Lemma delete_one_other (q : Mongo.query) (c : collection)
    (d : oid * gmap string value) :
  In d c -> q d = false -> In d (delete_one q c).
Proof.
  intros Hin Hq. induction c as [|d0 c IH]; simpl in *; [auto|].
  destruct Hin as [-> | Hin].
  - rewrite Hq. now left.
  - destruct (q d0); [exact Hin|]. right. auto.
Qed.

Lemma delete_one_by_id (id : oid) (c : collection)
    (d : oid * gmap string value) :
  List.NoDup (map fst c) -> In d (delete_one (Mongo.by_id id) c) ->
  fst d <> id.
Proof.
  intros Hnd. induction c as [|d0 c IH]; simpl; [tauto|].
  apply NoDup_cons_iff in Hnd as [Hfresh Hnd].
  unfold Mongo.by_id at 1. destruct (N.eqb (fst d0) id) eqn:E.
  - apply N.eqb_eq in E. intros Hin Heq. apply Hfresh.
    rewrite E, <- Heq. now apply in_map.
  - apply N.eqb_neq in E. intros [<- | Hin]; auto.
Qed.

(** X10: when the phone number has a thread (whose last message can be
    printed), [delete_thread_data] returns [True] and leaves no message and
    no visit of that thread, removes the thread and nothing else from the
    threads, removes no car listing of another thread and adds nothing;
    the messages and visits of the other threads stay, in their order. *)
Theorem delete_thread_data_purges_the_thread (phone_number : string)
    (w : world) (thread : oid * gmap string value) :
  List.NoDup (map fst (threads w)) ->
  List.NoDup (map fst (car_listings w)) ->
  Mongo.find_one (Mongo.by_field "phoneNumber" (VStr phone_number))
    (threads w) = Some thread ->
  match snd thread !! "lastMessage" with
  | Some (VStr _) | None => True
  | Some _ => False
  end ->
  let out := delete_thread_data phone_number w in
  fst out = Returned true
  /\ messages (snd out)
     = List.filter (fun d => negb (by_thread (fst thread) d)) (messages w)
  /\ visits (snd out)
     = List.filter (fun d => negb (by_thread (fst thread) d)) (visits w)
  /\ (forall d, In d (threads (snd out))
                <-> In d (threads w) /\ fst d <> fst thread)
  /\ (forall d, In d (car_listings (snd out)) -> In d (car_listings w))
  /\ (forall d, In d (car_listings w) -> by_thread (fst thread) d = false ->
                In d (car_listings (snd out)))
  /\ pending_responses (snd out) = pending_responses w
  /\ effects (snd out) = effects w.
Proof.
  intros Hnd Hndl Hfind Hprint out. subst out.
  apply find_one_Some in Hfind as Hthread. destruct Hthread as [Hin _].
  unfold delete_thread_data. rewrite Hfind.
  assert (forall (A : Type) (x y : A),
             match snd thread !! "lastMessage" with
             | Some (VStr _) | None => x
             | Some _ => y
             end = x) as Hmatch.
  { intros A x y. destruct (snd thread !! "lastMessage") as [[| | | | |]|];
      try contradiction; reflexivity. }
  rewrite Hmatch. clear Hmatch Hprint.
  cbv zeta. set (tid := fst thread).
  rewrite delete_messages_when_found, delete_visits_when_found.
  set (w1 := set_messages (delete_many (by_thread tid) (messages w)) w).
  assert (exists c2,
             match Mongo.find_one (by_thread tid) (car_listings w1) with
             | Some car_listing =>
                 set_car_listings
                   (delete_one (Mongo.by_id (fst car_listing))
                      (car_listings w1)) w1
             | None => w1
             end = set_car_listings c2 w1
             /\ (forall d, In d c2 -> In d (car_listings w))
             /\ (forall d, In d (car_listings w) ->
                     by_thread tid d = false -> In d c2))
    as (c2 & -> & Hsub & Hkeep).
  { subst w1. cbn [car_listings set_messages].
    destruct (Mongo.find_one (by_thread tid) (car_listings w)) as [cl|] eqn:E.
    - eexists. split; [reflexivity|]. split.
      + intros d. apply delete_one_In.
      + intros d Hd Hother. apply delete_one_other; [exact Hd|].
        apply find_one_Some in E as [Hcl Hq].
        unfold Mongo.by_id. apply N.eqb_neq. intros Heq.
        destruct d as [id doc], cl as [id' doc']. simpl in Heq. subst id'.
        rewrite (unique_by_id _ _ _ _ Hndl Hd Hcl) in Hother. congruence.
    - exists (car_listings w). split; [now destruct w|]. auto. }
  subst w1.
  cbn [fst snd threads messages visits car_listings pending_responses effects
         set_threads set_visits set_messages set_car_listings].
  repeat split; auto.
  - f_equal. apply existsb_exists. exists thread. split; [exact Hin|].
    apply N.eqb_refl.
  - eapply delete_one_In. eassumption.
  - eapply delete_one_by_id; [exact Hnd|]. eassumption.
  - intros [Hd Hne]. apply delete_one_other; [exact Hd|].
    now apply N.eqb_neq.
Qed.

(** ** The delayed reply *)


(** ** The runs of the engine, path by path *)

(** A run books nothing, or one visit: at the proposed time, at an
    alternative to it, or at a free slot of the fallback. *)
Lemma process_visit_scheduling_cases (client : bool) (env : sched_env)
    (thread_id : oid) (dealer : string) (visits : collection) :
  let out := process_visit_scheduling client env thread_id dealer visits in
  let end_date := now_ct env + days 2 in
  let existing_visits :=
    get_visit_availability (now_ct env) end_date visits in
  (snd out = visits
   /\ forall r, fst out = Some r -> visit_scheduled r = false)
  \/ exists t r,
      snd out = (visits ++ [booked_visit env thread_id t dealer])%list
      /\ fst out = Some r /\ visit_scheduled r = true
      /\ has_conflict t existing_visits = false
      /\ (now_ct env <= t
          /\ fst out
             = Some {| message := perfect_message t;
                       visit_scheduled := true |}
          /\ extraction env = Extracted true true (Some t)
          \/ (exists p off,
                 In off offsets /\ t = p + minutes off
                 /\ qualifies env p end_date existing_visits off)
          \/ free_slot (now_ct env) end_date existing_visits t).
Proof.
  intros out end_date existing_visits. subst out.
  assert (let r := propose_available_time env (now_ct env) end_date
                     existing_visits thread_id dealer (car_listing_id env)
                     visits in
          (snd r = visits
           /\ forall r', Some (fst r) = Some r' ->
                         visit_scheduled r' = false)
          \/ exists t r',
              snd r = (visits ++ [booked_visit env thread_id t dealer])%list
              /\ Some (fst r) = Some r' /\ visit_scheduled r' = true
              /\ has_conflict t existing_visits = false
              /\ (now_ct env <= t
                  /\ Some (fst r)
                     = Some {| message := perfect_message t;
                               visit_scheduled := true |}
                  /\ extraction env = Extracted true true (Some t)
                  \/ (exists p off,
                         In off offsets /\ t = p + minutes off
                         /\ qualifies env p end_date existing_visits off)
                  \/ free_slot (now_ct env) end_date existing_visits t))
    as Hfallback.
  { intros r. subst r.
    destruct (propose_available_time_books env (now_ct env) end_date
                existing_visits thread_id dealer (car_listing_id env) visits)
      as [[Hr Hv] | (c & Hfree & Hr & Hv)].
    - left. split; [exact Hv|]. intros r' [= <-]. exact Hr.
    - right. exists c. eexists. rewrite Hv.
      split; [reflexivity|]. split; [reflexivity|]. split; [exact Hr|].
      split; [apply Hfree|]. right. right. exact Hfree. }
  unfold process_visit_scheduling. fold end_date. fold existing_visits.
  destruct client; simpl negb; cbv iota.
  2: { left. split; [reflexivity | intros r; discriminate]. }
  destruct (extraction env) as [|dealer_date dealer_time parsed] eqn:Hex.
  { left. split; [reflexivity|]. now intros r [= <-]. }
  destruct (dealer_date && dealer_time) eqn:Hboth; [|exact Hfallback].
  apply andb_true_iff in Hboth as [-> ->].
  destruct parsed as [proposed_time|]; [|exact Hfallback].
  destruct (proposed_time <? now_ct env) eqn:Hpast; [exact Hfallback|].
  apply Z.ltb_ge in Hpast.
  destruct (has_conflict proposed_time existing_visits) eqn:Hconf.
  - destruct (find_next_available_time env proposed_time existing_visits
                end_date) as [alt|] eqn:Hf; [|exact Hfallback].
    apply find_next_available_time_Some in Hf
      as (off & Hoff & -> & Hq & _).
    right. eexists. eexists. simpl.
    split; [reflexivity|]. split; [reflexivity|]. split; [reflexivity|].
    split; [apply Hq|].
    right. left. exists proposed_time, off. auto.
  - right. exists proposed_time. eexists. simpl.
    split; [reflexivity|]. split; [reflexivity|]. split; [reflexivity|].
    split; [exact Hconf|]. left. auto.
Qed.

(** The context of a run holds every stored visit that is not cancelled
    and whose time lies in the window. *)
Lemma stored_visit_in_context (start_date0 end_date : Z)
    (visits : collection) (v : oid * gmap string value) (t0 : Z) :
  (forall t, from_bson (to_bson t) = t) ->
  (forall a b, a <= b -> to_bson a <= to_bson b) ->
  In v visits ->
  snd v !! "scheduledTime" = Some (VDate (to_bson t0)) ->
  value_is_str "cancelled" (snd v !! "status") = false ->
  start_date0 <= t0 <= end_date ->
  exists visit,
    In visit (get_visit_availability start_date0 end_date visits)
    /\ visit_time visit = t0.
Proof.
  intros Hround Hmono Hin Htime Hstatus Hwindow.
  eexists. split.
  - apply In_omap. exists v. split.
    + apply In_find. split; [exact Hin|].
      unfold availability_query. rewrite Htime, Hstatus.
      apply andb_true_iff. split; [|reflexivity].
      apply andb_true_iff. split; apply Z.leb_le; apply Hmono; lia.
    + unfold visit_entry. rewrite Htime. reflexivity.
  - unfold visit_time. simpl. apply Hround.
Qed.

(** X12: when every clock reading of the search for an alternative is not
    before the reading the run started with, a run never books a visit in
    the past: the visit it adds, if any, is at or after the run's current
    time; and unless it is the very time the dealer proposed, it is at
    most two days ahead. *)
Theorem booked_visit_is_not_in_the_past (client : bool) (env : sched_env)
    (thread_id : oid) (dealer_phone_number : string)
    (visits : collection) :
  (forall offset_minutes, now_ct env <= now_in_search env offset_minutes) ->
  let out := process_visit_scheduling client env thread_id
               dealer_phone_number visits in
  snd out = visits
  \/ exists t,
      snd out
      = (visits ++ [booked_visit env thread_id t dealer_phone_number])%list
      /\ now_ct env <= t
      /\ (t <= now_ct env + days 2
          \/ extraction env = Extracted true true (Some t)).
Proof.
  intros Hclock out. subst out.
  destruct (process_visit_scheduling_cases client env thread_id
              dealer_phone_number visits)
    as [[Hsame _] | (t & r & Hv & _ & _ & _ & Hpath)]; [now left|].
  right. exists t. split; [exact Hv|].
  destruct Hpath as [(Hnow & _ & Hex) | [(p & off & _ & -> & Hq) | Hfree]].
  - split; [exact Hnow | now right].
  - destruct Hq as [Hwindow _]. specialize (Hclock off).
    split; [lia | left; lia].
  - destruct Hfree as [Hwindow _]. split; [lia | left; lia].
Qed.

(** X13: with a driver that gives back the times it stored and keeps their
    order, a run books no visit less than an hour from a stored visit of
    any thread that is not cancelled and lies in the window of two days
    from now. *)
Theorem no_visit_within_an_hour_of_a_stored_one (client : bool)
    (env : sched_env) (thread_id : oid) (dealer_phone_number : string)
    (visits : collection) (v : oid * gmap string value) (t0 : Z) :
  (forall t, from_bson (to_bson t) = t) ->
  (forall a b, a <= b -> to_bson a <= to_bson b) ->
  In v visits ->
  snd v !! "scheduledTime" = Some (VDate (to_bson t0)) ->
  value_is_str "cancelled" (snd v !! "status") = false ->
  now_ct env <= t0 <= now_ct env + days 2 ->
  let out := process_visit_scheduling client env thread_id
               dealer_phone_number visits in
  snd out = visits
  \/ exists t,
      snd out
      = (visits ++ [booked_visit env thread_id t dealer_phone_number])%list
      /\ seconds 3600 <= Z.abs (t - t0).
Proof.
  intros Hround Hmono Hin Htime Hstatus Hwindow out. subst out.
  destruct (process_visit_scheduling_cases client env thread_id
              dealer_phone_number visits)
    as [[Hsame _] | (t & r & Hv & _ & _ & Hfree & _)]; [now left|].
  right. exists t. split; [exact Hv|].
  destruct (stored_visit_in_context (now_ct env) (now_ct env + days 2)
              visits v t0 Hround Hmono Hin Htime Hstatus Hwindow)
    as (visit & Hctx & <-).
  exact (proj1 (has_conflict_false _ _) Hfree visit Hctx).
Qed.

(** X14: with a driver that gives back the times it stored and reads
    stored times back in their order, a time the dealer proposes that lies
    an hour or more beyond the window of two days is booked as it is,
    whatever visits are stored: the context holds no visit after the
    window, so nothing can conflict with it, not even a visit stored for
    the same time. *)
Theorem proposal_beyond_the_window_is_booked_unchecked (env : sched_env)
    (thread_id : oid) (dealer_phone_number : string)
    (visits : collection) (proposed_time : Z) :
  (forall t, from_bson (to_bson t) = t) ->
  (forall a b, a <= b -> from_bson a <= from_bson b) ->
  extraction env = Extracted true true (Some proposed_time) ->
  now_ct env + days 2 + seconds 3600 <= proposed_time ->
  process_visit_scheduling true env thread_id dealer_phone_number visits
  = (Some {| message := perfect_message proposed_time;
             visit_scheduled := true |},
     (visits
      ++ [booked_visit env thread_id proposed_time dealer_phone_number])%list).
Proof.
  intros Hround Hmono Hex Hfar.
  assert (0 <= days 2 /\ 0 <= seconds 3600) as [Hd Hs]
      by (split; vm_compute; discriminate).
  unfold process_visit_scheduling. simpl negb. cbv iota. rewrite Hex.
  simpl andb. cbv iota.
  assert ((proposed_time <? now_ct env) = false) as ->
      by (apply Z.ltb_ge; lia).
  assert (has_conflict proposed_time
            (get_visit_availability (now_ct env) (now_ct env + days 2)
               visits) = false) as ->.
  { apply has_conflict_false. intros visit Hin.
    apply In_omap in Hin as (v & Hv & Hentry).
    apply In_find in Hv as [_ Hq].
    unfold availability_query, visit_entry in *.
    destruct (snd v !! "scheduledTime") as [[| | | |t|]|];
      try discriminate.
    injection Hentry as <-. unfold visit_time. simpl.
    apply andb_true_iff in Hq as [Hq _].
    apply andb_true_iff in Hq as [_ Hle]. apply Z.leb_le in Hle.
    apply Hmono in Hle. rewrite Hround in Hle. lia. }
  reflexivity.
Qed.

(** ** What the handler adds and what it leaves *)

Lemma outgoing_app (a b : list effect) :
  outgoing (a ++ b) = (outgoing a + outgoing b)%nat.
Proof. unfold outgoing. now rewrite List.filter_app, length_app. Qed.

Lemma outgoing_model_calls (requests : list llm_request) :
  outgoing (map ModelCall requests) = 0%nat.
Proof. induction requests as [|r rest IH]; [reflexivity | exact IH]. Qed.

Lemma grows_refl (w : world) (m v o : nat) : grows w w m v o.
Proof.
  repeat split; exists []; rewrite ?app_nil_r; simpl; auto with arith.
Qed.

Lemma grows_trans (w w1 w2 : world) (m1 v1 o1 m2 v2 o2 m v o : nat) :
  grows w w1 m1 v1 o1 -> grows w1 w2 m2 v2 o2 ->
  (m1 + m2 <= m)%nat -> (v1 + v2 <= v)%nat -> (o1 + o2 <= o)%nat ->
  grows w w2 m v o.
Proof.
  intros ((ms1 & Hm1 & Lm1) & (vs1 & Hv1 & Lv1) & (es1 & He1 & Le1)
          & (ts1 & Ht1))
         ((ms2 & Hm2 & Lm2) & (vs2 & Hv2 & Lv2) & (es2 & He2 & Le2)
          & (ts2 & Ht2)) Hm Hv Ho.
  repeat split.
  - exists (ms1 ++ ms2)%list. rewrite Hm2, Hm1, <- app_assoc, length_app.
    split; [reflexivity | lia].
  - exists (vs1 ++ vs2)%list. rewrite Hv2, Hv1, <- app_assoc, length_app.
    split; [reflexivity | lia].
  - exists (es1 ++ es2)%list. rewrite He2, He1, <- app_assoc, outgoing_app.
    split; [reflexivity | lia].
  - exists (ts1 ++ ts2)%list. now rewrite Ht2, Ht1, <- app_assoc.
Qed.

Lemma flag_not_raised_refl (key : string) (w : world) :
  flag_not_raised key w w.
Proof. intros id doc Hin Hflag. eauto. Qed.

Lemma flag_not_raised_trans (key : string) (w w1 w2 : world) :
  flag_not_raised key w w1 -> flag_not_raised key w1 w2 ->
  flag_not_raised key w w2.
Proof.
  intros H1 H2 id doc2 Hin Hflag.
  destruct (H2 id doc2 Hin Hflag) as (doc1 & Hin1 & Hflag1). eauto.
Qed.

Lemma thread_fields_kept_refl (changed : list string) (w : world) :
  thread_fields_kept changed w w.
Proof. intros id doc Hin. eauto. Qed.

Lemma thread_fields_kept_trans (changed : list string) (w w1 w2 : world) :
  thread_fields_kept changed w w1 -> thread_fields_kept changed w1 w2 ->
  thread_fields_kept changed w w2.
Proof.
  intros H1 H2 id doc Hin.
  destruct (H1 id doc Hin) as (doc1 & Hin1 & E1).
  destruct (H2 id doc1 Hin1) as (doc2 & Hin2 & E2).
  exists doc2. split; [exact Hin2|].
  intros key Hkey. rewrite E2, E1; auto.
Qed.

Lemma advances_refl {changed : list string} (w : world) (m v o : nat) (raise : bool) :
  advances changed m v o raise w w.
Proof.
  split; [apply grows_refl|]. split.
  - intros _. apply flag_not_raised_refl.
  - apply thread_fields_kept_refl.
Qed.

Lemma advances_trans {changed : list string} (w w1 w2 : world) (m1 v1 o1 m2 v2 o2 m v o : nat)
    (r1 r2 r : bool) :
  advances changed m1 v1 o1 r1 w w1 -> advances changed m2 v2 o2 r2 w1 w2 ->
  (m1 + m2 <= m)%nat -> (v1 + v2 <= v)%nat -> (o1 + o2 <= o)%nat ->
  (r = false -> r1 = false /\ r2 = false) ->
  advances changed m v o r w w2.
Proof.
  intros (Hg1 & Hf1 & Hk1) (Hg2 & Hf2 & Hk2) Hm Hv Ho Hr.
  split; [eapply grows_trans; eauto|]. split.
  - intros E. destruct (Hr E) as [E1 E2].
    eapply flag_not_raised_trans; eauto.
  - eapply thread_fields_kept_trans; eauto.
Qed.

(** A step that leaves the threads as they are. *)
Lemma advances_frame {changed : list string} (w w' : world) (m v o : nat) (raise : bool) :
  threads w' = threads w -> grows w w' m v o -> advances changed m v o raise w w'.
Proof.
  intros Ht Hg. split; [exact Hg|]. split.
  - intros _ id doc Hin Hflag. rewrite Ht in Hin. eauto.
  - intros id doc Hin. rewrite <- Ht in Hin. eauto.
Qed.

Lemma update_one_ids (q : Mongo.query) (update : gmap string value)
    (c : collection) :
  map fst (Mongo.update_one q update c) = map fst c.
Proof.
  induction c as [|d rest IH]; [reflexivity|].
  simpl. destruct (q d); simpl; [reflexivity | now rewrite IH].
Qed.

Lemma update_one_forward (q : Mongo.query) (update : gmap string value)
    (c : collection) (id : oid) (doc : gmap string value) :
  In (id, doc) c ->
  exists doc',
    In (id, doc') (Mongo.update_one q update c)
    /\ forall key, update !! key = None -> doc' !! key = doc !! key.
Proof.
  induction c as [|d rest IH]; simpl; [intros []|].
  intros [-> | Hin].
  - destruct (q (id, doc)).
    + exists (update ∪ doc). split; [now left|].
      intros key Hkey. now rewrite lookup_union_r.
    + exists doc. split; [now left | reflexivity].
  - destruct (q d).
    + exists doc. split; [now right | reflexivity].
    + destruct (IH Hin) as (doc' & Hin' & E). exists doc'.
      split; [now right | exact E].
Qed.

Lemma update_one_flag (q : Mongo.query) (update : gmap string value)
    (c : collection) (id : oid) (doc' : gmap string value) (key : string) :
  truthy (update !! key) = false ->
  In (id, doc') (Mongo.update_one q update c) ->
  truthy (doc' !! key) = true ->
  exists doc, In (id, doc) c /\ truthy (doc !! key) = true.
Proof.
  intros Hkey Hin Hflag.
  apply update_one_In in Hin as [Hold | (doc & Hd & ->)]; [eauto|].
  exists doc. split; [exact Hd|].
  destruct (update !! key) as [x|] eqn:E.
  - rewrite (lookup_union_Some_l _ _ _ _ E) in Hflag. congruence.
  - now rewrite lookup_union_r in Hflag.
Qed.

(** An update of a thread that writes fields of the handler only. *)
Lemma advances_update {changed : list string} (q : Mongo.query) (update : gmap string value)
    (w : world) (raise : bool) :
  (forall key, ~ In key changed -> update !! key = None) ->
  (raise = false -> truthy (update !! "conversationComplete") = false) ->
  advances changed 0 0 0 raise w
    (set_threads (Mongo.update_one q update (threads w)) w).
Proof.
  intros Hkeys Hflag. split; [|split].
  - repeat split; exists []; cbn [messages visits effects threads
                                   set_threads];
      rewrite ?app_nil_r, ?update_one_ids; auto.
  - intros E id doc' Hin Htrue. cbn [threads set_threads] in Hin.
    eapply update_one_flag; eauto.
  - intros id doc Hin. cbn [threads set_threads].
    destruct (update_one_forward q update _ _ _ Hin) as (doc' & Hin' & E).
    exists doc'. split; [exact Hin'|]. intros key Hkey. auto.
Qed.

Lemma advances_weaken {changed : list string} (w w' : world) (m v o m' v' o' : nat)
    (r r' : bool) :
  advances changed m v o r w w' ->
  (m <= m')%nat -> (v <= v')%nat -> (o <= o')%nat ->
  (r' = false -> r = false) ->
  advances changed m' v' o' r' w w'.
Proof.
  intros H Hm Hv Ho Hr.
  eapply advances_trans;
    [exact H | apply (advances_refl _ 0 0 0 false) | | | |];
    try lia. auto.
Qed.

Lemma advances_step {changed : list string} (w w1 w2 : world) (m1 v1 o1 m2 v2 o2 : nat)
    (r1 r2 : bool) :
  advances changed m1 v1 o1 r1 w w1 -> advances changed m2 v2 o2 r2 w1 w2 ->
  advances changed (m1 + m2) (v1 + v2) (o1 + o2) (r1 || r2) w w2.
Proof.
  intros H1 H2. eapply advances_trans; eauto.
  intros E. now apply orb_false_iff.
Qed.

Lemma advances_model_calls {changed : list string} (requests : list llm_request) (w : world) :
  advances changed 0 0 0 false w (model_calls requests w).
Proof.
  apply advances_frame; [reflexivity|].
  repeat split; [exists [] | exists [] | exists (map ModelCall requests)
                | exists []];
    cbn [messages visits effects threads model_calls add_effects];
    rewrite ?app_nil_r, ?outgoing_model_calls; auto.
Qed.

Lemma advances_add_effects {changed : list string} (es : list effect) (w : world) :
  advances changed 0 0 (outgoing es) false w (add_effects es w).
Proof.
  apply advances_frame; [reflexivity|].
  repeat split; [exists [] | exists [] | exists es | exists []];
    cbn [messages visits effects threads add_effects];
    rewrite ?app_nil_r; auto.
Qed.

Lemma advances_set_pending_responses {changed : list string} (p : gmap oid string) (w : world) :
  advances changed 0 0 0 false w (set_pending_responses p w).
Proof.
  apply advances_frame; [reflexivity|].
  repeat split; exists [];
    cbn [messages visits effects threads set_pending_responses];
    rewrite ?app_nil_r; auto.
Qed.

Lemma advances_set_car_listings {changed : list string} (c : collection) (w : world) :
  advances changed 0 0 0 false w (set_car_listings c w).
Proof.
  apply advances_frame; [reflexivity|].
  repeat split; exists [];
    cbn [messages visits effects threads set_car_listings];
    rewrite ?app_nil_r; auto.
Qed.

Lemma advances_insert_message {changed : list string} (id : oid) (data : gmap string value)
    (w : world) :
  advances changed 1 0 0 false w
    (set_messages (Mongo.insert_one id data (messages w)) w).
Proof.
  apply advances_frame; [reflexivity|].
  repeat split; [exists [(id, data)] | exists [] | exists [] | exists []];
    cbn [messages visits effects threads set_messages];
    rewrite ?app_nil_r; auto.
Qed.

Lemma advances_send_sms {changed : list string} (cfg : config) (env : webhook_env)
    (to body : string) (w : world) :
  advances changed 0 0 1 false w (snd (send_sms cfg env to body w)).
Proof.
  unfold send_sms. destruct (negb (mta_api_key cfg)); cbn [snd].
  - apply advances_refl.
  - apply (advances_add_effects [SmsSend to body]).
Qed.

(** The budgets and the flag of a chain of steps, summed up. *)
Tactic Notation "sum_up" tactic3(chain) :=
  eapply advances_weaken;
  [ chain | simpl; lia | simpl; lia | unfold outgoing; simpl; lia
    | simpl; solve [auto | discriminate] ].

Ltac untouched :=
  let key := fresh "key" in
  let Hkey := fresh "Hkey" in
  intros key Hkey; simpl in Hkey;
  repeat (rewrite lookup_insert_ne by (intros <-; tauto));
  first [ apply lookup_empty
        | apply lookup_singleton_ne; intros <-; tauto ].

Lemma advances_send_and_record {changed : list string} (cfg : config) (env : webhook_env)
    (thread_id : oid) (sender_phone body : string)
    (thread_update : option (gmap string value)) (w : world) :
  (forall update, thread_update = Some update ->
     (forall key, ~ In key changed -> update !! key = None)
     /\ truthy (update !! "conversationComplete") = false) ->
  advances changed 1 0 1 false w
    (send_and_record cfg env thread_id sender_phone body thread_update w).
Proof.
  intros Hupdate. unfold send_and_record.
  pose proof (advances_send_sms (changed := changed) cfg env sender_phone body w) as Hs.
  destruct (send_sms cfg env sender_phone body w) as [sent w1].
  cbn [snd] in Hs. destruct sent.
  - destruct thread_update as [update|].
    + destruct (Hupdate update eq_refl) as [Hkeys Hflag].
      sum_up (eapply advances_step; [exact Hs|];
              eapply advances_step; [apply advances_insert_message|];
              apply (advances_update _ update _ false); auto).
    + sum_up (eapply advances_step; [exact Hs|];
              apply advances_insert_message).
  - sum_up (exact Hs).
Qed.

Lemma advances_confirm_visit (cfg : config) (env : webhook_env)
    (thread_id : oid) (sender_phone ai_response : string) (w : world) :
  advances respond_fields 1 0 1 true w
    (confirm_visit cfg env thread_id sender_phone ai_response w).
Proof.
  unfold confirm_visit.
  sum_up (eapply advances_step;
          [apply (advances_send_and_record cfg env thread_id sender_phone
                    ai_response None w); intros ? [=]|];
          apply (advances_update _ _ _ true); [untouched | intros [=]]).
Qed.

Lemma advances_call_scheduling {changed : list string} (cfg : config) (env : webhook_env)
    (transcript : string) (thread_id : oid)
    (sender_phone message_body : string) (w : world) :
  let out := call_scheduling cfg env transcript thread_id sender_phone
               message_body w in
  advances changed 0 1 0 false w (snd out)
  /\ forall r, fst out = Some r -> visit_scheduled r = true ->
               exists b, visits (snd out) = (visits w ++ [b])%list.
Proof.
  intros out. subst out. unfold call_scheduling. cbn [fst snd].
  pose proof (process_visit_scheduling_cases (openai_client cfg) (sched env)
                thread_id sender_phone (visits w)) as Hcases.
  cbv zeta in Hcases.
  set (r := process_visit_scheduling (openai_client cfg) (sched env)
              thread_id sender_phone (visits w)) in *.
  set (w1 := if openai_client cfg
             then model_calls [AskProposedTime message_body transcript] w
             else w).
  assert (advances changed 0 0 0 false w w1) as H1.
  { subst w1. destruct (openai_client cfg);
      [apply advances_model_calls | apply advances_refl]. }
  assert (visits w1 = visits w) as Hv1
      by (subst w1; now destruct (openai_client cfg)).
  split.
  - assert (advances changed 0 1 0 false w1 (set_visits (snd r) w1)) as H2.
    { apply advances_frame; [reflexivity|].
      repeat split; cbn [messages visits effects threads set_visits];
        try (exists []; rewrite ?app_nil_r; simpl; auto; fail).
      rewrite Hv1.
      destruct Hcases as [[-> _] | (t & r0 & -> & _)].
      + exists []. rewrite app_nil_r. auto.
      + eexists. split; [reflexivity | simpl; lia]. }
    sum_up (eapply advances_step; [exact H1 | exact H2]).
  - intros r0 Hr0 Hs. cbn [visits set_visits].
    destruct Hcases as [[_ Hno] | (t & _ & -> & _)].
    + rewrite (Hno r0 Hr0) in Hs. discriminate.
    + eexists. reflexivity.
Qed.

Lemma advances_save_listing {changed : list string} (cfg : config) (env : webhook_env)
    (thread_id : oid) (sender_phone transcript : string) (w : world) :
  advances changed 0 0 0 false w
    (save_listing cfg env thread_id sender_phone transcript w)
  /\ visits (save_listing cfg env thread_id sender_phone transcript w)
     = visits w.
Proof.
  unfold save_listing.
  destruct (run (model env)
              (extract_car_listing_data (openai_client cfg)
                 (listing_of_reply env) transcript))
    as [extracted requests].
  pose proof (advances_model_calls (changed := changed) requests w) as H1.
  destruct extracted as [extracted_data|]; [|split; [exact H1|reflexivity]].
  destruct (Mongo.find_one (by_thread thread_id)
              (car_listings (model_calls requests w)));
    (split; [|reflexivity]);
    sum_up (eapply advances_step;
            [exact H1 | apply advances_set_car_listings]).
Qed.

Lemma advances_update_listing {changed : list string} (cfg : config) (env : webhook_env)
    (thread_id : oid) (car_listing : gmap string value)
    (transcript : string) (w : world) :
  advances changed 0 0 0 false w
    (update_listing cfg env thread_id car_listing transcript w)
  /\ visits (update_listing cfg env thread_id car_listing transcript w)
     = visits w.
Proof.
  unfold update_listing.
  destruct (truthy (car_listing !! "conversationComplete"));
    [split; [apply advances_refl | reflexivity]|].
  destruct (run (model env)
              (extract_car_listing_data (openai_client cfg)
                 (listing_of_reply env) transcript))
    as [extracted requests].
  pose proof (advances_model_calls (changed := changed) requests w) as H1.
  destruct extracted as [extracted_data|]; [|split; [exact H1|reflexivity]].
  split; [|reflexivity].
  sum_up (eapply advances_step;
          [exact H1 | apply advances_set_car_listings]).
Qed.

Lemma advances_visits {changed : list string} (w w' : world) (m o : nat) (raise : bool) :
  advances changed m 0 o raise w w' -> visits w' = visits w.
Proof.
  intros ((_ & (vs & Hv & Hl) & _) & _).
  destruct vs; [now rewrite app_nil_r in Hv | simpl in Hl; lia].
Qed.

(** The scheduling branches: the engine, and after a booking the
    confirmation and the car listing. *)
Lemma advances_schedule (cfg : config) (env : webhook_env)
    (transcript : string) (thread_id : oid)
    (sender_phone message_body : string) (w : world)
    (listing : world -> world) :
  (forall w0, advances respond_fields 0 0 0 false w0 (listing w0)) ->
  let out :=
    let (scheduling_result, w1) :=
      call_scheduling cfg env transcript thread_id sender_phone
        message_body w in
    match scheduling_result with
    | Some r =>
        if visit_scheduled r then
          let w2 := confirm_visit cfg env thread_id sender_phone
                      (message r) w1 in
          (ok "Visit scheduled, conversation complete", listing w2)
        else (ok "Message processed", w1)
    | None => (ok "Message processed", w1)
    end in
  exists raise,
    advances respond_fields 1 1 1 raise w (snd out)
    /\ (raise = true ->
        exists b, visits (snd out) = (visits w ++ [b])%list).
Proof.
  intros Hlisting.
  destruct (advances_call_scheduling (changed := respond_fields) cfg env transcript thread_id
              sender_phone message_body w) as [H1 Hbooked].
  cbv zeta in *.
  destruct (call_scheduling cfg env transcript thread_id sender_phone
              message_body w) as [scheduling_result w1].
  cbn [fst snd] in *.
  destruct scheduling_result as [r|].
  2: { exists false. split; [sum_up (exact H1) | discriminate]. }
  destruct (visit_scheduled r) eqn:Hr.
  2: { exists false. split; [sum_up (exact H1) | discriminate]. }
  destruct (Hbooked r eq_refl Hr) as [b Hb].
  pose proof (advances_confirm_visit cfg env thread_id sender_phone
                (message r) w1) as H2.
  pose proof (Hlisting (confirm_visit cfg env thread_id sender_phone
                          (message r) w1)) as H3.
  exists true. cbn [snd]. split.
  - sum_up (eapply advances_step; [exact H1|];
            eapply advances_step; [exact H2 | exact H3]).
  - intros _. exists b.
    rewrite (advances_visits _ _ _ _ _ H3), (advances_visits _ _ _ _ _ H2).
    exact Hb.
Qed.

Lemma advances_after {changed : list string} (w wc w' : world) :
  advances changed 0 0 0 false w wc ->
  (exists raise,
      advances changed 1 1 1 raise wc w'
      /\ (raise = true -> exists b, visits w' = (visits wc ++ [b])%list)) ->
  exists raise,
    advances changed 1 1 1 raise w w'
    /\ (raise = true -> exists b, visits w' = (visits w ++ [b])%list).
Proof.
  intros H (raise & H' & Hb). exists raise. split.
  - destruct raise; sum_up (eapply advances_step; [exact H | exact H']).
  - rewrite <- (advances_visits _ _ _ _ _ H). exact Hb.
Qed.

Ltac quiet_end :=
  exists false; split; [apply advances_refl | discriminate].

(** What an answer to a message of an open thread adds and leaves. *)
Lemma respond_invariant (cfg : config) (env : webhook_env)
    (thread : oid * gmap string value) (sender_phone message_body : string)
    (w : world) :
  let w' := snd (respond cfg env thread sender_phone message_body w) in
  exists raise,
    advances respond_fields 1 1 1 raise w w'
    /\ (raise = true -> exists b, visits w' = (visits w ++ [b])%list).
Proof.
  intros w'. subst w'. unfold respond.
  destruct (if truthy (snd thread !! "waitingForDealerResponse")
            then run (model env)
                   (message_contains_new_information (openai_client cfg)
                      message_body (KnownFields []))
            else (true, [])) as [has_new_info requests].
  apply (advances_after w (model_calls requests w));
    [apply advances_model_calls|].
  generalize (model_calls requests w). clear w requests. intros w.
  destruct (negb has_new_info); [cbn [snd]; quiet_end|].
  match goal with
  | |- context [pending_responses ?x !! _] =>
      apply (advances_after w x);
      [destruct (truthy (snd thread !! "waitingForDealerResponse"));
       [apply (advances_update _ _ _ false); [untouched | reflexivity]
       | apply advances_refl]
      | generalize x; clear w; intros w]
  end.
  match goal with
  | |- context [build_conversation_transcript _ _ (messages ?x)] =>
      apply (advances_after w x);
      [destruct (pending_responses w !! fst thread);
       [sum_up (eapply advances_step;
                [apply advances_set_pending_responses
                | apply advances_add_effects])
       | apply advances_refl]
      | generalize x; clear w; intros w]
  end.
  destruct (build_conversation_transcript py_str (fst thread) (messages w))
    as [transcript|]; [|cbn [snd]; quiet_end].
  destruct (run (model env)
              (get_ai_response (openai_client cfg) transcript
                 (KnownFields [])
                 (truthy (snd thread !! "waitingForDealerResponse"))))
    as [reply requests].
  apply (advances_after w (model_calls requests w));
    [apply advances_model_calls|].
  generalize (model_calls requests w). clear w requests. intros w.
  destruct reply as [ai_response|]; [|cbn [snd]; quiet_end].
  destruct (Text.contains "# WAITING #" ai_response).
  { cbn [snd]. exists false. split; [|discriminate].
    sum_up (apply advances_send_and_record).
    intros update [= <-]. split; [untouched | by simplify_map_eq]. }
  destruct (Text.contains "#SCHEDULE#" ai_response).
  { apply (advances_schedule cfg env transcript (fst thread) sender_phone
             message_body w
             (fun w0 => save_listing cfg env (fst thread) sender_phone
                          transcript w0)).
    intros w0. apply advances_save_listing. }
  destruct (run (model env)
              (check_if_message_about_visit_scheduling (openai_client cfg)
                 message_body)) as [about_visit requests].
  apply (advances_after w (model_calls requests w));
    [apply advances_model_calls|].
  generalize (model_calls requests w). clear w requests. intros w.
  destruct about_visit.
  - destruct (Mongo.find_one (by_thread (fst thread)) (car_listings w))
      as [car_listing|]; [|cbn [snd]; quiet_end].
    destruct (truthy (snd car_listing !! "make")
              && truthy (snd car_listing !! "model")
              && truthy (snd car_listing !! "year"));
      [|cbn [snd]; quiet_end].
    apply (advances_schedule cfg env transcript (fst thread) sender_phone
             message_body w
             (fun w0 => update_listing cfg env (fst thread)
                          (snd car_listing) transcript w0)).
    intros w0. apply advances_update_listing.
  - cbn [snd]. exists false. split; [|discriminate].
    sum_up (eapply advances_step;
            [apply advances_set_pending_responses
            | apply advances_add_effects]).
Qed.

Lemma advances_find_or_create_thread (env : webhook_env)
    (sender_phone message_body : string) (w w1 : world)
    (thread : oid * gmap string value) :
  find_or_create_thread env sender_phone message_body w
  = Some (thread, w1) ->
  advances handler_fields 0 0 0 false w w1.
Proof.
  unfold find_or_create_thread.
  destruct (Mongo.find_one
              (Mongo.by_field "phoneNumber" (VStr sender_phone))
              (threads w)) as [found|].
  - destruct (next_unread (snd found)) as [unread|]; [|discriminate].
    match goal with
    | |- context [Mongo.find_by_id _ (threads ?x)] =>
        destruct (Mongo.find_by_id (fst found) (threads x));
        [|discriminate]; intros [= _ <-]
    end.
    apply (advances_update _ _ _ false); [untouched | reflexivity].
  - match goal with
    | |- context [Mongo.find_by_id _ (threads ?x)] =>
        destruct (Mongo.find_by_id (new_thread_id env) (threads x));
        [|discriminate]; intros [= _ <-]
    end.
    split; [|split].
    + repeat split;
        [exists [] | exists [] | exists [] | exists [new_thread_id env]];
        cbn [messages visits effects threads set_threads];
        rewrite ?app_nil_r; auto.
      unfold Mongo.insert_one. now rewrite map_app.
    + intros _ id doc' Hin Hflag. cbn [threads set_threads] in Hin.
      unfold Mongo.insert_one in Hin.
      apply in_app_or in Hin as [Hin | [[= <- <-] | []]]; [eauto|].
      exfalso. revert Hflag. by simplify_map_eq.
    + intros id doc Hin. exists doc. split; [|reflexivity].
      cbn [threads set_threads]. unfold Mongo.insert_one.
      apply in_or_app. now left.
Qed.

Lemma advances_fields (changed changed' : list string) (w w' : world)
    (m v o : nat) (raise : bool) :
  (forall key, In key changed -> In key changed') ->
  advances changed m v o raise w w' -> advances changed' m v o raise w w'.
Proof.
  intros Hsub (Hg & Hf & Hk). split; [exact Hg|]. split; [exact Hf|].
  intros id doc Hin. destruct (Hk id doc Hin) as (doc' & Hin' & E).
  exists doc'. split; [exact Hin'|]. intros key Hkey. apply E. auto.
Qed.

(** What one run of the handler adds and leaves. *)
Lemma sms_webhook_invariant (cfg : config) (env : webhook_env)
    (webhook : SMSWebhook.t) (w : world) :
  let w' := snd (sms_webhook cfg env webhook w) in
  exists raise,
    advances handler_fields 2 1 1 raise w w'
    /\ (raise = true -> exists b, visits w' = (visits w ++ [b])%list).
Proof.
  intros w'. subst w'. unfold sms_webhook.
  assert (exists raise,
             advances handler_fields 2 1 1 raise w w
             /\ (raise = true ->
                 exists b, visits w = (visits w ++ [b])%list)) as Hstay
      by (exists false; split; [apply advances_refl | discriminate]).
  destruct (Text.is_empty (SMSWebhook.fromNumber webhook)
            || Text.is_empty (SMSWebhook.message webhook));
    [exact Hstay|].
  destruct (Re.search (Text.lower opt_in_pattern)
              (Text.lower (SMSWebhook.message webhook))); [exact Hstay|].
  destruct (find_or_create_thread env (SMSWebhook.fromNumber webhook)
              (SMSWebhook.message webhook) w) as [[thread w1]|] eqn:Hthread;
    [|exact Hstay].
  apply advances_find_or_create_thread in Hthread.
  match goal with
  | |- context [set_messages (Mongo.insert_one ?id ?data _) w1] =>
      pose proof (advances_insert_message (changed := handler_fields) id data w1) as Hstore;
      set (w2 := set_messages (Mongo.insert_one id data (messages w1)) w1)
        in *
  end.
  assert (advances handler_fields 1 0 0 false w w2) as Hpre
      by (sum_up (eapply advances_step; [exact Hthread | exact Hstore])).
  clearbody w2.
  destruct (truthy (snd thread !! "conversationComplete")).
  - exists false. split; [sum_up (exact Hpre) | discriminate].
  - destruct (respond_invariant cfg env thread
                (SMSWebhook.fromNumber webhook) (SMSWebhook.message webhook)
                w2) as (raise & Hrespond & Hbooked).
    apply (advances_fields respond_fields handler_fields) in Hrespond;
      [|intros key Hkey; now right].
    exists raise. split.
    + destruct raise;
        sum_up (eapply advances_step; [exact Hpre | exact Hrespond]).
    + rewrite <- (advances_visits _ _ _ _ _ Hpre). exact Hbooked.
Qed.

(** X15: whatever the webhook and the state, one run of the handler only
    adds to what is stored and sent: the messages, the visits and the
    effects it leaves start with those it found, in their order, and the
    ids of the threads likewise; it adds at most two messages (the one
    that came in and one reply) and at most one visit, and it calls
    [send_sms] or schedules a delayed reply at most once. *)
Theorem handler_only_appends (cfg : config) (env : webhook_env)
    (webhook : SMSWebhook.t) (w : world) :
  grows w (snd (sms_webhook cfg env webhook w)) 2 1 1.
Proof.
  destruct (sms_webhook_invariant cfg env webhook w) as (raise & H & _).
  apply H.
Qed.

(** X16: a run of the handler marks a conversation complete only when it
    books a visit: either no thread has a true [conversationComplete] that
    it did not have before, or the visits have grown by one. *)
Theorem complete_only_with_a_visit (cfg : config) (env : webhook_env)
    (webhook : SMSWebhook.t) (w : world) :
  let w' := snd (sms_webhook cfg env webhook w) in
  flag_not_raised "conversationComplete" w w'
  \/ exists visit, visits w' = (visits w ++ [visit])%list.
Proof.
  intros w'. subst w'.
  destruct (sms_webhook_invariant cfg env webhook w)
    as ([|] & (_ & Hflag & _) & Hbooked).
  - right. now apply Hbooked.
  - left. now apply Hflag.
Qed.

(** X17: a run of the handler removes no thread, and of the fields of a
    thread it changes none but the last message and its time, the unread
    count and the two flags; the phone number of a thread, for one, stays
    as it is. *)
Theorem handler_keeps_thread_fields (cfg : config) (env : webhook_env)
    (webhook : SMSWebhook.t) (w : world) :
  thread_fields_kept handler_fields w (snd (sms_webhook cfg env webhook w))
  /\ forall id doc,
       In (id, doc) (threads w) ->
       exists doc',
         In (id, doc') (threads (snd (sms_webhook cfg env webhook w)))
         /\ doc' !! "phoneNumber" = doc !! "phoneNumber".
Proof.
  destruct (sms_webhook_invariant cfg env webhook w)
    as (raise & (_ & _ & Hkept) & _).
  split; [exact Hkept|].
  intros id doc Hin. destruct (Hkept id doc Hin) as (doc' & Hin' & E).
  exists doc'. split; [exact Hin'|]. apply E.
  simpl. intuition discriminate.
Qed.

(** ** Messages the handler does not answer *)

Lemma lower_append (a b : string) :
  Text.lower (a +:+ b) = Text.lower a +:+ Text.lower b.
Proof.
  induction a as [|c a IH].
  - now rewrite !append_nil_l.
  - simpl Text.lower. rewrite !append_cons. simpl Text.lower.
    now rewrite IH.
Qed.

Lemma opt_in_pattern_plain : plain (Text.lower opt_in_pattern).
Proof. unfold plain. vm_compute. intuition discriminate. Qed.

(** X18: a message that holds the sentence of the automatic opt-in reply,
    in whatever letter case and with whatever text around it, is ignored:
    the handler answers with success and stores and sends nothing. *)
Theorem opt_in_message_is_ignored (cfg : config) (env : webhook_env)
    (webhook : SMSWebhook.t) (w : world) (before sentence after : string) :
  SMSWebhook.fromNumber webhook <> "" ->
  SMSWebhook.message webhook = before +:+ sentence +:+ after ->
  Text.lower sentence = Text.lower opt_in_pattern ->
  sms_webhook cfg env webhook w = (ok "Opt-in message ignored", w).
Proof.
  intros Hsender Hmessage Hsentence. unfold sms_webhook.
  assert (Text.is_empty (SMSWebhook.fromNumber webhook) = false) as ->
      by (now apply String.eqb_neq).
  assert (Re.search (Text.lower opt_in_pattern)
            (Text.lower (SMSWebhook.message webhook)) = true) as Hfound.
  { apply (search_plain _ _ opt_in_pattern_plain).
    exists (Text.lower before), (Text.lower after).
    now rewrite Hmessage, !lower_append, Hsentence. }
  assert (Text.is_empty (SMSWebhook.message webhook) = false) as ->.
  { apply String.eqb_neq. intros Hempty. rewrite Hempty in Hfound.
    vm_compute in Hfound. discriminate. }
  simpl orb. cbv iota. now rewrite Hfound.
Qed.

(** X19: while a thread waits for the dealer, a message that is a plain
    acknowledgment (a pattern of the fast path, no digit, no dollar sign)
    is stored and nothing else happens: the handler answers that there is
    no new information, calls no model, sends no SMS, cancels and creates no
    task, leaves the visits and the car listings, and the thread stays
    waiting. *)
Theorem acknowledgment_while_waiting_gets_no_reply (cfg : config)
    (env : webhook_env) (webhook : SMSWebhook.t) (w : world)
    (thread : oid * gmap string value) :
  List.NoDup (map fst (threads w)) ->
  openai_client cfg = true ->
  SMSWebhook.fromNumber webhook <> "" ->
  Re.search (Text.lower opt_in_pattern)
    (Text.lower (SMSWebhook.message webhook)) = false ->
  Mongo.find_one
    (Mongo.by_field "phoneNumber" (VStr (SMSWebhook.fromNumber webhook)))
    (threads w) = Some thread ->
  truthy (snd thread !! "conversationComplete") = false ->
  truthy (snd thread !! "waitingForDealerResponse") = true ->
  next_unread (snd thread) <> None ->
  is_just_acknowledgment (SMSWebhook.message webhook) = true ->
  let out := sms_webhook cfg env webhook w in
  fst out
  = Response true
      "Waiting for dealer response, no new information in message"
  /\ effects (snd out) = effects w
  /\ visits (snd out) = visits w
  /\ car_listings (snd out) = car_listings w
  /\ pending_responses (snd out) = pending_responses w
  /\ (exists stored,
         messages (snd out)
         = (messages w ++ [(new_message_id env, stored)])%list
         /\ stored !! "body" = Some (VStr (SMSWebhook.message webhook))
         /\ stored !! "direction" = Some (VStr "inbound")
         /\ stored !! "threadId" = Some (VOid (fst thread)))
  /\ forall id doc',
       In (id, doc') (threads (snd out)) ->
       exists doc,
         In (id, doc) (threads w)
         /\ doc' !! "conversationComplete" = doc !! "conversationComplete"
         /\ doc' !! "waitingForDealerResponse"
            = doc !! "waitingForDealerResponse".
Proof.
  intros Hnd Hclient Hsender Hopt Hfind Hcomplete Hwaiting Hunread Hack out.
  subst out.
  apply find_one_Some in Hfind as Hthread. destruct Hthread as [Hin _].
  unfold sms_webhook.
  assert (Text.is_empty (SMSWebhook.fromNumber webhook) = false) as ->
      by (now apply String.eqb_neq).
  assert (Text.is_empty (SMSWebhook.message webhook) = false) as ->.
  { apply String.eqb_neq. intros Hempty. rewrite Hempty in Hack.
    vm_compute in Hack. discriminate. }
  simpl orb. cbv iota. rewrite Hopt.
  unfold find_or_create_thread. rewrite Hfind.
  destruct (next_unread (snd thread)) as [unread|]; [|congruence].
  cbn [threads set_threads].
  rewrite (find_by_id_update_one _ _ _ Hnd Hin).
  cbn [fst snd].
  rewrite lookup_union_r by (by simplify_map_eq).
  rewrite Hcomplete.
  unfold respond. cbn [fst snd].
  rewrite lookup_union_r by (by simplify_map_eq).
  rewrite Hwaiting, Hclient.
  unfold message_contains_new_information. simpl negb. cbv iota.
  rewrite Hack. cbn [run negb fst snd model_calls add_effects map
                       effects visits car_listings pending_responses
                       messages threads set_messages set_threads].
  rewrite app_nil_r.
  repeat split.
  - eexists. split; [reflexivity|].
    unfold inbound_message. repeat split; by simplify_map_eq.
  - intros id doc' Hin'.
    assert (forall key,
               key = "conversationComplete"
               \/ key = "waitingForDealerResponse" ->
               exists doc,
                 In (id, doc) (threads w) /\ doc' !! key = doc !! key)
      as Hkeep.
    { intros key Hkey. eapply update_one_keeps; [|exact Hin'].
      destruct Hkey as [-> | ->]; by simplify_map_eq. }
    destruct (Hkeep "conversationComplete") as (doc & Hd & Hc);
      [now left|].
    destruct (Hkeep "waitingForDealerResponse") as (doc2 & Hd2 & Hw);
      [now right|].
    exists doc. repeat split; auto.
    now rewrite (unique_by_id _ _ _ _ Hnd Hd Hd2).
Qed.

(** ** The first message of a dealer *)

Lemma find_by_id_insert_fresh (id : oid) (data : gmap string value)
    (c : collection) :
  ~ In id (map fst c) ->
  Mongo.find_by_id id (Mongo.insert_one id data c) = Some (id, data).
Proof.
  unfold Mongo.find_by_id, Mongo.find_one, Mongo.insert_one, Mongo.by_id.
  induction c as [|d rest IH]; simpl.
  - intros _. now rewrite N.eqb_refl.
  - intros Hfresh. destruct (N.eqb (fst d) id) eqn:E.
    + apply N.eqb_eq in E. tauto.
    + apply IH. tauto.
Qed.

(** X20: a message from a number that has no thread opens one: when the id
    the thread is given is new, the threads the handler leaves hold a
    thread of that id with the sender's number and an unread count of 1,
    and the message is stored under it, as the first of at most two
    messages the run adds. *)
Theorem first_message_opens_a_thread (cfg : config) (env : webhook_env)
    (webhook : SMSWebhook.t) (w : world) :
  ~ In (new_thread_id env) (map fst (threads w)) ->
  SMSWebhook.fromNumber webhook <> "" ->
  SMSWebhook.message webhook <> "" ->
  Re.search (Text.lower opt_in_pattern)
    (Text.lower (SMSWebhook.message webhook)) = false ->
  Mongo.find_one
    (Mongo.by_field "phoneNumber" (VStr (SMSWebhook.fromNumber webhook)))
    (threads w) = None ->
  let out := sms_webhook cfg env webhook w in
  (exists doc,
      In (new_thread_id env, doc) (threads (snd out))
      /\ doc !! "phoneNumber"
         = Some (VStr (SMSWebhook.fromNumber webhook))
      /\ doc !! "unreadCount" = Some (VInt 1))
  /\ exists stored replies,
      messages (snd out)
      = (messages w ++ (new_message_id env, stored) :: replies)%list
      /\ (length replies <= 1)%nat
      /\ stored !! "threadId" = Some (VOid (new_thread_id env))
      /\ stored !! "body" = Some (VStr (SMSWebhook.message webhook))
      /\ stored !! "direction" = Some (VStr "inbound").
Proof.
  intros Hfresh Hsender Hbody Hopt Hfind out. subst out.
  unfold sms_webhook.
  assert (Text.is_empty (SMSWebhook.fromNumber webhook) = false) as ->
      by (now apply String.eqb_neq).
  assert (Text.is_empty (SMSWebhook.message webhook) = false) as ->
      by (now apply String.eqb_neq).
  simpl orb. cbv iota. rewrite Hopt.
  unfold find_or_create_thread. rewrite Hfind.
  cbn [threads set_threads].
  rewrite (find_by_id_insert_fresh _ _ _ Hfresh).
  cbn [fst snd].
  match goal with
  | |- context [truthy (?data !! "conversationComplete")] =>
      assert (truthy (data !! "conversationComplete") = false) as ->
        by (by simplify_map_eq);
      set (thread_data := data)
  end.
  match goal with
  | |- context [respond cfg env ?t ?s ?b ?x] =>
      destruct (respond_invariant cfg env t s b x)
        as (raise & (Hgrows & _ & Hkept) & _);
      set (w' := snd (respond cfg env t s b x)) in *
  end.
  destruct Hgrows as ((replies & Hmessages & Hlength) & _).
  cbn [messages set_messages set_threads] in Hmessages.
  split.
  - assert (In (new_thread_id env, thread_data)
              (threads
                 (set_messages
                    (Mongo.insert_one (new_message_id env)
                       (inbound_message env (new_thread_id env)
                          (SMSWebhook.fromNumber webhook)
                          match SMSWebhook.toNumber webhook with
                          | Some t => if Text.is_empty t then "unknown" else t
                          | None => "unknown"
                          end (SMSWebhook.message webhook) webhook)
                       (messages w))
                    (set_threads
                       (Mongo.insert_one (new_thread_id env) thread_data
                          (threads w)) w)))) as Hnew.
    { cbn [threads set_messages set_threads]. unfold Mongo.insert_one.
      apply in_or_app. right. now left. }
    destruct (Hkept (new_thread_id env) thread_data Hnew)
      as (doc & Hdoc & Hsame).
    exists doc. split; [exact Hdoc|].
    rewrite !Hsame by (simpl; intuition discriminate).
    subst thread_data. split; by simplify_map_eq.
  - eexists. exists replies. split.
    + rewrite Hmessages. unfold Mongo.insert_one.
      now rewrite <- app_assoc.
    + split; [exact Hlength|].
      unfold inbound_message. repeat split; by simplify_map_eq.
Qed.

(** ** The unread count *)

Lemma update_one_other (q : Mongo.query) (update : gmap string value)
    (c : collection) (d : oid * gmap string value) :
  In d c -> q d = false -> In d (Mongo.update_one q update c).
Proof.
  intros Hin Hq. induction c as [|d0 rest IH]; simpl in *; [auto|].
  destruct Hin as [-> | Hin].
  - rewrite Hq. now left.
  - destruct (q d0); right; auto.
Qed.

(** X25: a message for a thread that is there counts as one unread message:
    when the handler does not fail, the thread it leaves has the unread
    count it had plus one (or 1 when it had none), whatever the answer to
    the message is, and the unread count of every other thread is as it
    was. *)
Theorem unread_count_goes_up_by_one (cfg : config) (env : webhook_env)
    (webhook : SMSWebhook.t) (w : world)
    (thread : oid * gmap string value) (unread : Z) :
  List.NoDup (map fst (threads w)) ->
  SMSWebhook.fromNumber webhook <> "" ->
  SMSWebhook.message webhook <> "" ->
  Re.search (Text.lower opt_in_pattern)
    (Text.lower (SMSWebhook.message webhook)) = false ->
  Mongo.find_one
    (Mongo.by_field "phoneNumber" (VStr (SMSWebhook.fromNumber webhook)))
    (threads w) = Some thread ->
  next_unread (snd thread) = Some unread ->
  let out := sms_webhook cfg env webhook w in
  (exists doc,
      In (fst thread, doc) (threads (snd out))
      /\ doc !! "unreadCount" = Some (VInt unread))
  /\ forall id doc,
       In (id, doc) (threads w) -> id <> fst thread ->
       exists doc',
         In (id, doc') (threads (snd out))
         /\ doc' !! "unreadCount" = doc !! "unreadCount".
Proof.
  intros Hnd Hsender Hbody Hopt Hfind Hunread out. subst out.
  apply find_one_Some in Hfind as Hthread. destruct Hthread as [Hin _].
  unfold sms_webhook.
  assert (Text.is_empty (SMSWebhook.fromNumber webhook) = false) as ->
      by (now apply String.eqb_neq).
  assert (Text.is_empty (SMSWebhook.message webhook) = false) as ->
      by (now apply String.eqb_neq).
  simpl orb. cbv iota. rewrite Hopt.
  unfold find_or_create_thread. rewrite Hfind, Hunread.
  cbn [threads set_threads].
  pose proof (find_by_id_update_one
                {[ "lastMessage" := VStr (SMSWebhook.message webhook);
                   "lastMessageTime" := VDate (timestamp env);
                   "unreadCount" := VInt unread ]}
                _ _ Hnd Hin) as Hread.
  rewrite Hread. apply find_one_Some in Hread as [Hin1 _].
  set (threads1 :=
         Mongo.update_one (Mongo.by_id (fst thread))
           {[ "lastMessage" := VStr (SMSWebhook.message webhook);
              "lastMessageTime" := VDate (timestamp env);
              "unreadCount" := VInt unread ]} (threads w)) in *.
  set (thread1 :=
         (fst thread,
          {[ "lastMessage" := VStr (SMSWebhook.message webhook);
             "lastMessageTime" := VDate (timestamp env);
             "unreadCount" := VInt unread ]} ∪ snd thread)) in *.
  assert (snd thread1 !! "unreadCount" = Some (VInt unread)) as Hcount
      by (subst thread1; cbn [snd]; by simplify_map_eq).
  assert (forall id doc,
             In (id, doc) (threads w) -> id <> fst thread ->
             In (id, doc) threads1) as Hothers.
  { intros id doc Hd Hid. apply update_one_other; [exact Hd|].
    unfold Mongo.by_id. now apply N.eqb_neq. }
  match goal with
  | |- context [set_messages ?c (set_threads threads1 w)] =>
      set (w2 := set_messages c (set_threads threads1 w))
  end.
  assert (threads w2 = threads1) as Hthreads2 by reflexivity.
  clearbody w2 threads1.
  assert (exists w',
             (if truthy (snd thread1 !! "conversationComplete")
              then (ok "Conversation complete, no response sent", w2)
              else respond cfg env thread1 (SMSWebhook.fromNumber webhook)
                     (SMSWebhook.message webhook) w2).2 = w'
             /\ thread_fields_kept respond_fields w2 w')
    as (w' & -> & Hkept).
  { eexists. split; [reflexivity|].
    destruct (truthy (snd thread1 !! "conversationComplete")).
    - apply thread_fields_kept_refl.
    - destruct (respond_invariant cfg env thread1
                  (SMSWebhook.fromNumber webhook)
                  (SMSWebhook.message webhook) w2)
        as (raise & (_ & _ & Hkept) & _).
      exact Hkept. }
  split.
  - destruct (Hkept (fst thread) (snd thread1)) as (doc & Hdoc & Hsame).
    { rewrite Hthreads2. exact Hin1. }
    exists doc. split; [exact Hdoc|].
    rewrite Hsame by (simpl; intuition discriminate). exact Hcount.
  - intros id doc Hd Hid.
    destruct (Hkept id doc) as (doc' & Hdoc' & Hsame).
    { rewrite Hthreads2. now apply Hothers. }
    exists doc'. split; [exact Hdoc'|].
    apply Hsame. simpl. intuition discriminate.
Qed.

(** ** The check for a message about a visit *)

Lemma strip_prefix_spec (p s rest : string) :
  Text.strip_prefix p s = Some rest <-> s = p +:+ rest.
Proof.
  revert s. induction p as [|a p IH]; intros s.
  - simpl. rewrite append_nil_l. split; [now intros [= ->] | now intros ->].
  - destruct s as [|b s]; simpl.
    + rewrite append_cons. split; discriminate.
    + rewrite append_cons. destruct (Ascii.eqb a b) eqn:E.
      * apply Ascii.eqb_eq in E as ->. rewrite IH.
        split; [now intros -> | now intros [= ->]].
      * apply Ascii.eqb_neq in E. split; [discriminate|].
        intros [= <- _]. congruence.
Qed.

Lemma contains_spec (sub s : string) :
  Text.contains sub s = true
  <-> exists before after, s = before +:+ sub +:+ after.
Proof.
  induction s as [|c s IH].
  - cbn [Text.contains].
    destruct (Text.strip_prefix sub "") as [rest|] eqn:E.
    + apply strip_prefix_spec in E. split; [|reflexivity].
      intros _. exists "", rest. now rewrite append_nil_l.
    + split; [discriminate|]. intros (before & after & H).
      destruct before as [|b before];
        [|rewrite append_cons in H; discriminate].
      rewrite append_nil_l in H.
      apply (proj2 (strip_prefix_spec _ _ _)) in H. congruence.
  - cbn [Text.contains].
    destruct (Text.strip_prefix sub (String c s)) as [rest|] eqn:E.
    + apply strip_prefix_spec in E. split; [|reflexivity].
      intros _. exists "", rest. now rewrite append_nil_l.
    + rewrite IH. split.
      * intros (before & after & ->). exists (String c before), after.
        now rewrite append_cons.
      * intros (before & after & H).
        destruct before as [|b before].
        -- rewrite append_nil_l in H.
           apply (proj2 (strip_prefix_spec _ _ _)) in H. congruence.
        -- rewrite append_cons in H. injection H as _ ->. eauto.
Qed.

(** X21: without a client of the model, or when the call of the model
    raises, the check for a message about a visit answers by the keywords
    alone: it is True exactly when the lower-cased message holds one of
    the nineteen keywords. *)
Theorem visit_check_falls_back_to_keywords (client : bool)
    (model : llm_request -> llm_reply) (message : string) :
  client = false \/ model (AskVisitScheduling message) = LlmRaised ->
  fst (run model (check_if_message_about_visit_scheduling client message))
  = true
  <-> exists keyword before after,
        In keyword visit_keywords
        /\ Text.lower message = before +:+ keyword +:+ after.
Proof.
  intros Hfail.
  assert (fst (run model
                 (check_if_message_about_visit_scheduling client message))
          = keyword_fallback message) as ->.
  { unfold check_if_message_about_visit_scheduling.
    destruct client; simpl; [|reflexivity].
    destruct Hfail as [Hclient | ->]; [discriminate | reflexivity]. }
  unfold keyword_fallback. rewrite existsb_exists. split.
  - intros (keyword & Hin & Hfound).
    apply contains_spec in Hfound as (before & after & Hfound). eauto.
  - intros (keyword & before & after & Hin & Hfound).
    exists keyword. split; [exact Hin|]. apply contains_spec. eauto.
Qed.

(** ** [delete_visit] *)

(** X22: [delete_visit] raises NameError whatever it is given, since
    [ObjectId] is not a global of [utils.py] and the function does not
    import it: no visit is ever deleted by it.  Were [ObjectId] bound, it
    would remove the visit of the given id and no other (ids being unique)
    and return whether there was one. *)
Theorem delete_visit_raises_name_error (visit_id : oid)
    (visits : collection) :
  delete_visit utils_globals visit_id visits = (Raised "NameError", visits)
  /\ forall globals,
       bound "ObjectId" globals = true ->
       List.NoDup (map fst visits) ->
       let out := delete_visit globals visit_id visits in
       (forall d, In d (snd out) <-> In d visits /\ fst d <> visit_id)
       /\ (fst out = Returned true <-> In visit_id (map fst visits)).
Proof.
  split; [reflexivity|].
  intros globals Hbound Hnd out. subst out. unfold delete_visit.
  rewrite Hbound. cbn [negb fst snd]. split.
  - intros d. split.
    + intros Hin. split; [now apply delete_one_In in Hin|].
      now apply (delete_one_by_id _ _ _ Hnd Hin).
    + intros [Hin Hne]. apply delete_one_other; [exact Hin|].
      now apply N.eqb_neq.
  - split.
    + intros [= Hfound]. apply existsb_exists in Hfound as (d & Hin & Hd).
      apply N.eqb_eq in Hd as <-. now apply in_map.
    + intros Hin. f_equal. apply existsb_exists.
      apply in_map_iff in Hin as (d & <- & Hin).
      exists d. split; [exact Hin | apply N.eqb_refl].
Qed.

(** ** The answers of the handler *)

Lemma find_by_id_present (id : oid) (c : collection) :
  In id (map fst c) -> exists d, Mongo.find_by_id id c = Some d.
Proof.
  unfold Mongo.find_by_id, Mongo.find_one, Mongo.by_id.
  induction c as [|d rest IH]; simpl; [intros []|].
  destruct (N.eqb (fst d) id) eqn:E; [eauto|].
  apply N.eqb_neq in E. intros [H | H]; [congruence | auto].
Qed.

Lemma respond_answers (cfg : config) (env : webhook_env)
    (thread : oid * gmap string value) (sender_phone message_body : string)
    (w : world) :
  exists text,
    fst (respond cfg env thread sender_phone message_body w) = ok text.
Proof.
  unfold respond.
  repeat match goal with
         | |- context [match ?x with _ => _ end] => destruct x
         end;
    eexists; reflexivity.
Qed.

(** X23: with the database answering, the handler answers with an error in
    two cases only, and then with status 500 and with everything left as it
    was: when the sender or the message is missing (the status 400 raised
    for it is caught by the handler's own [except] and turned into 500),
    and when the unread count of the sender's thread is a value that 1
    cannot be added to. *)
Theorem handler_fails_with_500_and_no_change (cfg : config)
    (env : webhook_env) (webhook : SMSWebhook.t) (w : world) :
  let out := sms_webhook cfg env webhook w in
  (forall status,
      fst out = HTTPError status -> status = 500 /\ snd out = w)
  /\ (fst out = HTTPError 500
      <-> SMSWebhook.fromNumber webhook = ""
          \/ SMSWebhook.message webhook = ""
          \/ (Re.search (Text.lower opt_in_pattern)
                (Text.lower (SMSWebhook.message webhook)) = false
              /\ exists thread,
                  Mongo.find_one
                    (Mongo.by_field "phoneNumber"
                       (VStr (SMSWebhook.fromNumber webhook)))
                    (threads w) = Some thread
                  /\ next_unread (snd thread) = None)).
Proof.
  intros out. subst out. unfold sms_webhook.
  destruct (Text.is_empty (SMSWebhook.fromNumber webhook)) eqn:Hs.
  { apply String.eqb_eq in Hs. simpl. split; [now intros status [= <-]|].
    split; auto. }
  destruct (Text.is_empty (SMSWebhook.message webhook)) eqn:Hm.
  { apply String.eqb_eq in Hm. simpl. split; [now intros status [= <-]|].
    split; auto. }
  apply String.eqb_neq in Hs, Hm. simpl orb. cbv iota.
  destruct (Re.search (Text.lower opt_in_pattern)
              (Text.lower (SMSWebhook.message webhook))) eqn:Hopt.
  { simpl. split; [discriminate|]. split; [discriminate|].
    intros [H | [H | [H _]]]; congruence. }
  unfold find_or_create_thread.
  destruct (Mongo.find_one
              (Mongo.by_field "phoneNumber"
                 (VStr (SMSWebhook.fromNumber webhook)))
              (threads w)) as [thread|] eqn:Hfind.
  - destruct (next_unread (snd thread)) as [unread|] eqn:Hunread.
    + cbn [threads set_threads].
      destruct (find_by_id_present (fst thread)
                  (Mongo.update_one (Mongo.by_id (fst thread))
                     {[ "lastMessage" := VStr (SMSWebhook.message webhook);
                        "lastMessageTime" := VDate (timestamp env);
                        "unreadCount" := VInt unread ]}
                     (threads w))) as [thread' ->].
      { rewrite update_one_ids. apply in_map.
        now apply find_one_Some in Hfind. }
      match goal with
      | |- context [if ?b then (?a, ?x) else respond ?c ?e ?t ?s ?m ?y] =>
          assert (exists text,
                     fst (if b then (a, x) else respond c e t s m y)
                     = ok text) as [text Htext]
            by (destruct b; [eexists; reflexivity | apply respond_answers])
      end.
      rewrite Htext. split; [discriminate|]. split; [discriminate|].
      intros [H | [H | (_ & thread0 & [= <-] & H)]]; congruence.
    + simpl. split; [now intros status [= <-]|]. split; [|reflexivity].
      intros _. right. right. split; [reflexivity|]. eauto.
  - cbn [threads set_threads].
    match goal with
    | |- context [Mongo.find_by_id ?id ?c] =>
        destruct (find_by_id_present id c) as [thread' ->];
        [unfold Mongo.insert_one; rewrite map_app; apply in_or_app;
         right; now left|]
    end.
    match goal with
    | |- context [if ?b then (?a, ?x) else respond ?c ?e ?t ?s ?m ?y] =>
        assert (exists text,
                   fst (if b then (a, x) else respond c e t s m y)
                   = ok text) as [text Htext]
          by (destruct b; [eexists; reflexivity | apply respond_answers])
    end.
    rewrite Htext. split; [discriminate|]. split; [discriminate|].
    intros [H | [H | (_ & thread0 & [=] & _)]]; congruence.
Qed.

(** ** The transcript of a conversation *)

Lemma insert_message_permutation (msg : oid * gmap string value)
    (l : collection) :
  Permutation (insert_message msg l) (msg :: l).
Proof.
  induction l as [|m rest IH]; simpl; [reflexivity|].
  destruct (timestamp_key msg <=? timestamp_key m); [reflexivity|].
  rewrite IH. apply perm_swap.
Qed.

Lemma sort_messages_permutation (l : collection) :
  Permutation (sort_messages l) l.
Proof.
  induction l as [|m rest IH]; simpl; [reflexivity|].
  rewrite insert_message_permutation. now rewrite IH.
Qed.

Lemma insert_message_in_time_order (msg : oid * gmap string value)
    (l : collection) :
  in_time_order l -> in_time_order (insert_message msg l).
Proof.
  induction l as [|m rest IH]; simpl.
  - intros _. split; [intros later []|exact I].
  - intros [Hm Hrest].
    destruct (timestamp_key msg <=? timestamp_key m) eqn:E.
    + apply Z.leb_le in E. simpl. repeat split; auto.
      intros later [<- | Hin]; [exact E|]. specialize (Hm later Hin). lia.
    + apply Z.leb_gt in E. simpl. split; [|auto].
      intros later Hin.
      apply (Permutation_in _ (insert_message_permutation msg rest)) in Hin.
      destruct Hin as [<- | Hin]; [lia | auto].
Qed.

Lemma sort_messages_in_time_order (l : collection) :
  in_time_order (sort_messages l).
Proof.
  induction l as [|m rest IH]; simpl; [exact I|].
  now apply insert_message_in_time_order.
Qed.

Lemma transcript_lines_None (l : collection) :
  transcript_lines py_str l = None
  <-> exists msg, In msg l /\ transcript_line py_str msg = None.
Proof.
  induction l as [|m rest IH]; simpl.
  - split; [discriminate | intros (msg & [] & _)].
  - destruct (transcript_line py_str m) as [line|] eqn:E.
    + destruct (transcript_lines py_str rest) as [lines|].
      * split; [discriminate|].
        intros (msg & [<- | Hin] & Hmsg); [congruence|].
        assert (Some lines = None) as H by (apply (proj2 IH); eauto).
        discriminate H.
      * split; [|reflexivity]. intros _.
        destruct (proj1 IH eq_refl) as (msg & Hin & Hmsg). eauto.
    + split; [|reflexivity]. intros _. exists m. auto.
Qed.

Lemma transcript_lines_Some (l : collection) (lines : list string) :
  transcript_lines py_str l = Some lines
  <-> Forall2 (fun msg line => transcript_line py_str msg = Some line)
        l lines.
Proof.
  revert lines. induction l as [|m rest IH]; intros lines; simpl.
  - split.
    + intros [= <-]. constructor.
    + intros H. inversion H. reflexivity.
  - destruct (transcript_line py_str m) as [line|] eqn:E.
    + destruct (transcript_lines py_str rest) as [lines'|] eqn:E'.
      * split.
        -- intros [= <-]. constructor; [exact E|]. now apply IH.
        -- intros H. inversion H as [|? ? ? ? Hline Hrest]; subst.
           apply IH in Hrest. congruence.
      * split; [discriminate|].
        intros H. inversion H as [|? ? ? ? Hline Hrest]; subst.
        apply IH in Hrest. discriminate.
    + split; [discriminate|].
      intros H. inversion H as [|? ? ? ? Hline Hrest]; subst. congruence.
Qed.

(** X24: the transcript has one line for each message of the thread and
    none for the others, in the order of the timestamps whatever the order
    in which the messages are stored; building it raises KeyError exactly
    when a message of the thread has no direction or no body. *)
Theorem transcript_is_in_time_order (thread_id : oid)
    (messages : collection) :
  let found := Mongo.find (by_thread thread_id) messages in
  (build_conversation_transcript py_str thread_id messages
   = Raised "KeyError"
   <-> exists msg, In msg found /\ transcript_line py_str msg = None)
  /\ exists sorted,
      Permutation sorted found
      /\ in_time_order sorted
      /\ forall text,
          build_conversation_transcript py_str thread_id messages
          = Returned text
          <-> exists lines,
              Forall2
                (fun msg line => transcript_line py_str msg = Some line)
                sorted lines
              /\ text = String.concat new_line lines.
Proof.
  intros found. unfold build_conversation_transcript.
  change (Mongo.find (Mongo.by_field "threadId" (VOid thread_id)) messages)
    with found.
  split.
  - destruct (transcript_lines py_str (sort_messages found)) as [lines|]
      eqn:E.
    + split; [discriminate|]. intros (msg & Hin & Hmsg). exfalso.
      assert (transcript_lines py_str (sort_messages found) = None) as Hn.
      { apply transcript_lines_None. exists msg. split; [|exact Hmsg].
        apply (Permutation_in _
                 (Permutation_sym (sort_messages_permutation found))).
        exact Hin. }
      congruence.
    + split; [|reflexivity]. intros _.
      apply transcript_lines_None in E as (msg & Hin & Hmsg).
      exists msg. split; [|exact Hmsg].
      now apply (Permutation_in _ (sort_messages_permutation found)).
  - exists (sort_messages found).
    split; [apply sort_messages_permutation|].
    split; [apply sort_messages_in_time_order|].
    intros text.
    destruct (transcript_lines py_str (sort_messages found)) as [lines|]
      eqn:E.
    + apply transcript_lines_Some in E. split.
      * intros [= <-]. eauto.
      * intros (lines' & Hlines & ->). f_equal. f_equal.
        apply transcript_lines_Some in E, Hlines. congruence.
    + split; [discriminate|]. intros (lines & Hlines & _).
      apply transcript_lines_Some in Hlines. congruence.
Qed.

End Engine.

(** ** The claims on the sample data *)

(** C10 fails on the code when the stored times come back as [app.py]
    reads them, as UTC without a zone: at 8:00 on day 100 a dealer
    proposes 14:00 and the engine, with no visit stored, books it; the
    field stored is 19:00 UTC.  Five minutes later another dealer proposes
    14:00 too.  The visit is in the context of that run, but the engine
    labels its 19:00 Central Time, finds it five hours away and books
    14:00 again: the two visits have the same [scheduledTime], 0 seconds
    apart. *)
Theorem stored_instant_is_booked_twice :
  let proposal := combine 100 14 in
  let first_run :=
    process_visit_scheduling utc_to_bson utc_from_bson sample_strftime true
      (sample_env (Extracted true true (Some proposal))) 7%N "+15550107"
      [] in
  let env := later_env (Extracted true true (Some proposal)) in
  let second_run :=
    process_visit_scheduling utc_to_bson utc_from_bson sample_strftime true
      env 8%N "+15550108" (snd first_run) in
  map (fun v => snd v !! "scheduledTime") (snd first_run)
  = [Some (VDate (proposal + hours 5))]
  /\ map scheduledTime
       (get_visit_availability utc_to_bson (now_ct env)
          (now_ct env + days 2) (snd first_run))
     = [proposal + hours 5]
  /\ fst second_run
     = Some {| message := perfect_message sample_strftime proposal;
               visit_scheduled := true |}
  /\ snd second_run
     = (snd first_run
        ++ [booked_visit utc_to_bson env 8%N proposal "+15550108"])%list
  /\ map (fun v => snd v !! "scheduledTime") (snd second_run)
     = [Some (VDate (proposal + hours 5));
        Some (VDate (proposal + hours 5))].
Proof.
  intros proposal first_run env second_run.
  split; [vm_compute; reflexivity|].
  split; [vm_compute; reflexivity|].
  split; [vm_compute; reflexivity|].
  split; [compute_done | vm_compute; reflexivity].
Qed.

(** C2 does not hold as stated: at 8:00 on day 100 the context of a run
    for thread 8 holds the six visits of thread 7, and a proposal for 10:20
    conflicts with one of them, while the visits of thread 8 alone give an
    empty context and no conflict. *)
Lemma context_holds_visits_of_other_threads :
  let now := combine 100 8 in
  let context := get_visit_availability same_time now (now + days 2)
                   busy_visits in
  let of_thread := spec_availability_context same_time 8%N now
                     (now + days 2) busy_visits in
  map visitId context = [1; 2; 3; 4; 5; 6]%N
  /\ of_thread = []
  /\ has_conflict same_time (combine 100 10 + minutes 20) context = true
  /\ has_conflict same_time (combine 100 10 + minutes 20) of_thread = false.
Proof. vm_compute. repeat split; reflexivity. Qed.

(** C3 does not hold as stated: at 8:00, with every preferred hour of the
    window taken, the fallback books 9:00 of the same day, which is before
    the start at 10:00 that the specification gives to the scan. *)
Lemma fallback_books_nine_before_the_stated_start :
  let now := combine 100 8 in
  let context := get_visit_availability same_time now (now + days 2)
                   busy_visits in
  let out := propose_available_time same_time same_time sample_strftime
               (sample_env ExtractionRaised) now (now + days 2) context
               8%N "+15550108" None busy_visits in
  hour now = 8
  /\ fst out = {| message := how_about_message sample_strftime (combine 100 9);
                  visit_scheduled := true |}
  /\ snd out
     = (busy_visits
          ++ [booked_visit same_time (sample_env ExtractionRaised) 8%N
                (combine 100 9) "+15550108"])%list
  /\ combine 100 9 < spec_scan_start now.
Proof.
  intros now context out.
  split; [vm_compute; reflexivity|].
  split; [vm_compute; reflexivity|].
  split; [compute_done|].
  vm_compute. reflexivity.
Qed.

(** C6 does not hold as stated: without a configured client a plain
    acknowledgment is classified as new information. *)
Lemma acknowledgment_without_client_is_new_information :
  let message := "Sounds good, will get back to you" in
  is_just_acknowledgment message = true
  /\ message_contains_new_information false message (KnownFields [])
     = Ret true.
Proof. vm_compute. split; reflexivity. Qed.

(** The model is asked about a message with a price, and a failing call
    gives True. *)
Lemma model_failure_means_new_information_witness :
  fst (run (fun _ => LlmRaised)
         (message_contains_new_information true "It is $5000 out the door"
            (KnownFields [])))
  = true.
Proof.
  apply (model_failure_means_new_information true "It is $5000 out the door"
           (KnownFields []) (fun _ => LlmRaised)
           (AskNewInformation "" "It is $5000 out the door")).
  - vm_compute. left. reflexivity.
  - reflexivity.
Defined.

(** A proposal for 10:20 on day 100 conflicts with the visit at 10:00; the
    engine answers for that input as the theorem says. *)
Lemma conflict_books_nearest_alternative_witness :
  let env := sample_env (Extracted true true
                           (Some (combine 100 10 + minutes 20))) in
  visit_scheduled
    <$> fst (process_visit_scheduling same_time same_time sample_strftime
               true env 8%N "+15550108" busy_visits)
  = Some true.
Proof.
  intros env.
  destruct (conflict_books_nearest_alternative same_time same_time
              sample_strftime env 8%N "+15550108" busy_visits
              (combine 100 10 + minutes 20))
    as [(off & _ & _ & _ & Hout) | (Hnone & _)].
  - reflexivity.
  - vm_compute. discriminate.
  - vm_compute. reflexivity.
  - rewrite Hout. reflexivity.
  - exfalso. apply (Hnone 60).
    + simpl. tauto.
    + vm_compute. split; [split; discriminate | reflexivity].
Defined.

(** A proposal for 7:00 on day 100, made at 8:00, is in the past. *)
Lemma past_proposal_falls_back_witness :
  let env := sample_env (Extracted true true (Some (combine 100 7))) in
  let out := process_visit_scheduling same_time same_time sample_strftime
               true env 8%N "+15550108" busy_visits in
  snd out = busy_visits
  \/ exists c,
      combine 100 7 < c
      /\ snd out
         = (busy_visits
              ++ [booked_visit same_time env 8%N c "+15550108"])%list.
Proof.
  intros env out.
  apply (past_proposal_falls_back same_time same_time sample_strftime env
           8%N "+15550108" busy_visits true true (combine 100 7)).
  - reflexivity.
  - vm_compute. reflexivity.
Defined.

(** A message from the dealer of the complete thread of the sample. *)
Lemma complete_thread_gets_no_response_witness :
  let out := sms_webhook same_time same_time sample_strftime sample_str
               sample_config sample_webhook_env
               (sample_webhook "+15550100" "Are you still coming by?")
               sample_world in
  fst out = Response true "Conversation complete, no response sent"
  /\ effects (snd out) = []
  /\ visits (snd out) = busy_visits.
Proof.
  intros out.
  destruct (complete_thread_gets_no_response same_time same_time
              sample_strftime sample_str sample_config sample_webhook_env
              (sample_webhook "+15550100" "Are you still coming by?")
              sample_world complete_thread)
    as (Hresponse & Heffects & Hvisits & _).
  - simpl. repeat constructor; simpl; intuition discriminate.
  - discriminate.
  - discriminate.
  - vm_compute. reflexivity.
  - compute_done.
  - vm_compute. reflexivity.
  - vm_compute. discriminate.
  - auto.
Defined.

(** For a thread that is not complete the same handler calls the agent and
    the visit check, and registers a delayed reply. *)
Example open_thread_gets_a_response :
  let out := sms_webhook same_time same_time sample_strftime sample_str
               sample_config sample_webhook_env
               (sample_webhook "+15550101" "It is a 2019 Camry")
               sample_world in
  fst out = Response true "Message processed"
  /\ effects (snd out)
     = [ ModelCall (AskAgent "" "Dealer: It is a 2019 Camry");
         ModelCall (AskVisitScheduling "It is a 2019 Camry");
         TaskCreated 2%N "How many miles are on it?" ].
Proof. vm_compute. split; reflexivity. Qed.

(** [modify_visit] on a stored visit, asked to cancel it. *)
Example modify_visit_cancel_raises :
  modify_visit same_time utils_globals (combine 100 8) 1%N None None
    (Some "cancelled") busy_visits
  = (Raised "NameError", busy_visits).
Proof. reflexivity. Qed.


(** ** More runs of the engine on the sample data *)

(** A proposal for noon of day 100 is free and is booked as proposed. *)
Example proposal_at_noon_is_booked :
  let env := sample_env (Extracted true true (Some (combine 100 12))) in
  let out := process_visit_scheduling same_time same_time sample_strftime
               true env 8%N "+15550108" busy_visits in
  fst out = Some {| message := perfect_message sample_strftime (combine 100 12);
                    visit_scheduled := true |}
  /\ snd out
     = (busy_visits
          ++ [booked_visit same_time env 8%N (combine 100 12) "+15550108"])%list.
Proof.
  intros env out. split; [vm_compute; reflexivity | compute_done].
Qed.

(** A proposal for 14:00 of day 100 meets the visit at 14:00: half an hour
    earlier and later still conflict, and of the two candidates an hour
    away the earlier one, 13:00, is booked. *)
Example proposal_at_two_moves_to_one :
  let env := sample_env (Extracted true true (Some (combine 100 14))) in
  let context := get_visit_availability same_time (now_ct env)
                   (now_ct env + days 2) busy_visits in
  find_next_available_time same_time env (combine 100 14) context
    (now_ct env + days 2)
  = Some (combine 100 13)
  /\ alternative_slot same_time env (combine 100 14) context
       (now_ct env + days 2) 60
     = Some (combine 100 15).
Proof. vm_compute. split; reflexivity. Qed.

(** With a visit at every hour from 9 to 17 on days 100 and 101 the
    fallback finds nothing at 8:00 of day 100 and books nothing. *)
Example full_calendar_books_nothing :
  let full : list (oid * gmap string value) :=
    (map (fun h => (Z.to_N h, sample_visit 7%N (combine 100 h))) (seqZ 9 9)
     ++ map (fun h => (Z.to_N (h + 24), sample_visit 7%N (combine 101 h)))
          (seqZ 9 9))%list in
  let env := sample_env (Extracted false false None) in
  let out := process_visit_scheduling same_time same_time sample_strftime
               true env 8%N "+15550108" full in
  fst out = Some {| message := booked_up_message; visit_scheduled := false |}
  /\ length (snd out) = 18%nat.
Proof. vm_compute. split; reflexivity. Qed.

(** A cancelled visit and a visit after the window are not in the
    context. *)
Example cancelled_and_late_visits_are_left_out :
  let now := combine 100 8 in
  let stored : list (oid * gmap string value) :=
    [ (1%N, <["status" := VStr "cancelled"]>
              (sample_visit 7%N (combine 100 10)));
      (2%N, sample_visit 7%N (combine 102 9));
      (3%N, sample_visit 7%N (combine 102 8)) ] in
  map visitId (get_visit_availability same_time now (now + days 2) stored)
  = [3%N].
Proof. vm_compute. reflexivity. Qed.


(** ** The further properties on the sample data *)

(** A promise to get back, without a figure in it. *)
Lemma promise_to_get_back_is_no_new_information_witness :
  message_contains_new_information true "I will get back to you shortly"
    (KnownFields [])
  = Ret false.
Proof.
  apply (promise_to_get_back_is_no_new_information
           "I will get back to you shortly" (KnownFields [])).
  - vm_compute. reflexivity.
  - intros c Hin Hc. simpl in Hin, Hc.
    repeat (destruct Hin as [<- | Hin]; [intuition discriminate|]).
    destruct Hin.
  - simpl. intuition discriminate.
Defined.

(** A list of an ObjectId, a datetime and a string comes back as it is. *)
Lemma list_elements_are_not_serialized_witness :
  serialize_document (fun _ => "an id") (fun _ => "a time")
    (PDict [("related", PList [POid 7%N; PDate 0; PStr "x"])])
  = PDict [("related", PList [POid 7%N; PDate 0; PStr "x"])].
Proof.
  apply (list_elements_are_not_serialized (fun _ => "an id")
           (fun _ => "a time") "related" [POid 7%N; PDate 0; PStr "x"]).
  intros e [<- | [<- | [<- | []]]]; exact I.
Defined.

(** The removal of the waiting thread takes its two messages and its visit
    with it and leaves the message and the visits of the other threads. *)
Lemma delete_thread_data_purges_the_thread_witness :
  let out := delete_thread_data "+15550102" waiting_world in
  fst out = Returned true
  /\ map fst (messages (snd out)) = [31%N]
  /\ visits (snd out) = busy_visits.
Proof.
  intros out.
  destruct (delete_thread_data_purges_the_thread "+15550102" waiting_world
              waiting_thread)
    as (Hreturned & Hmessages & Hvisits & _).
  - simpl. repeat constructor; simpl; intuition discriminate.
  - simpl. constructor.
  - compute_done.
  - vm_compute. exact I.
  - split; [exact Hreturned|]. subst out. split.
    + rewrite Hmessages. vm_compute. reflexivity.
    + rewrite Hvisits. compute_done.
Defined.

(** At 8:00 on day 100 the engine books nothing before 8:00. *)
Lemma booked_visit_is_not_in_the_past_witness :
  let env := sample_env (Extracted true true
                           (Some (combine 100 10 + minutes 20))) in
  let out := process_visit_scheduling same_time same_time sample_strftime
               true env 8%N "+15550108" busy_visits in
  snd out = busy_visits
  \/ exists t,
      snd out
      = (busy_visits ++ [booked_visit same_time env 8%N t "+15550108"])%list
      /\ combine 100 8 <= t.
Proof.
  intros env out.
  destruct (booked_visit_is_not_in_the_past same_time same_time
              sample_strftime true env 8%N "+15550108" busy_visits)
    as [Hsame | (t & Hout & Hnow & _)].
  - intros offset_minutes. vm_compute. discriminate.
  - now left.
  - right. exists t. split; [exact Hout | exact Hnow].
Defined.

(** The visit of thread 7 at 10:00 on day 100 keeps a run for thread 8 an
    hour away. *)
Lemma no_visit_within_an_hour_of_a_stored_one_witness :
  let env := sample_env (Extracted true true
                           (Some (combine 100 10 + minutes 20))) in
  let out := process_visit_scheduling same_time same_time sample_strftime
               true env 8%N "+15550108" busy_visits in
  snd out = busy_visits
  \/ exists t,
      snd out
      = (busy_visits ++ [booked_visit same_time env 8%N t "+15550108"])%list
      /\ seconds 3600 <= Z.abs (t - combine 100 10).
Proof.
  intros env out.
  apply (no_visit_within_an_hour_of_a_stored_one same_time same_time
           sample_strftime true env 8%N "+15550108" busy_visits
           (1%N, sample_visit 7%N (combine 100 10)) (combine 100 10)).
  - reflexivity.
  - intros a b Hab. exact Hab.
  - left. reflexivity.
  - vm_compute. reflexivity.
  - vm_compute. reflexivity.
  - vm_compute. split; discriminate.
Defined.

(** At 8:00 on day 100 a proposal for 10:00 on day 103 is booked although a
    visit is stored for that very time. *)
Lemma proposal_beyond_the_window_is_booked_unchecked_witness :
  let env := sample_env (Extracted true true (Some (combine 103 10))) in
  let stored := [(1%N, sample_visit 7%N (combine 103 10))] in
  snd (process_visit_scheduling same_time same_time sample_strftime true
         env 8%N "+15550108" stored)
  = (stored
     ++ [booked_visit same_time env 8%N (combine 103 10) "+15550108"])%list.
Proof.
  intros env stored.
  rewrite (proposal_beyond_the_window_is_booked_unchecked same_time
             same_time sample_strftime env 8%N "+15550108" stored
             (combine 103 10)).
  - reflexivity.
  - reflexivity.
  - intros a b Hab. exact Hab.
  - reflexivity.
  - vm_compute. discriminate.
Defined.

(** The opt-in reply in capitals, with text around it. *)
Lemma opt_in_message_is_ignored_witness :
  sms_webhook same_time same_time sample_strftime sample_str sample_config
    sample_webhook_env
    (sample_webhook "+15550100"
       "MTA: THANKS FOR OPTING IN to receive messages from us! Reply STOP to end")
    sample_world
  = (ok "Opt-in message ignored", sample_world).
Proof.
  apply (opt_in_message_is_ignored same_time same_time sample_strftime
           sample_str sample_config sample_webhook_env
           (sample_webhook "+15550100"
              "MTA: THANKS FOR OPTING IN to receive messages from us! Reply STOP to end")
           sample_world "MTA: "
           "THANKS FOR OPTING IN to receive messages from us!"
           " Reply STOP to end").
  - discriminate.
  - reflexivity.
  - vm_compute. reflexivity.
Defined.

(** The dealer of the waiting thread promises to call back. *)
Lemma acknowledgment_while_waiting_gets_no_reply_witness :
  let out := sms_webhook same_time same_time sample_strftime sample_str
               sample_config sample_webhook_env
               (sample_webhook "+15550102" "Sounds good, will get back to you")
               waiting_world in
  fst out
  = Response true
      "Waiting for dealer response, no new information in message"
  /\ effects (snd out) = []
  /\ length (messages (snd out)) = 4%nat.
Proof.
  intros out.
  destruct (acknowledgment_while_waiting_gets_no_reply same_time same_time
              sample_strftime sample_str sample_config sample_webhook_env
              (sample_webhook "+15550102" "Sounds good, will get back to you")
              waiting_world waiting_thread)
    as (Hresponse & Heffects & _ & _ & _ & (stored & Hmessages & _) & _).
  - simpl. repeat constructor; simpl; intuition discriminate.
  - reflexivity.
  - discriminate.
  - vm_compute. reflexivity.
  - compute_done.
  - vm_compute. reflexivity.
  - vm_compute. reflexivity.
  - vm_compute. discriminate.
  - vm_compute. reflexivity.
  - split; [exact Hresponse|]. split; [exact Heffects|].
    subst out. rewrite Hmessages. reflexivity.
Defined.

(** A first message from a number that has no thread. *)
Lemma first_message_opens_a_thread_witness :
  let out := sms_webhook same_time same_time sample_strftime sample_str
               sample_config sample_webhook_env
               (sample_webhook "+15550199" "Hi, is the car available?")
               sample_world in
  exists doc,
    In (20%N, doc) (threads (snd out))
    /\ doc !! "phoneNumber" = Some (VStr "+15550199")
    /\ doc !! "unreadCount" = Some (VInt 1).
Proof.
  intros out.
  destruct (first_message_opens_a_thread same_time same_time
              sample_strftime sample_str sample_config sample_webhook_env
              (sample_webhook "+15550199" "Hi, is the car available?")
              sample_world)
    as [Hthread _].
  - simpl. intuition discriminate.
  - discriminate.
  - discriminate.
  - vm_compute. reflexivity.
  - compute_done.
  - exact Hthread.
Defined.

(** Without a client the word VISIT decides. *)
Lemma visit_check_falls_back_to_keywords_witness :
  fst (run (fun _ => LlmRaised)
         (check_if_message_about_visit_scheduling false
            "Can you VISIT tomorrow?"))
  = true.
Proof.
  apply (visit_check_falls_back_to_keywords false (fun _ => LlmRaised)
           "Can you VISIT tomorrow?").
  - left. reflexivity.
  - exists "visit", "can you ", " tomorrow?". split.
    + simpl. tauto.
    + vm_compute. reflexivity.
Defined.

(** A message for the open thread of the sample, read so far. *)
Lemma unread_count_goes_up_by_one_witness :
  let out := sms_webhook same_time same_time sample_strftime sample_str
               sample_config sample_webhook_env
               (sample_webhook "+15550101" "It has 42,000 miles")
               sample_world in
  exists doc,
    In (2%N, doc) (threads (snd out))
    /\ doc !! "unreadCount" = Some (VInt 1).
Proof.
  intros out.
  destruct (unread_count_goes_up_by_one same_time same_time
              sample_strftime sample_str sample_config sample_webhook_env
              (sample_webhook "+15550101" "It has 42,000 miles")
              sample_world open_thread 1)
    as [Hthread _].
  - simpl. repeat constructor; simpl; intuition discriminate.
  - discriminate.
  - discriminate.
  - vm_compute. reflexivity.
  - compute_done.
  - vm_compute. reflexivity.
  - exact Hthread.
Defined.
